(** * Wer-liefert-was B2B marketplace scraper: a shallow embedding

    The development follows the layout of the repository:

    - [PyStr]: the [str] methods the scraper calls ([split], [strip],
      [join], [replace], [find], slicing, [isdigit], [int]).
    - [Utils]: [src/extractors/utils.py] ([RetryConfig], [fetch_page],
      [normalize_whitespace], [build_search_url]).
    - [CompanyParser], [ProductParser]: the two extractors.
    - [JsonExporter]: [src/outputs/json_exporter.py].
    - [Main]: the two crawl loops of [src/main.py].
    - [Logging], [Config]: the set-up of the logger in [utils.py],
      and the settings and the command line of [src/main.py].

    Text is modelled as [string], each character standing for one code
    point below 256.  Third-party libraries (BeautifulSoup, requests,
    urllib) are interfaces: every theorem holds for all their
    implementations.  The messages written to the logger are not
    modelled. *)

From Stdlib Require Import ZArith QArith String Ascii Lia.
From stdpp Require Import base option list gmap strings fin_maps.

#[local] Set Warnings "-register-all".
#[local] Open Scope Z_scope.

(** ** Python values and exceptions *)

(** What a dictionary of the scraper may hold: [None], a string, an
    integer, a list or a nested dictionary. *)
Inductive value :=
| VNone
| VStr (s : string)
| VInt (n : Z)
| VList (l : list value)
| VDict (d : gmap string value).

(** A record as the extractors return it: a [dict] with string keys. *)
Abbreviation record := (gmap string value).

Inductive exn :=
| IndexError
| ValueError
| TypeError
| OverflowError
| HTTPError (status : Z)
| RequestException (msg : string).

(** A computation that returns or raises. *)
Inductive result (A : Type) :=
| Ok (a : A)
| Raise (e : exn).
Arguments Ok {A} a.
Arguments Raise {A} e.

#[global] Instance result_ret : MRet result := fun A a => Ok a.
#[global] Instance result_bind : MBind result := fun A B f m =>
  match m with
  | Ok a => f a
  | Raise e => Raise e
  end.

(** [Optional[str]] as a dictionary value. *)
Definition of_opt_str (o : option string) : value :=
  match o with
  | Some s => VStr s
  | None => VNone
  end.

Definition of_opt_int (o : option Z) : value :=
  match o with
  | Some n => VInt n
  | None => VNone
  end.

(** ** The [str] methods *)

Module PyStr.

(** Truth value of a string: non-empty. *)
Definition truthy (s : string) : bool :=
  match s with
  | "" => false
  | String _ _ => true
  end.

(** Truth value of an [Optional[str]]. *)
Definition truthy_opt (o : option string) : bool :=
  match o with
  | Some s => truthy s
  | None => false
  end.

(** [a or b] on [Optional[str]]. *)
Definition or_ (a b : option string) : option string :=
  if truthy_opt a then a else b.

(** [s or None]. *)
Definition or_none (s : string) : option string :=
  if truthy s then Some s else None.

(** [str.isspace] of one character, for the code points below 256. *)
Definition isspace (c : ascii) : bool :=
  let n := N_of_ascii c in
  ((9 <=? n) && (n <=? 13) || (28 <=? n) && (n <=? 32)
   || (n =? 133) || (n =? 160))%N.

(** [true] where a token ends: at the end of the text or before a
    whitespace character. *)
Definition at_boundary (s : string) : bool :=
  match s with
  | "" => true
  | String c _ => isspace c
  end.

(** [s.split()]: the maximal runs of non-whitespace characters. *)
Fixpoint split_ws (s : string) : list string :=
  match s with
  | "" => []
  | String c s' =>
      if isspace c then split_ws s'
      else if at_boundary s' then String c "" :: split_ws s'
      else match split_ws s' with
           | t :: ts => String c t :: ts
           | [] => [String c ""]
           end
  end.

(** [sep.join(l)]. *)
Fixpoint join (sep : string) (l : list string) : string :=
  match l with
  | [] => ""
  | x :: l' =>
      match l' with
      | [] => x
      | _ :: _ => x +:+ sep +:+ join sep l'
      end
  end.

Fixpoint lstrip_by (p : ascii -> bool) (s : string) : string :=
  match s with
  | "" => ""
  | String c s' => if p c then lstrip_by p s' else s
  end.

Fixpoint rstrip_by (p : ascii -> bool) (s : string) : string :=
  match s with
  | "" => ""
  | String c s' =>
      match rstrip_by p s' with
      | "" => if p c then "" else String c ""
      | r => String c r
      end
  end.

(** [s.strip()]. *)
Definition strip (s : string) : string :=
  rstrip_by isspace (lstrip_by isspace s).

(** [s.strip(ch)] for a one-character argument. *)
Definition strip_char (ch : ascii) (s : string) : string :=
  rstrip_by (Ascii.eqb ch) (lstrip_by (Ascii.eqb ch) s).

(** [s.split(sep)] for a one-character separator: never empty, keeps
    empty pieces. *)
Fixpoint split_on (sep : ascii) (s : string) : list string :=
  match s with
  | "" => [""]
  | String c s' =>
      if Ascii.eqb c sep then "" :: split_on sep s'
      else match split_on sep s' with
           | t :: ts => String c t :: ts
           | [] => [String c ""]
           end
  end.

(** Truth value of a list: non-empty. *)
Definition truthy_list {A} (l : list A) : bool :=
  match l with
  | [] => false
  | _ :: _ => true
  end.

(** [len(l)] and [len(s)]. *)
Definition len {A} (l : list A) : Z := Z.of_nat (length l).
Definition len_str (s : string) : Z := Z.of_nat (String.length s).

(** [l[i]] for a non-negative [i]. *)
Definition index_at {A} (l : list A) (i : nat) : result A :=
  match l !! i with
  | Some x => Ok x
  | None => Raise IndexError
  end.

(** [l[-1]]. *)
Definition index_last {A} (l : list A) : result A :=
  match last l with
  | Some x => Ok x
  | None => Raise IndexError
  end.

(** [s.startswith(p)]. *)
Fixpoint startswith (p s : string) : bool :=
  match p, s with
  | "", _ => true
  | String a p', String b s' => Ascii.eqb a b && startswith p' s'
  | String _ _, "" => false
  end.

(** [sub in s]. *)
Fixpoint contains (sub s : string) : bool :=
  startswith sub s ||
  match s with
  | "" => false
  | String _ s' => contains sub s'
  end.

(** [s.find(sub)]: the lowest index of an occurrence, [-1] if none. *)
Fixpoint find (sub s : string) : Z :=
  if startswith sub s then 0
  else match s with
       | "" => -1
       | String _ s' =>
           let i := find sub s' in
           if i <? 0 then -1 else i + 1
       end.

Fixpoint drop (n : nat) (s : string) : string :=
  match n, s with
  | O, _ => s
  | S n', String _ s' => drop n' s'
  | S _, "" => ""
  end.

(** [s[start:]], a negative [start] counting from the end. *)
Definition slice_from (start : Z) (s : string) : string :=
  let len := Z.of_nat (String.length s) in
  let i := if start <? 0 then Z.max 0 (len + start) else start in
  drop (Z.to_nat i) s.

(** [s.replace(old, "")] for a non-empty [old]: [skip] counts the
    characters of the current occurrence still to be dropped. *)
Fixpoint remove_go (old : string) (skip : nat) (s : string) : string :=
  match s with
  | "" => ""
  | String c s' =>
      match skip with
      | S k => remove_go old k s'
      | O =>
          if startswith old s
          then remove_go old (Nat.pred (String.length old)) s'
          else String c (remove_go old O s')
      end
  end.

Definition remove_all (old s : string) : string := remove_go old O s.

Definition is_ascii_digit (c : ascii) : bool :=
  let n := N_of_ascii c in ((48 <=? n) && (n <=? 57))%N.

(** [str.isdigit] of one character below 256: the decimal digits and
    the superscripts 2, 3 and 1. *)
Definition isdigit_char (c : ascii) : bool :=
  let n := N_of_ascii c in
  (is_ascii_digit c || (n =? 178) || (n =? 179) || (n =? 185))%N.

Fixpoint forallb_str (p : ascii -> bool) (s : string) : bool :=
  match s with
  | "" => true
  | String c s' => p c && forallb_str p s'
  end.

(** A token: a non-empty string without whitespace. *)
Definition token (t : string) : Prop :=
  t <> "" /\ forallb_str (fun c => negb (isspace c)) t = true.

(** [s.isdigit()]. *)
Definition isdigit (s : string) : bool :=
  truthy s && forallb_str isdigit_char s.

Fixpoint digits_value (acc : Z) (s : string) : Z :=
  match s with
  | "" => acc
  | String c s' =>
      digits_value (10 * acc + Z.of_N (N_of_ascii c) - 48) s'
  end.

(** [int(s)] on a string that passed [isdigit]: the superscripts are
    digits for [isdigit] but not for [int]. *)
Definition int_of_digits (s : string) : result Z :=
  if truthy s && forallb_str is_ascii_digit s
  then Ok (digits_value 0 s)
  else Raise ValueError.

(** [str(n)] of a non-negative number below [10^k], written with
    exactly [k] digits, as the [%0kd] formats do. *)
Fixpoint zero_padded (k : nat) (n : Z) : string :=
  match k with
  | O => ""
  | S k' =>
      zero_padded k' (n / 10)
      +:+ String (ascii_of_N (Z.to_N (48 + n mod 10))) ""
  end.

End PyStr.


(** ** External libraries as interfaces *)

(** [urllib.parse] and the Unicode case mapping of [str.upper].
    [urljoin] raises [ValueError] on a base or a reference that it
    cannot split, such as one with an unbalanced bracket. *)
Class PyRuntime := {
  urljoin : string -> string -> result string;
  urlencode : list (string * value) -> string;
  upper : string -> string;
}.

(** BeautifulSoup over a type [E] of tags.  A tag is always true as a
    condition; a missing attribute reads [None]; [find_string]
    returns the text of the first string that satisfies the predicate,
    with the tag that contains it. *)
Class Soup (E : Type) := {
  parse_html : string -> E;
  select : string -> E -> list E;
  select_one : string -> E -> option E;
  find_tag : string -> E -> option E;
  find_all : string -> E -> list E;
  find_string : (string -> bool) -> E -> option (string * E);
  attr : string -> E -> option string;
  get_text : string -> bool -> E -> string;
}.

(** [x or y] on the results of [select_one]. *)
Definition or_tag {E} (a b : option E) : option E :=
  match a with
  | Some _ => a
  | None => b
  end.

(** ** Computations of the crawler: a world, exceptions, fuel *)

Record Response := {
  status_code : Z;
  text : string;
}.

(** The outside of [fetch_page]: [requests.Session.get] over a world
    [W] that each request may change, and what [time.sleep] does with
    a delay of more than a day, which depends on the platform
    ([OverflowError] where the delay does not fit its timestamp). *)
Class Transport (W : Type) := {
  session_get :
    string -> option (list (string * value)) -> Q -> W -> result Response * W;
  sleep_long : Q -> result unit;
}.
Arguments sleep_long {W _} secs.

(** The world, the URLs requested so far and the delays slept so far,
    both oldest first. *)
Record Env (W : Type) := {
  world : W;
  requested : list string;
  slept : list Q;
}.
Arguments world {W} e.
Arguments requested {W} e.
Arguments slept {W} e.

(** How a run ends: with a value, with an exception, or without an
    answer within the fuel. *)
Inductive run (W A : Type) :=
| Ret (a : A) (s : Env W)
| Exc (e : exn) (s : Env W)
| Diverge.
Arguments Ret {W A} a s.
Arguments Exc {W A} e s.
Arguments Diverge {W A}.

Definition M (W A : Type) : Type := Env W -> run W A.

#[global] Instance M_ret {W} : MRet (M W) := fun A a s => Ret a s.
#[global] Instance M_bind {W} : MBind (M W) := fun A B f m s =>
  match m s with
  | Ret a s' => f a s'
  | Exc e s' => Exc e s'
  | Diverge => Diverge
  end.

Definition diverge {W A} : M W A := fun _ => Diverge.

(** A pure computation inside the crawler. *)
Definition lift {W A} (r : result A) : M W A := fun s =>
  match r with
  | Ok a => Ret a s
  | Raise e => Exc e s
  end.

(** ** src/extractors/utils.py *)

Module Utils.

Record RetryConfig := {
  retries : Z;
  backoff_factor : Q;
  timeout : Q;
}.

Definition default_retry_config : RetryConfig :=
  {| retries := 3; backoff_factor := 1 # 2; timeout := 20 |}.

(** The seconds of a day. *)
Definition one_day : Q := 86400.

(** [requests.Response.raise_for_status]. *)
Definition raise_for_status (r : Response) : result unit :=
  if (400 <=? status_code r) && (status_code r <? 600)
  then Raise (HTTPError (status_code r))
  else Ok tt.

Section Fetch.
Context {W : Type} `{!Transport W}.

(** [session.get(url, params=params, timeout=...)], the exception
    it may raise reified. *)
Definition get (url : string) (params : option (list (string * value)))
    (tmo : Q) : M W (result Response) := fun s =>
  let '(r, w) := session_get url params tmo (world s) in
  Ret r {| world := w;
           requested := requested s ++ [url];
           slept := slept s |}.

(** [time.sleep(secs)]: a delay of at most a day is slept, a negative
    one of at most a day raises [ValueError], and a longer one is
    left to the platform. *)
Definition time_sleep (secs : Q) : result unit :=
  if Qle_bool 0 secs && Qle_bool secs one_day then Ok tt
  else if Qle_bool (- one_day) secs && negb (Qle_bool 0 secs) then Raise ValueError
  else sleep_long (W := W) secs.

(** [time.sleep(delay)] in a run: the delay is logged when it has
    been slept. *)
Definition sleep (delay : Q) : M W unit := fun s =>
  match time_sleep delay with
  | Ok _ => Ret tt {| world := world s;
                      requested := requested s;
                      slept := slept s ++ [delay] |}
  | Raise e => Exc e s
  end.

(** [retry_config.backoff_factor * (2**attempt)]: the power is an
    integer, and its conversion to a float raises [OverflowError]
    from [2**1024] on. *)
Definition backoff_delay (cfg : RetryConfig) (attempt : Z) : result Q :=
  if attempt <? 1024
  then Ok (backoff_factor cfg * inject_Z (2 ^ attempt))%Q
  else Raise OverflowError.

(** The body of the [try]: a response is returned unless
    [raise_for_status] raises. *)
Definition response_text (r : result Response) : result string :=
  resp ← r; _ ← raise_for_status resp; Ok (text resp).

(** The [while attempt <= retry_config.retries] loop.  An exception
    of the delay or of the sleep is raised in the [except] block and
    leaves the function. *)
Fixpoint fetch_loop (fuel : nat) (cfg : RetryConfig) (url : string)
    (params : option (list (string * value))) (attempt : Z) : M W string :=
  if attempt <=? retries cfg then
    match fuel with
    | O => diverge
    | S fuel' =>
        r ← get url params (timeout cfg);
        match response_text r with
        | Ok body => mret body
        | Raise _ =>
            if attempt >=? retries cfg then mret ""
            else
              delay ← lift (backoff_delay cfg attempt);
              _ ← sleep delay;
              fetch_loop fuel' cfg url params (attempt + 1)
        end
    end
  else mret "".

Definition fetch_page_with (cfg : RetryConfig) (url : string)
    (params : option (list (string * value))) : M W string :=
  fetch_loop (Z.to_nat (retries cfg + 1)) cfg url params 0.

(** [fetch_page(session, url)] as [main.py] calls it. *)
Definition fetch_page (url : string) : M W string :=
  fetch_page_with default_retry_config url None.

End Fetch.

Definition normalize_whitespace (text : string) : string :=
  if PyStr.truthy text then PyStr.join " " (PyStr.split_ws text) else "".

Definition build_search_url `{!PyRuntime}
    (base_url query mode region language : string) (page : Z) : result string :=
  let mode_segment := if String.eqb mode "company" then "firmen" else "produkte" in
  let lang_segment := if String.eqb language "de" then "de" else "en" in
  let path := "/" +:+ lang_segment +:+ "/" +:+ mode_segment +:+ "/" in
  let params := [("q", VStr query); ("page", VInt page); ("country", VStr region)] in
  full_url ← urljoin base_url path;
  Ok (full_url +:+ "?" +:+ urlencode params).

End Utils.

(** ** src/extractors/company_parser.py *)

Module CompanyContact.
Record t := {
  first_name : option string;
  last_name : option string;
  email : option string;
  role : option string;
}.

Definition asdict (c : t) : record :=
  list_to_map
    [("first_name", of_opt_str (first_name c));
     ("last_name", of_opt_str (last_name c));
     ("email", of_opt_str (email c));
     ("role", of_opt_str (role c))].
End CompanyContact.

Module CompanyAddress.
Record t := {
  street : option string;
  postal_code : option string;
  city : option string;
  country_code : option string;
  full : option string;
}.

Definition asdict (a : t) : record :=
  list_to_map
    [("street", of_opt_str (street a));
     ("postal_code", of_opt_str (postal_code a));
     ("city", of_opt_str (city a));
     ("country_code", of_opt_str (country_code a));
     ("full", of_opt_str (full a))].
End CompanyAddress.

Module CompanySummary.
Record t := {
  company_id : option string;
  name : option string;
  email : option string;
  phone_number : option string;
  homepage : option string;
  address : option CompanyAddress.t;
  employee_count : option string;
  founding_year : option Z;
  description : option string;
  region : option string;
  logo_url : option string;
  details_url : option string;
}.

Definition asdict (self : t) : record :=
  list_to_map
    [("company_id", of_opt_str (company_id self));
     ("name", of_opt_str (name self));
     ("email", of_opt_str (email self));
     ("phone_number", of_opt_str (phone_number self));
     ("homepage", of_opt_str (homepage self));
     ("address", match address self with
                 | Some a => VDict (CompanyAddress.asdict a)
                 | None => VNone
                 end);
     ("employee_count", of_opt_str (employee_count self));
     ("founding_year", of_opt_int (founding_year self));
     ("description", of_opt_str (description self));
     ("region", of_opt_str (region self));
     ("logo_url", of_opt_str (logo_url self));
     ("details_url", of_opt_str (details_url self))].

Definition to_dict (self : t) : record :=
  let result := asdict self in
  match address self with
  | Some a => <["address" := VDict (CompanyAddress.asdict a)]> result
  | None => result
  end.
End CompanySummary.

Module CompanyParser.
Import PyStr Utils.

Definition Gruendungsjahr : string :=
  "Gr" +:+ String "252"%char "ndungsjahr".

Section Parser.
Context {E : Type} `{!Soup E} `{!PyRuntime}.

Definition _extract_text (element : option E) : string :=
  match element with
  | Some e => normalize_whitespace (get_text "" true e)
  | None => ""
  end.

(** [el["href"].replace(scheme, "").strip()] when [el] exists and
    has an [href], the empty string otherwise. *)
Definition href_without (scheme : string) (el : option E) : string :=
  match el with
  | Some e =>
      match attr "href" e with
      | Some href => strip (remove_all scheme href)
      | None => ""
      end
  | None => ""
  end.

(** [el["href"].strip()] when [el] exists and has an [href]. *)
Definition href_stripped (el : option E) : string :=
  match el with
  | Some e =>
      match attr "href" e with
      | Some href => strip href
      | None => ""
      end
  | None => ""
  end.

(** Lines 74 to 78: the link of a card to its details page. *)
Definition details_link (card : E) : option E :=
  or_tag (select_one "a[data-test='company-link']" card)
    (or_tag (select_one "a[href*='/firmen/']" card) (find_tag "a" card)).

(** Lines 73 to 83: the identifier and the details URL of a card. *)
Definition card_identity (base_url : string) (card : E)
    : result (option string * option string) :=
  let company_id := or_ (attr "data-id" card) (attr "data-company-id" card) in
  match details_link card with
  | Some link =>
      match attr "href" link with
      | Some href =>
          joined ← urljoin base_url href;
          let details_url := Some joined in
          if negb (truthy_opt company_id) then
            if truthy_opt (attr "data-id" link)
            then Ok (attr "data-id" link, details_url)
            else
              tok ← index_last (split_on "-" (strip_char "/" href));
              Ok (Some tok, details_url)
          else Ok (company_id, details_url)
      | None => Ok (company_id, None)
      end
  | None => Ok (company_id, None)
  end.

(** The body of the [for card in cards] loop. *)
Definition card_summary (base_url : string) (card : E) : result record :=
  let name_el :=
    or_tag (select_one "[data-test='company-name']" card)
      (or_tag (select_one "h2" card) (select_one "h3" card)) in
  let name := _extract_text name_el in
  '(company_id, details_url) ← card_identity base_url card;
  let email := href_without "mailto:" (select_one "a[href^='mailto:']" card) in
  let phone_number := href_without "tel:" (select_one "a[href^='tel:']" card) in
  let homepage := href_stripped (select_one "a[href^='http']" card) in
  let address_el :=
    or_tag (select_one "[data-test='company-address']" card)
      (select_one ".address" card) in
  let address_full := _extract_text address_el in
  let address :=
    {| CompanyAddress.street := None;
       CompanyAddress.postal_code := None;
       CompanyAddress.city := None;
       CompanyAddress.country_code := None;
       CompanyAddress.full := Some address_full |} in
  let employee_el :=
    find_string (fun s => truthy s && contains "Mitarbeiter" s) card in
  let employee_count :=
    match employee_el with
    | Some (s, _) => if truthy s then Some (normalize_whitespace s) else None
    | None => None
    end in
  let description_el :=
    or_tag (select_one "[data-test='company-description']" card)
      (select_one ".description" card) in
  let description := _extract_text description_el in
  let logo_url :=
    match select_one "img" card with
    | Some logo_el => attr "src" logo_el
    | None => None
    end in
  let summary :=
    {| CompanySummary.company_id := company_id;
       CompanySummary.name := or_none name;
       CompanySummary.email := or_none email;
       CompanySummary.phone_number := or_none phone_number;
       CompanySummary.homepage := or_none homepage;
       CompanySummary.address := Some address;
       CompanySummary.employee_count := employee_count;
       CompanySummary.founding_year := None;
       CompanySummary.description := or_none description;
       CompanySummary.region := None;
       CompanySummary.logo_url := logo_url;
       CompanySummary.details_url := details_url |} in
  Ok (CompanySummary.to_dict summary).

Definition parse_company_list (html base_url : string) : result (list record) :=
  let soup := parse_html html in
  let cards :=
    select
      "[data-test='company-result-card'], article.company-item, div.company-card"
      soup in
  mapM (card_summary base_url) cards.

(** Lines 182 to 207: the address heuristics. *)
Definition address_breakdown (address_full : string) : result CompanyAddress.t :=
  '(street, postal_code, city, country_code) ←
    (if truthy address_full then
       let parts :=
         List.filter truthy (strip <$> split_on "," address_full) in
       street ←
         (if truthy_list parts then p ← index_at parts 0; Ok (Some p)
          else Ok None);
       '(postal_code, city) ←
         (if 2 <=? len parts then
            p ← index_at parts 1;
            let tokens := split_ws p in
            if truthy_list tokens then
              t ← index_at tokens 0;
              Ok (Some t, or_none (join " " (tail tokens)))
            else Ok (None, None)
          else Ok (None, None));
       country_code ←
         (if 3 <=? len parts then
            p ← index_last parts;
            t ← index_last (split_ws p);
            Ok (Some (upper t))
          else Ok None);
       Ok (street, postal_code, city, country_code)
     else Ok (None, None, None, None));
  Ok {| CompanyAddress.street := street;
        CompanyAddress.postal_code := postal_code;
        CompanyAddress.city := city;
        CompanyAddress.country_code := country_code;
        CompanyAddress.full := or_none address_full |}.

(** The [for token in text_block.split()] loop of the founding
    year. *)
Fixpoint first_year (tokens : list string) : result (option Z) :=
  match tokens with
  | [] => Ok None
  | token :: rest =>
      if isdigit token && (len_str token =? 4)
      then y ← int_of_digits token; Ok (Some y)
      else first_year rest
  end.

(** Lines 210 to 229: founding year and employee count. *)
Definition parse_facts (soup : E) : result (option string * option Z) :=
  let facts_section :=
    find_string
      (fun s => truthy s &&
                (contains Gruendungsjahr s || contains "Mitarbeiteranzahl" s))
      soup in
  match facts_section with
  | Some (s, parent) =>
      if truthy s then
        let text_block := normalize_whitespace (get_text " " false parent) in
        founding_year ←
          (if contains Gruendungsjahr text_block then
             match first_year (split_ws text_block) with
             | Ok y => Ok y
             | Raise ValueError => Ok None
             | Raise e => Raise e
             end
           else Ok None);
        let employee_count :=
          if contains "Mitarbeiter" text_block then
            let start := find "Mitarbeiter" text_block in
            Some (strip (slice_from start text_block))
          else None in
        Ok (employee_count, founding_year)
      else Ok (None, None)
  | None => Ok (None, None)
  end.

(** Lines 239 to 248: first and last name of a contact. *)
Definition split_name (full_name : string)
    : result (option string * option string) :=
  if truthy full_name then
    let tokens := split_ws full_name in
    if 2 <=? len tokens then
      t ← index_at tokens 0;
      Ok (Some t, Some (join " " (tail tokens)))
    else Ok (Some full_name, None)
  else Ok (None, None).

(** The body of the [for block in contact_blocks] loop. *)
Definition contact_of_block (block : E) : result CompanyContact.t :=
  let name_el := select_one "h3, h4, .name" block in
  let role_el := select_one ".role, .position" block in
  let mail_el := select_one "a[href^='mailto:']" block in
  let full_name := _extract_text name_el in
  '(first_name, last_name) ← split_name full_name;
  let email_contact :=
    match mail_el with
    | Some m =>
        match attr "href" m with
        | Some href => Some (strip (remove_all "mailto:" href))
        | None => None
        end
    | None => None
    end in
  Ok {| CompanyContact.first_name := first_name;
        CompanyContact.last_name := last_name;
        CompanyContact.email := email_contact;
        CompanyContact.role := or_none (_extract_text role_el) |}.

(** The texts of a list of tags, the empty ones skipped. *)
Definition texts_of (items : list E) : list string :=
  List.filter truthy ((fun item => _extract_text (Some item)) <$> items).

Definition parse_company_details (html : string) (company_id : value)
    : result value :=
  let soup := parse_html html in
  let name_el :=
    or_tag (select_one "[data-test='company-name']" soup)
      (or_tag (select_one "h1" soup) (select_one "h2" soup)) in
  let name := _extract_text name_el in
  let description_el :=
    or_tag (select_one "[data-test='company-description']" soup)
      (or_tag (select_one "section.description" soup)
         (select_one "p.lead" soup)) in
  let description := _extract_text description_el in
  let email := href_without "mailto:" (select_one "a[href^='mailto:']" soup) in
  let phone_number := href_without "tel:" (select_one "a[href^='tel:']" soup) in
  let homepage := href_stripped (select_one "a[href^='http']" soup) in
  let address_container :=
    or_tag (select_one "[data-test='company-address']" soup)
      (or_tag (select_one "address" soup) (select_one ".address" soup)) in
  let address_full := _extract_text address_container in
  address ← address_breakdown address_full;
  '(employee_count, founding_year) ← parse_facts soup;
  let contact_blocks :=
    select "[data-test='contact-person'], .contact-person" soup in
  contacts ← mapM contact_of_block contact_blocks;
  let certificates :=
    match find_string (fun s => truthy s && contains "Zertifizierungen" s) soup with
    | Some (s, container) =>
        if truthy s then texts_of (find_all "li" container) else []
    | None => []
    end in
  let products :=
    texts_of
      (select "[data-test='product-name'], .product-list li, section.products li"
         soup) in
  Ok (VDict (list_to_map
    [("company_id", company_id);
     ("name", of_opt_str (or_none name));
     ("email", of_opt_str (or_none email));
     ("phone_number", of_opt_str (or_none phone_number));
     ("homepage", of_opt_str (or_none homepage));
     ("address", VDict (CompanyAddress.asdict address));
     ("employee_count", of_opt_str employee_count);
     ("founding_year", of_opt_int founding_year);
     ("description", of_opt_str (or_none description));
     ("products", VList (VStr <$> products));
     ("contacts", VList ((fun c => VDict (CompanyContact.asdict c)) <$> contacts));
     ("certificates", VList (VStr <$> certificates))])).

End Parser.
End CompanyParser.

(** ** src/extractors/product_parser.py *)

Module ProductSummary.
Record t := {
  name : option string;
  company_name : option string;
  company_id : option string;
  product_url : option string;
  company_url : option string;
  region : option string;
  description : option string;
}.

Definition to_dict (self : t) : record :=
  list_to_map
    [("name", of_opt_str (name self));
     ("company_name", of_opt_str (company_name self));
     ("company_id", of_opt_str (company_id self));
     ("product_url", of_opt_str (product_url self));
     ("company_url", of_opt_str (company_url self));
     ("region", of_opt_str (region self));
     ("description", of_opt_str (description self))].
End ProductSummary.

Module ProductParser.
Import PyStr Utils.

Section Parser.
Context {E : Type} `{!Soup E} `{!PyRuntime}.

Definition _extract_text (element : option E) : string :=
  match element with
  | Some e => normalize_whitespace (get_text "" true e)
  | None => ""
  end.

(** The body of the [for card in cards] loop. *)
Definition card_summary (base_url : string) (card : E) : result record :=
  let product_name_el :=
    or_tag (select_one "[data-test='product-name']" card)
      (or_tag (select_one "h2" card) (select_one "h3" card)) in
  let product_name := _extract_text product_name_el in
  let product_link_el :=
    select_one "a[data-test='product-link'], a[href*='/produkte/']" card in
  product_url ←
    match product_link_el with
    | Some l =>
        match attr "href" l with
        | Some href => joined ← urljoin base_url href; Ok (Some joined)
        | None => Ok None
        end
    | None => Ok None
    end;
  let company_name_el :=
    or_tag (select_one "[data-test='company-name']" card)
      (select_one ".company-name" card) in
  let company_name := _extract_text company_name_el in
  let company_link_el :=
    or_tag (select_one "a[data-test='company-link']" card)
      (select_one "a[href*='/firmen/']" card) in
  '(company_url, company_id) ←
    match company_link_el with
    | Some l =>
        match attr "href" l with
        | Some href =>
            joined ← urljoin base_url href;
            let company_url := Some joined in
            if truthy_opt (attr "data-id" l)
            then Ok (company_url, attr "data-id" l)
            else
              tok ← index_last (split_on "-" (strip_char "/" href));
              Ok (company_url, Some tok)
        | None => Ok (None, None)
        end
    | None => Ok (None, None)
    end;
  let description_el :=
    or_tag (select_one "[data-test='product-description']" card)
      (select_one ".description" card) in
  let description := _extract_text description_el in
  let region_el := select_one "[data-test='company-region'], .region" card in
  let region := or_none (_extract_text region_el) in
  let product_summary :=
    {| ProductSummary.name := or_none product_name;
       ProductSummary.company_name := or_none company_name;
       ProductSummary.company_id := company_id;
       ProductSummary.product_url := product_url;
       ProductSummary.company_url := company_url;
       ProductSummary.region := region;
       ProductSummary.description := or_none description |} in
  Ok (ProductSummary.to_dict product_summary).

Definition parse_product_list (html base_url : string) : result (list record) :=
  let soup := parse_html html in
  let cards :=
    select
      "[data-test='product-result-card'], article.product-item, div.product-card"
      soup in
  mapM (card_summary base_url) cards.

End Parser.
End ProductParser.

(** ** src/outputs/json_exporter.py *)

Module JsonExporter.
Import PyStr.

(** A naive [datetime], as [datetime.utcnow()] returns it. *)
Record datetime := {
  year : Z;
  month : Z;
  day : Z;
  hour : Z;
  minute : Z;
  second : Z;
  microsecond : Z;
}.

(** [datetime.isoformat()]: the microseconds are printed when they
    are not zero. *)
Definition isoformat (d : datetime) : string :=
  zero_padded 4 (year d) +:+ "-" +:+ zero_padded 2 (month d) +:+ "-"
  +:+ zero_padded 2 (day d) +:+ "T" +:+ zero_padded 2 (hour d) +:+ ":"
  +:+ zero_padded 2 (minute d) +:+ ":" +:+ zero_padded 2 (second d)
  +:+ (if microsecond d =? 0 then ""
       else "." +:+ zero_padded 6 (microsecond d)).

(** The [payload] dictionary of [export_to_json], [utcnow] being the
    clock reading. *)
Definition payload (utcnow : datetime) (records : list value) : record :=
  let records_list := records in
  list_to_map
    [("meta", VDict (list_to_map
        [("exported_at", VStr (isoformat utcnow +:+ "Z"));
         ("record_count", VInt (len records_list))]));
     ("data", VList records_list)].

(** The file system maps a path to the JSON document stored there. *)
Definition export_to_json (utcnow : datetime) (records : list value)
    (path : string) (fs : gmap string value) : gmap string value :=
  <[path := VDict (payload utcnow records)]> fs.

(** One position of a timestamp pattern: a decimal digit or a given
    character. *)
Inductive pat :=
| Digit
| Char (c : ascii).

Fixpoint matches (p : list pat) (s : string) : bool :=
  match p, s with
  | [], "" => true
  | Digit :: p', String c s' => is_ascii_digit c && matches p' s'
  | Char a :: p', String c s' => Ascii.eqb a c && matches p' s'
  | _, _ => false
  end.

Definition date_time_pattern : list pat :=
  [Digit; Digit; Digit; Digit; Char "-"; Digit; Digit; Char "-"; Digit; Digit;
   Char "T"; Digit; Digit; Char ":"; Digit; Digit; Char ":"; Digit; Digit].

Definition fraction_pattern : list pat :=
  [Char "."; Digit; Digit; Digit; Digit; Digit; Digit].

(** [YYYY-MM-DDTHH:MM:SS] with an optional [.ffffff], then [Z]. *)
Definition is_iso8601_utc (s : string) : bool :=
  matches (date_time_pattern ++ [Char "Z"]) s
  || matches (date_time_pattern ++ fraction_pattern ++ [Char "Z"]) s.

Fixpoint endswith_char (c : ascii) (s : string) : bool :=
  match s with
  | "" => false
  | String a "" => Ascii.eqb a c
  | String _ s' => endswith_char c s'
  end.

End JsonExporter.

(** ** src/main.py *)

Module Main.
Import PyStr Utils.

(** [d.get(k)]. *)
Definition dict_get (d : record) (k : string) : value :=
  default VNone (d !! k).

(** [max_pages and max_pages > 0 and page >= max_pages]. *)
Definition limit_reached (max_pages page : Z) : bool :=
  negb (max_pages =? 0) && (max_pages >? 0) && (page >=? max_pages).

Section Crawl.
Context {W E : Type} `{!Transport W} `{!Soup E} `{!PyRuntime}.

(** The body of [for company in companies_on_page].  The
    [details_url] of a summary is [None] or a string; any other
    value stops the model with [TypeError]. *)
Definition attach_one (company : record) : M W record :=
  match dict_get company "details_url" with
  | VNone => mret company
  | VStr details_url =>
      if negb (truthy details_url) then mret company
      else
        details_html ← fetch_page details_url;
        if negb (truthy details_html) then mret company
        else
          details_data ←
            lift (CompanyParser.parse_company_details details_html
                    (dict_get company "company_id"));
          mret (<["details" := details_data]> company)
  | _ => lift (Raise TypeError)
  end.

Fixpoint attach_details (companies : list record) : M W (list record) :=
  match companies with
  | [] => mret []
  | company :: rest =>
      company' ← attach_one company;
      rest' ← attach_details rest;
      mret (company' :: rest')
  end.

Section Args.
Variables (base_url query region language : string) (max_pages : Z).

(** The [while True] loop of [scrape_company_mode]. *)
Fixpoint scrape_company_loop (include_details : bool) (fuel : nat)
    (page : Z) (all_companies : list record) : M W (list record) :=
  match fuel with
  | O => diverge
  | S fuel' =>
      search_url ←
        lift (build_search_url base_url query "company" region language page);
      html_text ← fetch_page search_url;
      if negb (truthy html_text) then mret all_companies
      else
        companies_on_page ←
          lift (CompanyParser.parse_company_list html_text base_url);
        if negb (truthy_list companies_on_page) then mret all_companies
        else
          companies_on_page ←
            (if include_details then attach_details companies_on_page
             else mret companies_on_page);
          let all_companies := all_companies ++ companies_on_page in
          if limit_reached max_pages page then mret all_companies
          else scrape_company_loop include_details fuel' (page + 1)
                 all_companies
  end.

Definition scrape_company_mode (include_details : bool) (fuel : nat)
    : M W (list record) :=
  scrape_company_loop include_details fuel 1 [].

(** The [while True] loop of [scrape_product_mode]. *)
Fixpoint scrape_product_loop (fuel : nat) (page : Z)
    (all_products : list record) : M W (list record) :=
  match fuel with
  | O => diverge
  | S fuel' =>
      search_url ←
        lift (build_search_url base_url query "product" region language page);
      html_text ← fetch_page search_url;
      if negb (truthy html_text) then mret all_products
      else
        products_on_page ←
          lift (ProductParser.parse_product_list html_text base_url);
        if negb (truthy_list products_on_page) then mret all_products
        else
          let all_products := all_products ++ products_on_page in
          if limit_reached max_pages page then mret all_products
          else scrape_product_loop fuel' (page + 1) all_products
  end.

Definition scrape_product_mode (fuel : nat) : M W (list record) :=
  scrape_product_loop fuel 1 [].

End Args.
End Crawl.
End Main.

(** ** Specifications the claims are compared with *)

Module Spec.
Import PyStr Utils.

(** The delays slept before the retries [0 .. k-1]. *)
Definition delays (cfg : RetryConfig) (k : nat) : list Q :=
  (fun i : nat => (backoff_factor cfg * inject_Z (2 ^ Z.of_nat i))%Q) <$> seq 0 k.

(** The delays slept before the retries [a .. a+k-1]. *)
Definition delays_from (cfg : RetryConfig) (a k : nat) : list Q :=
  (fun i : nat => (backoff_factor cfg * inject_Z (2 ^ Z.of_nat i))%Q) <$> seq a k.

Definition total_delay (ds : list Q) : Q := foldr Qplus 0%Q ds.

Section Sleeps.
Context {W : Type} `{!Transport W}.

(** The delay before the retry that follows attempt [attempt], and
    the sleep. *)
Definition retry_sleep (cfg : RetryConfig) (attempt : Z) : result unit :=
  delay ← backoff_delay cfg attempt; time_sleep (W := W) delay.

(** The delay after attempt [i] is computed and slept. *)
Definition sleeps (cfg : RetryConfig) (i : nat) : Prop :=
  retry_sleep cfg (Z.of_nat i) = Ok tt.
End Sleeps.

Section Attempts.
Context {W : Type} `{!Transport W}.
Variables (url : string) (params : option (list (string * value))) (tmo : Q).

(** The world after [n] requests to [url]. *)
Fixpoint world_after (n : nat) (w : W) : W :=
  match n with
  | O => w
  | S k => world_after k (session_get url params tmo w).2
  end.

(** What attempt [n] (counted from 0) of a fetch that starts in
    world [w] yields: the body, or the exception that makes the
    attempt fail. *)
Definition attempt (n : nat) (w : W) : result string :=
  response_text (session_get url params tmo (world_after n w)).1.

Definition fails (n : nat) (w : W) : Prop :=
  exists e, attempt n w = Raise e.

(** The state a fetch leaves after [n] attempts. *)
Definition after_attempts (cfg : RetryConfig) (n : nat) (s : Env W) : Env W :=
  {| world := world_after n (world s);
     requested := requested s ++ replicate n url;
     slept := slept s ++ delays cfg (Nat.pred n) |}.

(** The same for a loop entered at attempt [a]: the delays are
    those of the retries [a .. a+n-2]. *)
Definition after_from (cfg : RetryConfig) (a n : nat) (s : Env W) : Env W :=
  {| world := world_after n (world s);
     requested := requested s ++ replicate n url;
     slept := slept s ++ delays_from cfg a (Nat.pred n) |}.
End Attempts.

Section Crawl.
Context {W : Type} `{!Transport W}.
Variables (url_of : Z -> result string)
          (extract : string -> result (list record))
          (post : list record -> M W (list record))
          (max_pages : Z).

(** The crawl as the specification words it: pages are visited
    from [page] on; the run ends at the first page whose fetch is
    empty (a), whose extraction is empty (b), or that reaches a
    positive [max_pages] (c); the records are those of the visited
    pages, in page order. *)
Inductive crawl : Z -> Env W -> list record -> Env W -> Prop :=
| crawl_fetch_empty page url s s' :
    url_of page = Ok url ->
    fetch_page url s = Ret "" s' ->
    crawl page s [] s'
| crawl_no_records page url s html s' :
    url_of page = Ok url ->
    fetch_page url s = Ret html s' ->
    html <> "" ->
    extract html = Ok [] ->
    crawl page s [] s'
| crawl_limit page url s html s1 rs rs' s' :
    url_of page = Ok url ->
    fetch_page url s = Ret html s1 ->
    html <> "" ->
    extract html = Ok rs ->
    rs <> [] ->
    post rs s1 = Ret rs' s' ->
    0 < max_pages ->
    max_pages <= page ->
    crawl page s rs' s'
| crawl_next page url s html s1 rs rs' s2 rest s' :
    url_of page = Ok url ->
    fetch_page url s = Ret html s1 ->
    html <> "" ->
    extract html = Ok rs ->
    rs <> [] ->
    post rs s1 = Ret rs' s2 ->
    ~ (0 < max_pages /\ max_pages <= page) ->
    crawl (page + 1) s2 rest s' ->
    crawl page s (rs' ++ rest) s'.

(** A page a crawl takes records from: its number, its text, the
    records extracted from it and the records kept of it after the
    pass over them. *)
Record visit := {
  page_no : Z;
  page_html : string;
  extracted : list record;
  kept : list record;
}.

(** The pages a crawl from [page] on takes records from, in the
    order of the run: each page is fetched in the state the page
    before it has left. *)
Inductive visits : Z -> Env W -> list visit -> Env W -> Prop :=
| visits_fetch_empty page url s s' :
    url_of page = Ok url ->
    fetch_page url s = Ret "" s' ->
    visits page s [] s'
| visits_no_records page url s html s' :
    url_of page = Ok url ->
    fetch_page url s = Ret html s' ->
    html <> "" ->
    extract html = Ok [] ->
    visits page s [] s'
| visits_limit page url s html s1 rs rs' s' :
    url_of page = Ok url ->
    fetch_page url s = Ret html s1 ->
    html <> "" ->
    extract html = Ok rs ->
    rs <> [] ->
    post rs s1 = Ret rs' s' ->
    0 < max_pages ->
    max_pages <= page ->
    visits page s
      [{| page_no := page; page_html := html; extracted := rs; kept := rs' |}] s'
| visits_next page url s html s1 rs rs' s2 rest s' :
    url_of page = Ok url ->
    fetch_page url s = Ret html s1 ->
    html <> "" ->
    extract html = Ok rs ->
    rs <> [] ->
    post rs s1 = Ret rs' s2 ->
    ~ (0 < max_pages /\ max_pages <= page) ->
    visits (page + 1) s2 rest s' ->
    visits page s
      ({| page_no := page; page_html := html; extracted := rs; kept := rs' |}
         :: rest) s'.

(** The loop both modes of [main.py] instantiate. *)
Fixpoint crawl_loop (fuel : nat) (page : Z) (acc : list record)
    : M W (list record) :=
  match fuel with
  | O => diverge
  | S fuel' =>
      url ← lift (url_of page);
      html ← fetch_page url;
      if negb (truthy html) then mret acc
      else
        rs ← lift (extract html);
        if negb (truthy_list rs) then mret acc
        else
          rs' ← post rs;
          if Main.limit_reached max_pages page then mret (acc ++ rs')
          else crawl_loop fuel' (page + 1) (acc ++ rs')
  end.

End Crawl.

Section Modes.
Context {W E : Type} `{!Transport W} `{!Soup E} `{!PyRuntime}.
Variables (base_url query region language : string).

(** The search URL of a page, the extraction and the pass over
    the records of a page, for each mode. *)
Definition company_url (page : Z) : result string :=
  build_search_url base_url query "company" region language page.
Definition product_url (page : Z) : result string :=
  build_search_url base_url query "product" region language page.
Definition company_extract (html : string) : result (list record) :=
  CompanyParser.parse_company_list html base_url.
Definition product_extract (html : string) : result (list record) :=
  ProductParser.parse_product_list html base_url.
Definition company_post (include_details : bool)
    : list record -> M W (list record) :=
  if include_details then Main.attach_details else mret.
End Modes.

(** What every summary of [parse_company_list] looks like: no
    ["details"] key, and a ["details_url"] that is [None] or a
    string. *)
Definition summary_shape (r : record) : Prop :=
  r !! "details" = None /\
  exists u, r !! "details_url" = Some (of_opt_str u).

Section Details.
Context {W E : Type} `{!Transport W} `{!Soup E} `{!PyRuntime}.

(** The detail fetch of one summary as the specification words
    it: without a details URL the summary is kept and nothing is
    fetched; an empty fetch keeps the summary as it is; a
    non-empty fetch attaches the parsed page under ["details"]. *)
Inductive detail_step (c : record) (s : Env W) : record -> Env W -> Prop :=
| detail_no_url :
    Main.dict_get c "details_url" = VNone \/
    Main.dict_get c "details_url" = VStr "" ->
    detail_step c s c s
| detail_fetch_empty url s' :
    Main.dict_get c "details_url" = VStr url ->
    url <> "" ->
    fetch_page url s = Ret "" s' ->
    detail_step c s c s'
| detail_attached url html d s' :
    Main.dict_get c "details_url" = VStr url ->
    url <> "" ->
    fetch_page url s = Ret html s' ->
    html <> "" ->
    CompanyParser.parse_company_details html (Main.dict_get c "company_id")
      = Ok d ->
    detail_step c s (<["details" := d]> c) s'.

(** The detail fetches of a page, summary after summary. *)
Inductive detail_pass : list record -> Env W -> list record -> Env W -> Prop :=
| detail_pass_nil s : detail_pass [] s [] s
| detail_pass_cons c cs s c' s1 cs' s' :
    detail_step c s c' s1 ->
    detail_pass cs s1 cs' s' ->
    detail_pass (c :: cs) s (c' :: cs') s'.
End Details.

(** The records of two lists agree, position by position, on every
    key but ["details"]. *)
Definition same_but_details (before after : list record) : Prop :=
  Forall2 (fun c c' : record => forall k, k <> "details" -> c' !! k = c !! k)
    before after.

(** The address heuristics read word by word from the
    specification: the comma-separated pieces, trimmed, are the
    parts, whether empty or not. *)
Definition address_as_worded `{!PyRuntime} (address_full : string)
    : CompanyAddress.t :=
  let parts := strip <$> split_on "," address_full in
  let tokens := default [] (split_ws <$> parts !! 1%nat) in
  {| CompanyAddress.street := parts !! 0%nat;
     CompanyAddress.postal_code := head tokens;
     CompanyAddress.city := or_none (join " " (tail tokens));
     CompanyAddress.country_code :=
       if 3 <=? len parts
       then upper <$> (last parts ≫= fun p => last (split_ws p))
       else None;
     CompanyAddress.full := Some address_full |}.

(** The first candidate that is present with a non-empty value. *)
Definition first_present (candidates : list (option string)) : option string :=
  head (omap (fun c : option string => c ≫= or_none) candidates).

(** The identifier of a card by priority: a data attribute of the
    card, then the data attribute of its details link, then the
    last dash-delimited token of the link target with the slashes
    at both ends trimmed.  [None] when the card has neither an
    attribute nor a link with a target. *)
Definition company_id_by_priority {E} `{!Soup E} (card : E) : option string :=
  match first_present [attr "data-id" card; attr "data-company-id" card] with
  | Some v => Some v
  | None =>
      link ← CompanyParser.details_link card;
      href ← attr "href" link;
      match first_present [attr "data-id" link] with
      | Some v => Some v
      | None => last (split_on "-" (strip_char "/" href))
      end
  end.

(** The details URL of a card: the target of its details link
    joined with the base URL, none without a link with a target. *)
Definition details_url_of {E} `{!Soup E} `{!PyRuntime}
    (base_url : string) (card : E) : result (option string) :=
  match CompanyParser.details_link card ≫= attr "href" with
  | Some href => joined ← urljoin base_url href; Ok (Some joined)
  | None => Ok None
  end.

(** The parts the code works with: the trimmed pieces that are not
    empty. *)
Definition address_parts (address_full : string) : list string :=
  List.filter truthy (strip <$> split_on "," address_full).





(** What [datetime.utcnow()] can return: a date of the proleptic
    Gregorian calendar in the years 1 to 9999 and a time of day. *)
Definition leap_year (y : Z) : bool :=
  (y mod 4 =? 0) && (negb (y mod 100 =? 0) || (y mod 400 =? 0)).

Definition days_in_month (y m : Z) : Z :=
  if m =? 2 then (if leap_year y then 29 else 28)
  else if (m =? 4) || (m =? 6) || (m =? 9) || (m =? 11) then 30
  else 31.

Definition valid_datetime (d : JsonExporter.datetime) : bool :=
  (1 <=? JsonExporter.year d) && (JsonExporter.year d <=? 9999)
  && (1 <=? JsonExporter.month d) && (JsonExporter.month d <=? 12)
  && (1 <=? JsonExporter.day d)
  && (JsonExporter.day d
      <=? days_in_month (JsonExporter.year d) (JsonExporter.month d))
  && (0 <=? JsonExporter.hour d) && (JsonExporter.hour d <? 24)
  && (0 <=? JsonExporter.minute d) && (JsonExporter.minute d <? 60)
  && (0 <=? JsonExporter.second d) && (JsonExporter.second d <? 60)
  && (0 <=? JsonExporter.microsecond d)
  && (JsonExporter.microsecond d <? 1000000).

(** Reading [k] decimal digits, and one given character. *)
Fixpoint take_digits (k : nat) (acc : Z) (s : string) : option (Z * string) :=
  match k with
  | O => Some (acc, s)
  | S k' =>
      match s with
      | String c s' =>
          if is_ascii_digit c
          then take_digits k' (10 * acc + (Z.of_N (N_of_ascii c) - 48)) s'
          else None
      | "" => None
      end
  end.

Definition take_char (c : ascii) (s : string) : option string :=
  match s with
  | String a s' => if Ascii.eqb a c then Some s' else None
  | "" => None
  end.

(** The date and time that an ISO-8601 timestamp in UTC denotes:
    [YYYY-MM-DDTHH:MM:SS], an optional fraction of six digits and
    [Z]; none when the text has another form or the fields are not
    a date and a time of day. *)
Definition read_utc_timestamp (stamp : string) : option JsonExporter.datetime :=
  '(y, s) ← take_digits 4 0 stamp;
  s ← take_char "-" s;
  '(mo, s) ← take_digits 2 0 s;
  s ← take_char "-" s;
  '(d, s) ← take_digits 2 0 s;
  s ← take_char "T" s;
  '(h, s) ← take_digits 2 0 s;
  s ← take_char ":" s;
  '(mi, s) ← take_digits 2 0 s;
  s ← take_char ":" s;
  '(se, s) ← take_digits 2 0 s;
  '(us, s) ←
    match take_char "." s with
    | Some s' => take_digits 6 0 s'
    | None => Some (0, s)
    end;
  s ← take_char "Z" s;
  let reading :=
    {| JsonExporter.year := y; JsonExporter.month := mo; JsonExporter.day := d;
       JsonExporter.hour := h; JsonExporter.minute := mi;
       JsonExporter.second := se; JsonExporter.microsecond := us |} in
  if negb (truthy s) && valid_datetime reading then Some reading else None.

End Spec.

(** ** Test doubles of the external libraries, for the examples *)

Module Fake.
Import PyStr.

(** A tag that carries its own answers: its attributes, its strings
    in document order, what each selector or tag name selects below
    it, and the strings below it with the tag that contains each. *)
Inductive tag :=
| Tag (attrs : list (string * string))
      (strings : list string)
      (selected : list (string * list tag))
      (string_parents : list (string * tag)).

Definition lookup_assoc {A} (k : string) (l : list (string * A)) : option A :=
  snd <$> List.find (fun kv => String.eqb kv.1 k) l.

Definition tag_select (sel : string) (e : tag) : list tag :=
  match e with
  | Tag _ _ selected _ => default [] (lookup_assoc sel selected)
  end.

Definition tag_attr (k : string) (e : tag) : option string :=
  match e with
  | Tag attrs _ _ _ => lookup_assoc k attrs
  end.

Definition tag_text (sep : string) (stripped : bool) (e : tag) : string :=
  match e with
  | Tag _ strings _ _ =>
      join sep (if stripped then List.filter truthy (strip <$> strings)
                else strings)
  end.

Definition tag_find_string (p : string -> bool) (e : tag) : option (string * tag) :=
  match e with
  | Tag _ _ _ sp => List.find (fun st => p st.1) sp
  end.

Definition empty_tag : tag := Tag [] [] [] [].

(** The documents the examples fetch, by their text. *)
Definition soup_of (docs : list (string * tag)) : Soup tag :=
  {| parse_html html := default empty_tag (lookup_assoc html docs);
     select := tag_select;
     select_one sel e := head (tag_select sel e);
     find_tag name e := head (tag_select name e);
     find_all := tag_select;
     find_string := tag_find_string;
     attr := tag_attr;
     get_text := tag_text |}.

Definition upper_char (c : ascii) : ascii :=
  let n := N_of_ascii c in
  if ((97 <=? n) && (n <=? 122))%N then ascii_of_N (n - 32) else c.

Fixpoint map_str (f : ascii -> ascii) (s : string) : string :=
  match s with
  | "" => ""
  | String c s' => String (f c) (map_str f s')
  end.

Definition hex_digit (n : N) : ascii :=
  if (n <? 10)%N then ascii_of_N (48 + n) else ascii_of_N (55 + n).

Definition percent (n : N) : string :=
  String "%" (String (hex_digit (n / 16)) (String (hex_digit (n mod 16)) "")).

(** [quote_plus] of one character below 256, through its UTF-8
    bytes. *)
Definition quote_char (c : ascii) : string :=
  let n := N_of_ascii c in
  if ((48 <=? n) && (n <=? 57) || (65 <=? n) && (n <=? 90)
      || (97 <=? n) && (n <=? 122)
      || (n =? 95) || (n =? 46) || (n =? 45) || (n =? 126))%N
  then String c ""
  else if (n =? 32)%N then "+"
  else if (n <? 128)%N then percent n
  else percent (192 + n / 64) +:+ percent (128 + n mod 64).

Fixpoint quote_plus (s : string) : string :=
  match s with
  | "" => ""
  | String c s' => quote_char c +:+ quote_plus s'
  end.

Fixpoint decimal (fuel : nat) (n : Z) : string :=
  match fuel with
  | O => ""
  | S fuel' =>
      let d := String (ascii_of_N (Z.to_N (48 + n mod 10))) "" in
      if n <? 10 then d else decimal fuel' (n / 10) +:+ d
  end.

(** [str(n)]. *)
Definition str_of_int (n : Z) : string :=
  if n <? 0 then "-" +:+ decimal (Z.to_nat (- n)) (- n)
  else decimal (S (Z.to_nat n)) n.

Definition param_text (v : value) : string :=
  match v with
  | VStr s => quote_plus s
  | VInt n => str_of_int n
  | _ => ""
  end.

(** The first [n] occurrences of ["/"] and what lies between them:
    the scheme and the host of an absolute URL for [n = 3]. *)
Fixpoint origin (n : nat) (s : string) : string :=
  match s with
  | "" => ""
  | String c s' =>
      if Ascii.eqb c "/" then
        match n with
        | O => ""
        | S n' => String c (origin n' s')
        end
      else String c (origin n s')
  end.

(** A bracket without its counterpart. *)
Definition unbalanced (s : string) : bool :=
  xorb (contains "[" s) (contains "]" s).

(** A runtime that agrees with Python on ASCII text, on absolute
    references and on references that start with a slash; a base or
    a reference with an unbalanced bracket raises. *)
Definition runtime : PyRuntime :=
  {| urljoin base url :=
       if unbalanced base || unbalanced url then Raise ValueError
       else Ok (if contains "://" url then url else origin 2 base +:+ url);
     urlencode params :=
       join "&" ((fun kv : string * value => quote_plus kv.1 +:+ "=" +:+ param_text kv.2)
                   <$> params);
     upper := map_str upper_char |}.

(** A transport that plays a script: each request consumes the
    next outcome, and fails once the script is over.  A delay of
    more than a day is refused. *)
Definition scripted : Transport (list (result Response)) :=
  {| session_get _ _ _ script :=
       match script with
       | [] => (Raise (RequestException "connection refused"), [])
       | r :: rest => (r, rest)
       end;
     sleep_long _ := Raise OverflowError |}.

(** A transport over a fixed site: a URL of the table answers with
    status 200 and its body, any other URL with status 404. *)
Definition site : Transport (list (string * string)) :=
  {| session_get url _ _ pages :=
       (match lookup_assoc url pages with
        | Some body => Ok {| status_code := 200; text := body |}
        | None => Ok {| status_code := 404; text := "" |}
        end, pages);
     sleep_long _ := Raise OverflowError |}.

End Fake.


(** ** Example pages *)

Module Examples.
Import PyStr Utils Fake.

#[local] Existing Instance runtime.

Definition base : string := "https://www.wlw.de".

(** A card without data attributes whose link leads to
    [/firmen/acme-gmbh-4711]. *)
Definition acme_link : tag :=
  Tag [("href", "/firmen/acme-gmbh-4711")] ["ACME GmbH"] [] [].

Definition acme_card : tag :=
  Tag [] ["ACME GmbH"]
    [("h2", [Tag [] ["ACME GmbH"] [] []]);
     ("a[href*='/firmen/']", [acme_link]);
     ("a", [acme_link])]
    [].

(** A card that carries its identifier and an address, and whose
    details page does not exist. *)
Definition bolt_link : tag :=
  Tag [("href", "/firmen/bolt-ag"); ("data-id", "17")] ["Bolt AG"] [] [].

Definition bolt_card : tag :=
  Tag [("data-id", "b-17")] ["Bolt AG"; "Werkstr. 5, 80331 Muenchen"]
    [("h2", [Tag [] ["Bolt AG"] [] []]);
     ("a[data-test='company-link']", [bolt_link]);
     (".address", [Tag [] ["Werkstr. 5, 80331 Muenchen"] [] []])]
    [].

Definition product_card : tag :=
  Tag [] ["Aufzug X"]
    [("h2", [Tag [] ["Aufzug X"] [] []]);
     ("a[href*='/firmen/']", [acme_link])]
    [].

Definition jane_block : tag :=
  Tag [] []
    [("h3, h4, .name", [Tag [] ["  Jane   Doe Smith "] [] []]);
     (".role, .position", [Tag [] ["Sales"] [] []])]
    [].

Definition cher_block : tag :=
  Tag [] [] [("h3, h4, .name", [Tag [] ["Cher"] [] []])] [].

Definition results_page : tag :=
  Tag [] []
    [("[data-test='company-result-card'], article.company-item, div.company-card",
      [acme_card; bolt_card]);
     ("[data-test='product-result-card'], article.product-item, div.product-card",
      [product_card])]
    [].

Definition acme_details_page : tag :=
  Tag [] []
    [("h1", [Tag [] ["ACME GmbH"] [] []]);
     ("address", [Tag [] ["Hauptstr. 1, 12345 Berlin, Germany"] [] []]);
     ("[data-test='contact-person'], .contact-person", [jane_block; cher_block])]
    [].

(** A results page whose only card has a link target that
    [urljoin] cannot split. *)
Definition broken_page : tag :=
  Tag [] []
    [("[data-test='company-result-card'], article.company-item, div.company-card",
      [Tag [] ["ACME GmbH"]
         [("h2", [Tag [] ["ACME GmbH"] [] []]);
          ("a", [Tag [("href", "//[")] ["ACME GmbH"] [] []])]
         []])]
    [].

(** The documents by their text; any other text parses to a page
    on which no selector matches. *)
Definition docs : list (string * tag) :=
  [("<html>results</html>", results_page);
   ("<html>ACME GmbH</html>", acme_details_page);
   ("<html>broken</html>", broken_page)].

Definition soup : Soup tag := soup_of docs.

(** The site: page 1 of either search lists the cards, page 2 is a
    page without cards, the details page of ACME exists and the one
    of Bolt does not. *)
Definition pages : list (string * string) :=
  [("https://www.wlw.de/de/firmen/?q=Aufzug&page=1&country=DE",
    "<html>results</html>");
   ("https://www.wlw.de/de/firmen/?q=Aufzug&page=2&country=DE",
    "<html>nothing found</html>");
   ("https://www.wlw.de/de/produkte/?q=Aufzug&page=1&country=DE",
    "<html>results</html>");
   ("https://www.wlw.de/de/produkte/?q=Aufzug&page=2&country=DE",
    "<html>nothing found</html>");
   ("https://www.wlw.de/firmen/acme-gmbh-4711", "<html>ACME GmbH</html>")].

Definition start : Env (list (string * string)) :=
  {| world := pages; requested := []; slept := [] |}.

(** A configuration with a negative backoff factor. *)
Definition negative_backoff : RetryConfig :=
  {| retries := 3; backoff_factor := - (1 # 2); timeout := 20 |}.

(** A transport script: a connection error, a server error, then
    the page. *)
Definition flaky : list (result Response) :=
  [Raise (RequestException "timed out");
   Ok {| status_code := 503; text := "unavailable" |};
   Ok {| status_code := 200; text := "<html>results</html>" |}].

Definition flaky_start : Env (list (result Response)) :=
  {| world := flaky; requested := []; slept := [] |}.

#[local] Existing Instances soup site.


(** What the extractors return for the results page. *)
Definition company_records : list record :=
  match CompanyParser.parse_company_list "<html>results</html>" base with
  | Ok rs => rs
  | Raise _ => []
  end.


(** The summaries of the results page after the detail pass. *)
Definition company_records_detailed : list record :=
  match Main.attach_details company_records start with
  | Ret rs _ => rs
  | _ => []
  end.

(** A company crawl with details and without a page limit. *)
Definition company_crawl : run (list (string * string)) (list record) :=
  Main.scrape_company_mode base "Aufzug" "DE" "de" 0 true 3 start.

Definition company_crawl_output : list record :=
  match company_crawl with
  | Ret out _ => out
  | _ => []
  end.

Definition company_crawl_end : Env (list (string * string)) :=
  match company_crawl with
  | Ret _ s => s
  | _ => start
  end.

(** Cards whose only link has a target that ends with a slash,
    that carries a query string, and that [urljoin] cannot split. *)
Definition card_with_link (href : string) : tag :=
  Tag [] ["ACME GmbH"]
    [("h2", [Tag [] ["ACME GmbH"] [] []]);
     ("a", [Tag [("href", href)] ["ACME GmbH"] [] []])]
    [].

Definition broken_card : tag := card_with_link "//[".

(** The record of a card. *)
Definition summary_of (card : tag) : record :=
  match CompanyParser.card_summary base card with
  | Ok r => r
  | Raise _ => ∅
  end.

Definition noon : JsonExporter.datetime :=
  {| JsonExporter.year := 2024; JsonExporter.month := 3; JsonExporter.day := 9;
     JsonExporter.hour := 12; JsonExporter.minute := 0; JsonExporter.second := 5;
     JsonExporter.microsecond := 250 |}.

End Examples.

(** ** The rest of src/extractors/utils.py: the logger *)

Module Logging.

(** The module variable [_LOGGER_INITIALIZED], and how often
    [logging.basicConfig] has been called. *)
Record state := {
  initialized : bool;
  configured : nat;
}.

Definition fresh : state := {| initialized := false; configured := 0 |}.

Definition _init_logging (s : state) : state :=
  if initialized s then s
  else {| initialized := true; configured := S (configured s) |}.

(** [get_logger(name)]: the logger is identified by its name. *)
Definition get_logger (name : string) (s : state) : string * state :=
  (name, _init_logging s).

(** The state after the calls [get_logger(n)] for the names [n] of a
    list, in order. *)
Definition after_calls (names : list string) (s : state) : state :=
  foldl (fun st name => (get_logger name st).2) s names.

End Logging.

(** ** The rest of src/main.py: settings and command line *)

Module Config.
Import PyStr.

(** What [json.load] returns; [JNonFinite] stands for the floats
    [NaN], [Infinity] and [-Infinity], which it accepts. *)
Inductive json :=
| JNull
| JBool (b : bool)
| JInt (n : Z)
| JFloat (q : Q)
| JNonFinite
| JStr (s : string)
| JList (l : list json)
| JDict (d : gmap string json).

(** Truth value of a JSON value. *)
Definition truthy_json (v : json) : bool :=
  match v with
  | JNull => false
  | JBool b => b
  | JInt n => negb (n =? 0)
  | JFloat q => negb (Qeq_bool q 0)
  | JNonFinite => true
  | JStr s => truthy s
  | JList l => truthy_list l
  | JDict d => truthy_list (map_to_list d)
  end.

(** The [argparse.Namespace] of [parse_args]. *)
Record Namespace := {
  query : option string;
  mode : option string;
  region : option string;
  language : option string;
  max_pages : option Z;
  no_details : bool;
  config : string;
  output : option string;
  input : string;
}.

(** A function returns, or ends the process through [sys.exit]. *)
Inductive outcome (A : Type) :=
| Returns (a : A)
| Exits (code : Z).
Arguments Returns {A} a.
Arguments Exits {A} code.

(** The defaults of [load_settings]. *)
Definition builtin_defaults : gmap string json :=
  list_to_map
    [("base_url", JStr "https://www.wlw.de");
     ("language", JStr "de");
     ("region", JStr "DE");
     ("mode", JStr "company");
     ("max_pages", JInt 1);
     ("include_company_details", JBool true);
     ("output_dir", JStr "data");
     ("output_filename", JStr "sample_output.json")].

(** [load_settings(config_path)]: [file] is [None] when the path does
    not exist, and otherwise what [load_json_file] returns or
    raises. *)
Definition load_settings (file : option (result json)) : result json :=
  match file with
  | None => Ok (JDict builtin_defaults)
  | Some loaded => loaded
  end.

(** [effective[key] = v] when the command line gives a non-empty
    [v]. *)
Definition override (key : string) (v : option string)
    (effective : gmap string json) : gmap string json :=
  match v with
  | Some s => if truthy s then <[key := JStr s]> effective else effective
  | None => effective
  end.

(** Lines 104 to 115 of [resolve_effective_config]: the settings
    updated with the input file.  [input_file] is [None] when
    [args.input] does not exist, and otherwise what [load_json_file]
    returns or raises for it. *)
Definition with_input_file (base_settings : gmap string json)
    (input_file : option (result json)) : gmap string json :=
  let effective := base_settings in
  match input_file with
  | Some (Ok (JDict input_data)) => input_data ∪ effective
  | _ => effective
  end.

(** Lines 117 to 129: the overrides of the command line. *)
Definition cli_overrides (args : Namespace) (effective : gmap string json)
    : gmap string json :=
  let effective := override "mode" (mode args) effective in
  let effective := override "region" (region args) effective in
  let effective := override "language" (language args) effective in
  let effective :=
    match max_pages args with
    | Some n => <["max_pages" := JInt n]> effective
    | None => effective
    end in
  let effective :=
    if no_details args then <["include_company_details" := JBool false]> effective
    else effective in
  override "output_filename" (output args) effective.

(** [resolve_effective_config(base_settings, args)]. *)
Definition resolve_effective_config (base_settings : gmap string json)
    (input_file : option (result json)) (args : Namespace)
    : outcome (gmap string json) :=
  let effective := with_input_file base_settings input_file in
  let effective := cli_overrides args effective in
  let query :=
    match query args with
    | Some q => if truthy q then Some (JStr q) else effective !! "query"
    | None => effective !! "query"
    end in
  match query with
  | Some q =>
      if truthy_json q then Returns (<["query" := q]> effective) else Exits 1
  | None => Exits 1
  end.

(** What the command line says about a key: a text option counts
    when it is given and not empty, [--max-pages] when it is given,
    [--no-details] when it is set. *)
Definition given (v : option string) : option json :=
  s ← v; if truthy s then Some (JStr s) else None.

Definition from_command_line (args : Namespace) (key : string) : option json :=
  if String.eqb key "mode" then given (mode args)
  else if String.eqb key "region" then given (region args)
  else if String.eqb key "language" then given (language args)
  else if String.eqb key "max_pages" then JInt <$> max_pages args
  else if String.eqb key "include_company_details" then
    (if no_details args then Some (JBool false) else None)
  else if String.eqb key "output_filename" then given (output args)
  else if String.eqb key "query" then given (query args)
  else None.

(** What the two files say about a key: the input file overrides the
    settings. *)
Definition from_files (base_settings : gmap string json)
    (input_file : option (result json)) (key : string) : option json :=
  match input_file with
  | Some (Ok (JDict input_data)) =>
      match input_data !! key with
      | Some v => Some v
      | None => base_settings !! key
      end
  | _ => base_settings !! key
  end.

(** The value of a key by precedence: command line, then input
    file, then settings. *)
Definition by_precedence (base_settings : gmap string json)
    (input_file : option (result json)) (args : Namespace) (key : string)
    : option json :=
  match from_command_line args key with
  | Some v => Some v
  | None => from_files base_settings input_file key
  end.

End Config.

(** ** Predicates of the further properties *)

Module Props.
Import PyStr.

(** No whitespace at either end, and every whitespace character is a
    single space between two other characters. *)
Fixpoint well_spaced_from (s : string) : bool :=
  match s with
  | "" => true
  | String c s' =>
      (if isspace c then Ascii.eqb c " " && negb (at_boundary s') else true)
      && well_spaced_from s'
  end.

Definition well_spaced (s : string) : bool :=
  negb (at_boundary s && truthy s) && well_spaced_from s.

(** The keys of a company summary, of a details dictionary and of a
    product summary. *)
Definition summary_keys : gset string :=
  list_to_set
    ["company_id"; "name"; "email"; "phone_number"; "homepage"; "address";
     "employee_count"; "founding_year"; "description"; "region"; "logo_url";
     "details_url"].

Definition details_keys : gset string :=
  list_to_set
    ["company_id"; "name"; "email"; "phone_number"; "homepage"; "address";
     "employee_count"; "founding_year"; "description"; "products"; "contacts";
     "certificates"].

Definition product_keys : gset string :=
  list_to_set
    ["name"; "company_name"; "company_id"; "product_url"; "company_url";
     "region"; "description"].

(** [None] or a string that is not empty. *)
Definition absent_or_text (v : option value) : Prop :=
  v = Some VNone \/ exists s, s <> "" /\ v = Some (VStr s).

(** The first token that the founding-year loop stops at. *)
Definition year_token (tokens : list string) : option string :=
  List.find (fun t => isdigit t && (len_str t =? 4)) tokens.

(** The company identifier of a product card: the [data-id] of its
    company link when not empty, else the last dash-delimited token
    of the link target; none without a company link with a target. *)
Definition product_company_id {E} `{!Soup E} (card : E) : option string :=
  link ← or_tag (select_one "a[data-test='company-link']" card)
            (select_one "a[href*='/firmen/']" card);
  href ← attr "href" link;
  match Spec.first_present [attr "data-id" link] with
  | Some v => Some v
  | None => last (split_on "-" (strip_char "/" href))
  end.

(** A transport whose requests to [url] all fail in the world [w]. *)
Definition always_fails {W} `{!Transport W} (url : string) (w : W) : Prop :=
  forall i, Spec.fails url None (Utils.timeout Utils.default_retry_config) i w.

(** The requests of the pages [page], [page + 1], ... given how many
    times each was requested. *)
Fixpoint page_requests (url_of : Z -> result string) (page : Z)
    (counts : list nat) : list string :=
  match counts with
  | [] => []
  | n :: rest =>
      match url_of page with
      | Ok url => replicate n url
      | Raise _ => []
      end ++ page_requests url_of (page + 1) rest
  end.

End Props.

(** ** Further example pages *)

Module Samples.
Import PyStr Utils Fake Examples.

#[local] Existing Instances runtime soup site scripted.

(** A card with a mail link and nothing else. *)
Definition mail_card : tag :=
  Tag [] []
    [("a[href^='mailto:']",
      [Tag [("href", "mailto: info@acme.example ")] [] [] []])]
    [].

(** The facts of a details page. *)
Definition facts_parent : tag :=
  Tag [] [CompanyParser.Gruendungsjahr; "1987"; "Mitarbeiteranzahl:"; " 50-99 "] [] [].

Definition facts_page : tag :=
  Tag [] [] [] [(CompanyParser.Gruendungsjahr, facts_parent)].

(** A fetch that is never attempted. *)
Definition no_attempt : RetryConfig :=
  {| retries := -1; backoff_factor := 1 # 2; timeout := 20 |}.

(** A site that refuses every connection. *)
Definition unreachable : Env (list (result Response)) :=
  {| world := []; requested := []; slept := [] |}.




(** The record of the product card. *)
Definition product_card_record : record :=
  match ProductParser.card_summary base product_card with
  | Ok r => r
  | Raise _ => ∅
  end.

(** A product crawl without a page limit. *)
Definition product_crawl : run (list (string * string)) (list record) :=
  Main.scrape_product_mode base "Aufzug" "DE" "de" 0 2 start.

Definition product_crawl_output : list record :=
  match product_crawl with
  | Ret out _ => out
  | _ => []
  end.

Definition product_crawl_end : Env (list (string * string)) :=
  match product_crawl with
  | Ret _ s => s
  | _ => start
  end.

(** The summary of ACME before and after its detail fetch. *)
Definition acme_record : record := default ∅ (head company_records).

Definition acme_attached : record :=
  match Main.attach_one acme_record start with
  | Ret c _ => c
  | _ => ∅
  end.

Definition acme_attached_end : Env (list (string * string)) :=
  match Main.attach_one acme_record start with
  | Ret _ s => s
  | _ => start
  end.

(** Summaries without a details URL. *)
Definition unlinked : list record :=
  [{["name" := VStr "ACME GmbH"]};
   {["name" := VStr "Bolt AG"; "details_url" := VStr ""]};
   {["name" := VStr "Cobalt KG"; "details_url" := VNone]}].

(** An input file and a command line. *)
Definition sample_input : Config.json :=
  Config.JDict {["query" := Config.JStr "Aufzug"; "region" := Config.JStr "AT";
                 "max_pages" := Config.JInt 5]}.

Definition sample_args : Config.Namespace :=
  {| Config.query := None;
     Config.mode := Some "product";
     Config.region := Some "";
     Config.language := None;
     Config.max_pages := Some 0;
     Config.no_details := true;
     Config.config := "settings.json";
     Config.output := None;
     Config.input := "sample_input.json" |}.

Definition sample_config : gmap string Config.json :=
  match Config.resolve_effective_config Config.builtin_defaults
          (Some (Ok sample_input)) sample_args with
  | Config.Returns cfg => cfg
  | Config.Exits _ => ∅
  end.

Definition no_args : Config.Namespace :=
  {| Config.query := Some "";
     Config.mode := None;
     Config.region := None;
     Config.language := None;
     Config.max_pages := None;
     Config.no_details := false;
     Config.config := "settings.json";
     Config.output := None;
     Config.input := "sample_input.json" |}.

End Samples.

(** * Facts about the string methods *)

Section PyStrFacts.
Import PyStr.


Lemma truthy_true s : truthy s = true <-> s <> "".
Proof. destruct s; simpl; split; congruence. Qed.

Lemma truthy_false s : truthy s = false <-> s = "".
Proof. destruct s; simpl; split; congruence. Qed.

Lemma append_cons c s t : String c s +:+ t = String c (s +:+ t).
Proof. reflexivity. Qed.

Lemma append_nil_l s : "" +:+ s = s.
Proof. reflexivity. Qed.

Lemma append_nil_r s : s +:+ "" = s.
Proof.
  induction s as [|c s IH]; [done |]. by rewrite append_cons, IH.
Qed.

Lemma append_assoc s t u : (s +:+ t) +:+ u = s +:+ t +:+ u.
Proof.
  induction s as [|c s IH]; [done |]. by rewrite !append_cons, IH.
Qed.

Lemma split_ws_cons_nonspace c s :
  isspace c = false -> exists t ts, split_ws (String c s) = String c t :: ts.
Proof.
  intros Hc. cbn. rewrite Hc.
  destruct (at_boundary s); [by eauto |].
  destruct (split_ws s); eauto.
Qed.

(** A token followed by a boundary is split off as it is. *)
Lemma split_ws_token_app t s :
  token t -> at_boundary s = true -> split_ws (t +:+ s) = t :: split_ws s.
Proof.
  intros [Hne Hall] Hs. induction t as [|c t IH]; [done |].
  cbn in Hall. apply andb_prop in Hall as [Hc Ht].
  apply negb_true_iff in Hc.
  rewrite append_cons. cbn [split_ws]. rewrite Hc.
  destruct t as [|c' t].
  - by rewrite append_nil_l, Hs.
  - assert (Hb : at_boundary (String c' t +:+ s) = false).
    { cbn in Ht. apply andb_prop in Ht as [Hc' _].
      rewrite append_cons. cbn. by apply negb_true_iff in Hc'. }
    rewrite Hb, IH; done.
Qed.

Lemma split_ws_tokens s : Forall token (split_ws s).
Proof.
  induction s as [|c s IH]; cbn; [constructor |].
  destruct (isspace c) eqn:Hc; [done |].
  assert (Hone : token (String c "")).
  { split; [done |]. cbn. by rewrite Hc. }
  destruct (at_boundary s); [by constructor |].
  destruct (split_ws s) as [|t ts]; [by constructor |].
  inversion IH as [|? ? [Ht1 Ht2] Hts]; subst.
  constructor; [| done].
  split; [done |]. cbn. by rewrite Hc, Ht2.
Qed.

Lemma split_ws_join ts :
  Forall token ts -> split_ws (join " " ts) = ts.
Proof.
  induction 1 as [|t ts Ht Hts IH]; [done |].
  cbn [join]. destruct ts as [|t' ts].
  - rewrite <- (append_nil_r t) at 1. by rewrite split_ws_token_app.
  - rewrite (append_cons " " ""), append_nil_l.
    rewrite split_ws_token_app; [| done | done].
    cbn [split_ws]. change (isspace " ") with true. cbn iota.
    by rewrite IH.
Qed.

Lemma join_nil_inv sep ts :
  Forall token ts -> join sep ts = "" -> ts = [].
Proof.
  intros Hts. destruct Hts as [|t ts [Hne _] _]; [done |].
  cbn. destruct ts; [done |]. destruct t; [done | discriminate].
Qed.

Lemma normalize_whitespace_join s :
  Utils.normalize_whitespace s = join " " (split_ws s).
Proof. unfold Utils.normalize_whitespace. by destruct s. Qed.

(** Normalising does not change the tokens. *)
Lemma split_ws_normalize s :
  split_ws (Utils.normalize_whitespace s) = split_ws s.
Proof.
  rewrite normalize_whitespace_join. apply split_ws_join, split_ws_tokens.
Qed.

Lemma lstrip_by_head p s c r :
  lstrip_by p s = String c r -> p c = false.
Proof.
  induction s as [|a s IH]; cbn; [done |].
  destruct (p a) eqn:Ha; [done |]. by intros [= -> _].
Qed.

Lemma rstrip_by_head p c r :
  p c = false -> exists r', rstrip_by p (String c r) = String c r'.
Proof.
  intros Hc. cbn. destruct (rstrip_by p r); [rewrite Hc |]; eauto.
Qed.

(** A stripped string that is not empty has a token. *)
Lemma split_ws_strip_nonempty s :
  strip s <> "" -> split_ws (strip s) <> [].
Proof.
  unfold strip. destruct (lstrip_by isspace s) as [|c r] eqn:Hl; [done |].
  intros _. apply lstrip_by_head in Hl.
  destruct (rstrip_by_head isspace c r Hl) as [r' ->].
  destruct (split_ws_cons_nonspace c r' Hl) as (t & ts & ->). done.
Qed.

Lemma split_on_nonempty sep s : split_on sep s <> [].
Proof.
  destruct s as [|c s]; cbn; [done |].
  destruct (Ascii.eqb c sep); [done |]. by destruct (split_on sep s).
Qed.

Lemma index_last_ok {A} (l : list A) :
  l <> [] -> exists x, index_last l = Ok x /\ last l = Some x.
Proof.
  intros Hl. unfold index_last.
  destruct (last l) as [x|] eqn:Hx; [by eauto |].
  by apply last_None in Hx.
Qed.

End PyStrFacts.

Section AddressFacts.
Import PyStr CompanyParser.
Context `{!PyRuntime}.

Lemma address_parts_stripped address_full p :
  In p (Spec.address_parts address_full) -> p <> "" /\ exists x, p = strip x.
Proof.
  unfold Spec.address_parts. intros [Hin Hp]%filter_In.
  split; [by apply truthy_true |].
  apply list_elem_of_In, list_elem_of_fmap in Hin as (x & -> & _). eauto.
Qed.

Lemma index_at_ok {A} (l : list A) (i : nat) :
  (i < length l)%nat -> exists x, index_at l i = Ok x /\ l !! i = Some x.
Proof.
  intros Hi. unfold index_at.
  destruct (lookup_lt_is_Some_2 l i Hi) as [x ->]. eauto.
Qed.

Lemma part_has_token address_full p :
  In p (Spec.address_parts address_full) -> split_ws p <> [].
Proof.
  intros (Hne & x & ->)%address_parts_stripped.
  by apply split_ws_strip_nonempty.
Qed.

Lemma last_In {A} (l : list A) x : last l = Some x -> In x l.
Proof.
  intros Hx. apply list_elem_of_In. rewrite last_lookup in Hx.
  by eapply list_elem_of_lookup_2.
Qed.

Lemma address_breakdown_fields address_full :
  address_full <> "" ->
  let parts := Spec.address_parts address_full in
  exists a,
    address_breakdown address_full = Ok a /\
    CompanyAddress.full a = Some address_full /\
    CompanyAddress.street a = parts !! 0%nat /\
    CompanyAddress.postal_code a = (parts !! 1%nat ≫= fun p => head (split_ws p)) /\
    CompanyAddress.city a =
      (parts !! 1%nat ≫= fun p => or_none (join " " (tail (split_ws p)))) /\
    CompanyAddress.country_code a =
      (if 3 <=? len parts
       then upper <$> (last parts ≫= fun p => last (split_ws p))
       else None) /\
    (2 <= len parts -> is_Some (CompanyAddress.postal_code a)) /\
    (3 <= len parts -> is_Some (CompanyAddress.country_code a)).
Proof.
  intros Hne parts.
  assert (Hparts : forall p, In p parts -> split_ws p <> [])
    by (intros p; apply part_has_token).
  unfold address_breakdown.
  apply truthy_true in Hne as Htr. rewrite Htr.
  fold (Spec.address_parts address_full). fold parts.
  assert (Hfull : or_none address_full = Some address_full)
    by (unfold or_none; by rewrite Htr).
  rewrite Hfull. clearbody parts. clear Htr Hne Hfull.
  unfold len.
  destruct parts as [|p0 [|p1 rest]].
  - cbn. eexists. repeat split; try done; cbn; lia.
  - cbn. eexists. repeat split; try done; cbn; lia.
  - assert (Hp1 : split_ws p1 <> []) by (apply Hparts; cbn; auto).
    destruct (split_ws p1) as [|t ts] eqn:Ht; [done |].
    cbn [truthy_list index_at lookup list_lookup mbind result_bind].
    replace (2 <=? Z.of_nat (length (p0 :: p1 :: rest))) with true
      by (symmetry; apply Z.leb_le; cbn [length]; lia).
    cbn [index_at lookup list_lookup mbind result_bind]. rewrite Ht.
    cbn [truthy_list index_at lookup list_lookup mbind result_bind tail head].
    destruct (3 <=? Z.of_nat (length (p0 :: p1 :: rest))) eqn:H3.
    + destruct (index_last_ok (p0 :: p1 :: rest)) as (pl & -> & Hpl); [done |].
      assert (Hl : split_ws pl <> []) by (apply Hparts; by apply last_In).
      cbn [mbind result_bind].
      destruct (index_last_ok (split_ws pl) Hl) as (tl & -> & Htl).
      cbn [mbind result_bind]. eexists. split; [reflexivity |].
      cbn [CompanyAddress.full CompanyAddress.street CompanyAddress.postal_code
           CompanyAddress.city CompanyAddress.country_code].
      rewrite Hpl. cbn [mbind option_bind]. rewrite Htl, Ht. cbn.
      repeat split; eauto.
    + cbn [mbind result_bind]. eexists. split; [reflexivity |].
      cbn [CompanyAddress.full CompanyAddress.street CompanyAddress.postal_code
           CompanyAddress.city CompanyAddress.country_code].
      apply Z.leb_gt in H3.
      repeat split; try lia; cbn; rewrite ?Ht; cbn; eauto.
Qed.

Lemma address_breakdown_total address_full :
  exists a, address_breakdown address_full = Ok a.
Proof.
  destruct (decide (address_full = "")) as [-> | Hne]; [by eexists |].
  destruct (address_breakdown_fields address_full Hne) as (a & Ha & _). eauto.
Qed.

End AddressFacts.

Section ResultFacts.
Context {A B : Type} (f : A -> result B).

Lemma mapM_Ok_Forall2 (l : list A) (ys : list B) :
  mapM f l = Ok ys <-> Forall2 (fun x y => f x = Ok y) l ys.
Proof.
  revert ys. induction l as [|x l IH]; intros ys; cbn; unfold mret, result_ret.
  - split; [intros [= <-]; constructor | by inversion 1].
  - destruct (f x) as [y|e] eqn:Hx; cbn.
    + destruct (mapM f l) as [ys'|e] eqn:Hl; cbn; unfold mret, result_ret.
      * split.
        -- intros [= <-]. constructor; [done | by apply IH].
        -- inversion 1 as [|? y' ? ys'' Hy Hys]; subst.
           apply IH in Hys. congruence.
      * split; [done |]. inversion 1 as [|? y' ? ys'' Hy Hys]; subst.
        apply IH in Hys. congruence.
    + split; [done |]. inversion 1; congruence.
Qed.

Lemma mapM_total (l : list A) :
  (forall x, exists y, f x = Ok y) -> exists ys, mapM f l = Ok ys.
Proof.
  intros Hf. induction l as [|x l [ys IH]]; cbn; [by eexists |].
  destruct (Hf x) as [y ->]. cbn. rewrite IH. by eexists.
Qed.

(** An exception of [mapM] is the exception of one element. *)
Lemma mapM_Raise_In (l : list A) e :
  mapM f l = Raise e -> exists x, In x l /\ f x = Raise e.
Proof.
  induction l as [|x l IH]; cbn; [done |].
  destruct (f x) as [y|e'] eqn:Hx; cbn.
  - destruct (mapM f l) as [ys|e'] eqn:Hl; cbn; [done |].
    intros [= <-]. destruct (IH eq_refl) as (x' & Hin & Hx'). eauto.
  - intros [= <-]. eauto.
Qed.
End ResultFacts.

Section ContactFacts.
Import PyStr Utils CompanyParser.
Context {E : Type} `{!Soup E}.

Lemma split_name_normalized raw :
  let full_name := normalize_whitespace raw in
  full_name <> "" ->
  exists tok rest,
    split_ws full_name = tok :: rest /\
    full_name = join " " (tok :: rest) /\
    split_name full_name =
      Ok (Some tok, if truthy_list rest then Some (join " " rest) else None).
Proof.
  intros full_name Hne. subst full_name.
  pose proof (split_ws_normalize raw) as Hsplit.
  pose proof (normalize_whitespace_join raw) as Hjoin.
  destruct (split_ws raw) as [|tok rest] eqn:Hraw.
  { rewrite Hjoin in Hne. done. }
  exists tok, rest. split; [done |]. split; [done |].
  unfold split_name. apply truthy_true in Hne. rewrite Hne, Hsplit.
  destruct rest as [|t2 rest].
  - cbn. by rewrite Hjoin.
  - replace (2 <=? len (tok :: t2 :: rest)) with true; [done |].
    symmetry. apply Z.leb_le. unfold len. cbn [length]. lia.
Qed.

Lemma _extract_text_normalized (element : option E) :
  exists raw, _extract_text element = normalize_whitespace raw.
Proof.
  destruct element as [e|]; cbn; [by eexists |]. by exists "".
Qed.

Lemma split_name_total (element : option E) :
  exists r, split_name (_extract_text element) = Ok r.
Proof.
  destruct (_extract_text_normalized element) as [raw ->].
  destruct (decide (normalize_whitespace raw = "")) as [-> | Hne]; [by eexists |].
  destruct (split_name_normalized raw Hne) as (tok & rest & _ & _ & ->).
  by eexists.
Qed.

Lemma contact_of_block_total (block : E) :
  exists c, contact_of_block block = Ok c.
Proof.
  unfold contact_of_block.
  destruct (split_name_total (select_one "h3, h4, .name" block)) as [[fn ln] ->].
  by eexists.
Qed.

Lemma first_year_raises tokens e :
  first_year tokens = Raise e -> e = ValueError.
Proof.
  induction tokens as [|t ts IH]; cbn; [done |].
  destruct (isdigit t && (len_str t =? 4)); [| done].
  unfold int_of_digits. by destruct (truthy t && forallb_str is_ascii_digit t); intros [= <-].
Qed.

Lemma parse_facts_total (soup : E) :
  exists r, parse_facts soup = Ok r.
Proof.
  unfold parse_facts.
  destruct (find_string _ soup) as [[s parent]|]; [| by eexists].
  destruct (truthy s); [| by eexists].
  destruct (contains Gruendungsjahr _); [| by eexists].
  destruct (first_year _) as [y|e] eqn:Hy; [by eexists |].
  apply first_year_raises in Hy as ->. by eexists.
Qed.

Context `{!PyRuntime}.

(** [parse_company_details] returns a dictionary for every page. *)
Lemma parse_company_details_total html company_id :
  exists d, parse_company_details html company_id = Ok (VDict d).
Proof.
  unfold parse_company_details.
  destruct (address_breakdown_total
    (_extract_text
       (or_tag (select_one "[data-test='company-address']" (parse_html html))
          (or_tag (select_one "address" (parse_html html))
             (select_one ".address" (parse_html html)))))) as [a ->].
  cbn [mbind result_bind].
  destruct (parse_facts_total (parse_html html)) as [[ec fy] ->].
  cbn [mbind result_bind].
  destruct (mapM_total contact_of_block
    (select "[data-test='contact-person'], .contact-person" (parse_html html))
    contact_of_block_total) as [cs ->].
  cbn [mbind result_bind]. by eexists.
Qed.

End ContactFacts.

Section CardFacts.
Import PyStr Utils CompanyParser.
Context {E : Type} `{!Soup E} `{!PyRuntime}.

Lemma last_dash_token href :
  exists tok,
    index_last (split_on "-" (strip_char "/" href)) = Ok tok /\
    last (split_on "-" (strip_char "/" href)) = Some tok.
Proof. apply index_last_ok, split_on_nonempty. Qed.

(** [card_identity] raises what [urljoin] raises on the link target
    and nothing else; the identifier it returns is the one the
    priority order gives, and the details URL is the link target
    joined with the base. *)
Lemma card_identity_priority base_url (card : E) :
  match Spec.details_url_of base_url card with
  | Ok details_url =>
      exists cid,
        card_identity base_url card = Ok (cid, details_url) /\
        match Spec.company_id_by_priority card with
        | Some v => cid = Some v
        | None => truthy_opt cid = false
        end
  | Raise e => card_identity base_url card = Raise e
  end.
Proof.
  unfold card_identity, Spec.details_url_of, Spec.company_id_by_priority,
    Spec.first_present, or_.
  destruct (attr "data-id" card) as [[|c1 s1]|];
    destruct (attr "data-company-id" card) as [[|c2 s2]|];
    destruct (details_link card) as [link|]; cbn;
    try (destruct (attr "href" link) as [href|]; cbn);
    try (destruct (urljoin base_url href) as [joined|e]; cbn);
    try (destruct (attr "data-id" link) as [[|c3 s3]|]; cbn);
    try (destruct (last_dash_token href) as (tok & -> & ->); cbn);
    try reflexivity;
    eexists; split; reflexivity.
Qed.

(** The [urljoin] of the link target is the only exception of a
    card. *)
Lemma details_url_of_raises base_url (card : E) e :
  Spec.details_url_of base_url card = Raise e ->
  exists href,
    details_link card ≫= attr "href" = Some href /\
    urljoin base_url href = Raise e.
Proof.
  unfold Spec.details_url_of.
  destruct (details_link card ≫= attr "href") as [href|]; [| done].
  destruct (urljoin base_url href) as [joined|e'] eqn:Hj; [done |].
  intros [= <-]. eauto.
Qed.

Lemma card_summary_fields base_url (card : E) :
  match Spec.details_url_of base_url card with
  | Ok details_url =>
      exists r cid,
        card_summary base_url card = Ok r /\
        card_identity base_url card = Ok (cid, details_url) /\
        r !! "company_id" = Some (of_opt_str cid) /\
        r !! "details_url" = Some (of_opt_str details_url) /\
        r !! "details" = None /\
        r !! "address" =
          Some (VDict (CompanyAddress.asdict
            {| CompanyAddress.street := None;
               CompanyAddress.postal_code := None;
               CompanyAddress.city := None;
               CompanyAddress.country_code := None;
               CompanyAddress.full :=
                 Some (_extract_text
                   (or_tag (select_one "[data-test='company-address']" card)
                      (select_one ".address" card))) |}))
  | Raise e => card_summary base_url card = Raise e
  end.
Proof.
  pose proof (card_identity_priority base_url card) as Hid.
  destruct (Spec.details_url_of base_url card) as [details_url|e].
  - destruct Hid as (cid & Hid & _).
    unfold card_summary. rewrite Hid. cbn [mbind result_bind].
    eexists _, cid. split; [reflexivity |]. split; [done |].
    repeat split; reflexivity.
  - unfold card_summary. by rewrite Hid.
Qed.

(** What a card that gives a record has. *)
Lemma card_summary_Ok base_url (card : E) r :
  card_summary base_url card = Ok r ->
  exists details_url cid,
    Spec.details_url_of base_url card = Ok details_url /\
    card_identity base_url card = Ok (cid, details_url) /\
    r !! "company_id" = Some (of_opt_str cid) /\
    r !! "details_url" = Some (of_opt_str details_url) /\
    r !! "details" = None.
Proof.
  intros Hr. pose proof (card_summary_fields base_url card) as Hf.
  destruct (Spec.details_url_of base_url card) as [details_url|e];
    [| congruence].
  destruct Hf as (r' & cid & Hr' & Hid & Hc & Hu & Hd & _).
  assert (r' = r) as -> by congruence. by exists details_url, cid.
Qed.

Lemma card_summary_raises base_url (card : E) e :
  card_summary base_url card = Raise e ->
  exists href,
    details_link card ≫= attr "href" = Some href /\
    urljoin base_url href = Raise e.
Proof.
  intros Hr. pose proof (card_summary_fields base_url card) as Hf.
  destruct (Spec.details_url_of base_url card) as [details_url|e'] eqn:Hu.
  - destruct Hf as (r & _ & Hr' & _). congruence.
  - apply details_url_of_raises. congruence.
Qed.

(** A page gives its records when [urljoin] returns on the link
    targets of its cards. *)
Lemma parse_company_list_returns html base_url :
  (forall href, exists joined, urljoin base_url href = Ok joined) ->
  exists rs, parse_company_list html base_url = Ok rs.
Proof.
  intros Hjoin. apply mapM_total. intros card.
  destruct (card_summary base_url card) as [r|e] eqn:Hr; [by eexists |].
  apply card_summary_raises in Hr as (href & _ & Hr).
  destruct (Hjoin href) as [joined Hj]. congruence.
Qed.


Lemma parse_company_list_shape html base_url rs :
  parse_company_list html base_url = Ok rs -> Forall Spec.summary_shape rs.
Proof.
  unfold parse_company_list. intros Hrs%mapM_Ok_Forall2.
  induction Hrs as [|card r cards rs Hr _ IH]; constructor; [| done].
  apply card_summary_Ok in Hr as (u & cid & _ & _ & _ & Hu & Hd).
  split; eauto.
Qed.

End CardFacts.

Section SleepFacts.
Import PyStr Utils Spec.
Context {W : Type} `{!Transport W}.

(** A delay between nothing and a day is slept, whatever the
    platform. *)
Lemma time_sleep_within_a_day (secs : Q) :
  (0 <= secs)%Q -> (secs <= one_day)%Q -> time_sleep (W := W) secs = Ok tt.
Proof.
  intros H0 H1. unfold time_sleep.
  apply Qle_bool_iff in H0. apply Qle_bool_iff in H1. by rewrite H0, H1.
Qed.

(** A negative delay of at most a day raises [ValueError]. *)
Lemma time_sleep_negative (secs : Q) :
  (secs < 0)%Q -> (- one_day <= secs)%Q ->
  time_sleep (W := W) secs = Raise ValueError.
Proof.
  intros H0 H1. unfold time_sleep.
  assert (Hneg : Qle_bool 0 secs = false).
  { destruct (Qle_bool 0 secs) eqn:Hb; [| done].
    apply Qle_bool_iff in Hb. exfalso. by apply (Qlt_not_le secs 0). }
  apply Qle_bool_iff in H1. by rewrite Hneg, H1.
Qed.

Lemma retry_sleep_delay cfg (i : nat) :
  sleeps (W := W) cfg i ->
  backoff_delay cfg (Z.of_nat i)
    = Ok (backoff_factor cfg * inject_Z (2 ^ Z.of_nat i))%Q /\
  time_sleep (W := W) (backoff_factor cfg * inject_Z (2 ^ Z.of_nat i))%Q = Ok tt.
Proof.
  unfold sleeps, retry_sleep, backoff_delay.
  destruct (Z.of_nat i <? 1024); [| done]. cbn. by intros ->.
Qed.

(** The delays of a configuration with a non-negative backoff factor
    are slept as long as they are at most a day and the attempt is
    below 1024. *)
Lemma sleeps_within_a_day cfg (i : nat) :
  (0 <= backoff_factor cfg)%Q ->
  Z.of_nat i < 1024 ->
  (backoff_factor cfg * inject_Z (2 ^ Z.of_nat i) <= one_day)%Q ->
  sleeps (W := W) cfg i.
Proof.
  intros Hbf Hi Hday. unfold sleeps, retry_sleep, backoff_delay.
  replace (Z.of_nat i <? 1024) with true by (symmetry; apply Z.ltb_lt; lia).
  cbn. apply time_sleep_within_a_day; [| done].
  apply Qmult_le_0_compat; [done |].
  change 0%Q with (inject_Z 0). rewrite <- Zle_Qle. apply Z.pow_nonneg. lia.
Qed.

(** The three delays of the default configuration. *)
Lemma default_sleeps (i : nat) :
  (i < 3)%nat -> sleeps (W := W) default_retry_config i.
Proof.
  intros Hi. destruct i as [|[|[|i]]]; [reflexivity | reflexivity | reflexivity | lia].
Qed.

End SleepFacts.

Section FetchFacts.
Import PyStr Utils Spec.
Context {W : Type} `{!Transport W}.
Variables (cfg : RetryConfig) (url : string)
          (params : option (list (string * value))).

Abbreviation tmo := (timeout cfg).
Abbreviation attempt := (Spec.attempt url params tmo).
Abbreviation fails := (Spec.fails url params tmo).
Abbreviation world_after := (Spec.world_after url params tmo).

Abbreviation delays_from := (Spec.delays_from cfg).
Abbreviation after_from := (Spec.after_from url params tmo cfg).

Lemma after_from_0 n s : after_from 0 n s = after_attempts url params tmo cfg n s.
Proof. reflexivity. Qed.

(** One iteration: the request is logged and the world advances. *)
Lemma get_run s :
  get url params tmo s =
    Ret (session_get url params tmo (world s)).1
        {| world := (session_get url params tmo (world s)).2;
           requested := requested s ++ [url];
           slept := slept s |}.
Proof. unfold get. by destruct (session_get url params tmo (world s)). Qed.

Lemma after_from_step a n s :
  after_from (S a) (S n)
    {| world := (session_get url params tmo (world s)).2;
       requested := requested s ++ [url];
       slept := slept s ++ [(backoff_factor cfg * inject_Z (2 ^ Z.of_nat a))%Q] |}
  = after_from a (S (S n)) s.
Proof.
  unfold Spec.after_from. cbn [world requested slept Nat.pred]. f_equal.
  - by rewrite <- app_assoc.
  - unfold Spec.delays_from. cbn [seq fmap list_fmap]. by rewrite <- app_assoc.
Qed.

Lemma fetch_loop_unfold fuel (a : nat) s :
  fetch_loop (S fuel) cfg url params (Z.of_nat a) s =
    if Z.of_nat a <=? retries cfg then
      match attempt 0 (world s) with
      | Ok body =>
          Ret body {| world := (session_get url params tmo (world s)).2;
                      requested := requested s ++ [url];
                      slept := slept s |}
      | Raise _ =>
          if Z.of_nat a >=? retries cfg then
            Ret "" {| world := (session_get url params tmo (world s)).2;
                      requested := requested s ++ [url];
                      slept := slept s |}
          else
            match retry_sleep (W := W) cfg (Z.of_nat a) with
            | Ok _ =>
                fetch_loop fuel cfg url params (Z.of_nat a + 1)
                  {| world := (session_get url params tmo (world s)).2;
                     requested := requested s ++ [url];
                     slept :=
                       slept s
                       ++ [(backoff_factor cfg * inject_Z (2 ^ Z.of_nat a))%Q] |}
            | Raise e =>
                Exc e {| world := (session_get url params tmo (world s)).2;
                         requested := requested s ++ [url];
                         slept := slept s |}
            end
      end
    else Ret "" s.
Proof.
  cbn [fetch_loop]. destruct (Z.of_nat a <=? retries cfg); [| done].
  unfold mbind, M_bind. rewrite get_run. unfold Spec.attempt. cbn [Spec.world_after].
  destruct (response_text _); [done |].
  destruct (Z.of_nat a >=? retries cfg); [done |].
  unfold retry_sleep, backoff_delay, lift, sleep.
  destruct (Z.of_nat a <? 1024); cbn [mbind result_bind]; [| done].
  by destruct (time_sleep _).
Qed.

(** The first success, at attempt [k] counted from the entry of the
    loop, ends the loop with its body, provided the delays before it
    are slept. *)
Lemma fetch_loop_success k : forall (a fuel : nat) s body,
  Z.of_nat a + Z.of_nat k <= retries cfg ->
  (k < fuel)%nat ->
  (forall i, (i < k)%nat -> sleeps (W := W) cfg (a + i)) ->
  (forall i, (i < k)%nat -> fails i (world s)) ->
  attempt k (world s) = Ok body ->
  fetch_loop fuel cfg url params (Z.of_nat a) s = Ret body (after_from a (S k) s).
Proof.
  induction k as [|k IH]; intros a fuel s body Ha Hfuel Hsleep Hfail Hok;
    (destruct fuel as [|fuel]; [lia |]); rewrite fetch_loop_unfold;
    (replace (Z.of_nat a <=? retries cfg) with true
       by (symmetry; apply Z.leb_le; lia)).
  - rewrite Hok. unfold Spec.after_from, Spec.delays_from. cbn. by rewrite app_nil_r.
  - destruct (Hfail 0%nat) as [e ->]; [lia |].
    replace (Z.of_nat a >=? retries cfg) with false
      by (symmetry; rewrite Z.geb_leb; apply Z.leb_gt; lia).
    pose proof (Hsleep 0%nat ltac:(lia)) as Hs0. rewrite Nat.add_0_r in Hs0.
    unfold sleeps in Hs0. rewrite Hs0.
    replace (Z.of_nat a + 1) with (Z.of_nat (S a)) by lia.
    rewrite (IH (S a) fuel _ body); [by rewrite after_from_step | lia | lia | | |].
    + intros i Hi. replace (S a + i)%nat with (a + S i)%nat by lia.
      apply Hsleep. lia.
    + intros i Hi. apply (Hfail (S i)). lia.
    + exact Hok.
Qed.

(** When every attempt fails the loop ends after the last retry,
    with the empty string, provided the delays are slept. *)
Lemma fetch_loop_exhaust k : forall (a fuel : nat) s,
  Z.of_nat a + Z.of_nat k = retries cfg ->
  (k < fuel)%nat ->
  (forall i, (i < k)%nat -> sleeps (W := W) cfg (a + i)) ->
  (forall i, (i <= k)%nat -> fails i (world s)) ->
  fetch_loop fuel cfg url params (Z.of_nat a) s = Ret "" (after_from a (S k) s).
Proof.
  induction k as [|k IH]; intros a fuel s Ha Hfuel Hsleep Hfail;
    (destruct fuel as [|fuel]; [lia |]); rewrite fetch_loop_unfold;
    (replace (Z.of_nat a <=? retries cfg) with true
       by (symmetry; apply Z.leb_le; lia));
    (destruct (Hfail 0%nat) as [e ->]; [lia |]).
  - replace (Z.of_nat a >=? retries cfg) with true
      by (symmetry; rewrite Z.geb_leb; apply Z.leb_le; lia).
    unfold Spec.after_from, Spec.delays_from. cbn. by rewrite app_nil_r.
  - replace (Z.of_nat a >=? retries cfg) with false
      by (symmetry; rewrite Z.geb_leb; apply Z.leb_gt; lia).
    pose proof (Hsleep 0%nat ltac:(lia)) as Hs0. rewrite Nat.add_0_r in Hs0.
    unfold sleeps in Hs0. rewrite Hs0.
    replace (Z.of_nat a + 1) with (Z.of_nat (S a)) by lia.
    rewrite (IH (S a) fuel); [by rewrite after_from_step | lia | lia | |].
    + intros i Hi. replace (S a + i)%nat with (a + S i)%nat by lia.
      apply Hsleep. lia.
    + intros i Hi. apply (Hfail (S i)). lia.
Qed.

(** When the attempts up to [k] fail and the delay after attempt [k]
    is refused, the exception leaves the loop: the failed request is
    logged, the refused delay is not. *)
Lemma fetch_loop_sleep_raises k : forall (a fuel : nat) s e,
  Z.of_nat a + Z.of_nat k < retries cfg ->
  (k < fuel)%nat ->
  (forall i, (i < k)%nat -> sleeps (W := W) cfg (a + i)) ->
  (forall i, (i <= k)%nat -> fails i (world s)) ->
  retry_sleep (W := W) cfg (Z.of_nat (a + k)) = Raise e ->
  fetch_loop fuel cfg url params (Z.of_nat a) s
    = Exc e {| world := world_after (S k) (world s);
               requested := requested s ++ replicate (S k) url;
               slept := slept s ++ delays_from a k |}.
Proof.
  induction k as [|k IH]; intros a fuel s e Ha Hfuel Hsleep Hfail Hraise;
    (destruct fuel as [|fuel]; [lia |]); rewrite fetch_loop_unfold;
    (replace (Z.of_nat a <=? retries cfg) with true
       by (symmetry; apply Z.leb_le; lia));
    (destruct (Hfail 0%nat) as [e0 ->]; [lia |]);
    (replace (Z.of_nat a >=? retries cfg) with false
      by (symmetry; rewrite Z.geb_leb; apply Z.leb_gt; lia)).
  - rewrite Nat.add_0_r in Hraise. rewrite Hraise.
    unfold Spec.delays_from. cbn. by rewrite app_nil_r.
  - pose proof (Hsleep 0%nat ltac:(lia)) as Hs0. rewrite Nat.add_0_r in Hs0.
    unfold sleeps in Hs0. rewrite Hs0.
    replace (Z.of_nat a + 1) with (Z.of_nat (S a)) by lia.
    rewrite (IH (S a) fuel _ e); [| lia | lia | | |].
    + cbn [world requested slept Spec.world_after replicate].
      unfold Spec.delays_from. cbn [seq fmap list_fmap].
      by rewrite <- !app_assoc.
    + intros i Hi. replace (S a + i)%nat with (a + S i)%nat by lia.
      apply Hsleep. lia.
    + intros i Hi. apply (Hfail (S i)). lia.
    + by replace (S a + k)%nat with (a + S k)%nat by lia.
Qed.

(** Among the first [n] attempts either one succeeds first, or all
    fail. *)
Lemma first_success_or_all_fail n w :
  (exists k body, (k < n)%nat /\ (forall i, (i < k)%nat -> fails i w) /\
                  attempt k w = Ok body) \/
  (forall i, (i < n)%nat -> fails i w).
Proof.
  induction n as [|n [(k & body & Hk & Hf & Hok) | Hall]].
  - right. intros i Hi. lia.
  - left. exists k, body. split; [lia | done].
  - destruct (attempt n w) as [body|e] eqn:Hn.
    + left. exists n, body. split; [lia | done].
    + right. intros i Hi. destruct (decide (i = n)) as [-> | Hne].
      * by exists e.
      * apply Hall. lia.
Qed.

Lemma delays_lookup k i :
  (i < k)%nat ->
  delays cfg k !! i = Some (backoff_factor cfg * inject_Z (2 ^ Z.of_nat i))%Q.
Proof.
  intros Hi. unfold delays. rewrite list_lookup_fmap, lookup_seq_lt; done.
Qed.

Lemma total_delay_two :
  (total_delay (delays cfg 2) == backoff_factor cfg * (1 + 2))%Q.
Proof.
  unfold total_delay, delays. cbn [seq fmap list_fmap foldr].
  change (inject_Z (2 ^ Z.of_nat 0)) with 1%Q.
  change (inject_Z (2 ^ Z.of_nat 1)) with 2%Q.
  ring.
Qed.

End FetchFacts.

Section FetchPageFacts.
Import PyStr Utils Spec.
Context {W : Type} `{!Transport W}.

Lemma fetch_page_with_success cfg url params (s : Env W) k body :
  0 <= retries cfg ->
  (k <= Z.to_nat (retries cfg))%nat ->
  (forall i, (i < k)%nat -> sleeps (W := W) cfg i) ->
  (forall i, (i < k)%nat -> fails url params (timeout cfg) i (world s)) ->
  attempt url params (timeout cfg) k (world s) = Ok body ->
  fetch_page_with cfg url params s =
    Ret body (after_attempts url params (timeout cfg) cfg (S k) s).
Proof.
  intros Hr Hk Hsleep Hfail Hok. unfold fetch_page_with.
  rewrite <- after_from_0.
  apply (fetch_loop_success cfg url params k 0%nat);
    [lia | lia | done | done | done].
Qed.

Lemma fetch_page_with_exhaust cfg url params (s : Env W) :
  0 <= retries cfg ->
  (forall i, (i < Z.to_nat (retries cfg))%nat -> sleeps (W := W) cfg i) ->
  (forall i, (i <= Z.to_nat (retries cfg))%nat ->
             fails url params (timeout cfg) i (world s)) ->
  fetch_page_with cfg url params s =
    Ret "" (after_attempts url params (timeout cfg) cfg
              (S (Z.to_nat (retries cfg))) s).
Proof.
  intros Hr Hsleep Hfail. unfold fetch_page_with.
  rewrite <- after_from_0.
  apply (fetch_loop_exhaust cfg url params (Z.to_nat (retries cfg)) 0%nat);
    [lia | lia | done | done].
Qed.

(** A delay that is refused after the failed attempts [0 .. k], with
    retries left, leaves [fetch_page] as an exception. *)
Lemma fetch_page_with_sleep_raises cfg url params (s : Env W) k e :
  Z.of_nat k < retries cfg ->
  (forall i, (i < k)%nat -> sleeps (W := W) cfg i) ->
  (forall i, (i <= k)%nat -> fails url params (timeout cfg) i (world s)) ->
  retry_sleep (W := W) cfg (Z.of_nat k) = Raise e ->
  fetch_page_with cfg url params s
    = Exc e {| world := world_after url params (timeout cfg) (S k) (world s);
               requested := requested s ++ replicate (S k) url;
               slept := slept s ++ delays cfg k |}.
Proof.
  intros Hk Hsleep Hfail Hraise. unfold fetch_page_with.
  apply (fetch_loop_sleep_raises cfg url params k 0%nat);
    [lia | lia | done | done | done].
Qed.

(** With a non-negative number of retries whose delays are slept,
    [fetch_page] returns after at least one and at most
    [retries + 1] attempts. *)
Lemma fetch_page_with_bounded cfg url params (s : Env W) :
  0 <= retries cfg ->
  (forall i, (i < Z.to_nat (retries cfg))%nat -> sleeps (W := W) cfg i) ->
  exists body n,
    (1 <= n <= Z.to_nat (retries cfg) + 1)%nat /\
    fetch_page_with cfg url params s =
      Ret body (after_attempts url params (timeout cfg) cfg n s).
Proof.
  intros Hr Hsleep.
  destruct (first_success_or_all_fail cfg url params
              (S (Z.to_nat (retries cfg))) (world s))
    as [(k & body & Hk & Hfail & Hok) | Hall].
  - exists body, (S k). split; [lia |].
    apply fetch_page_with_success; [done | lia | | done | done].
    intros i Hi. apply Hsleep. lia.
  - exists "", (S (Z.to_nat (retries cfg))). split; [lia |].
    apply fetch_page_with_exhaust; [done | done |].
    intros i Hi. apply Hall. lia.
Qed.

(** [fetch_page] as [main.py] calls it returns: it neither raises
    nor runs out of fuel. *)
Lemma fetch_page_total url (s : Env W) :
  exists body s', fetch_page url s = Ret body s'.
Proof.
  destruct (fetch_page_with_bounded default_retry_config url None s
              ltac:(done) ltac:(intros i Hi; apply default_sleeps; cbn in Hi; lia))
    as (body & n & _ & Hrun).
  unfold fetch_page. eauto.
Qed.

End FetchPageFacts.

Section DetailFacts.
Import PyStr Utils Spec Main.
Context {W E : Type} `{!Transport W} `{!Soup E} `{!PyRuntime}.

Lemma attach_one_step (c : record) (s : Env W) :
  summary_shape c ->
  exists c' s', attach_one c s = Ret c' s' /\ detail_step c s c' s'.
Proof.
  intros [_ [u Hu]]. unfold attach_one.
  assert (Hget : dict_get c "details_url" = of_opt_str u)
    by (unfold dict_get; by rewrite Hu).
  destruct u as [url|]; cbn in Hget.
  2:{ rewrite Hget. exists c, s. split; [done |]. constructor. by left. }
  rewrite Hget. destruct url as [|a url]; cbn [truthy negb].
  { exists c, s. split; [done |]. constructor. by right. }
  unfold mbind, M_bind.
  destruct (fetch_page_total (String a url) s) as (html & s' & Hf). rewrite Hf.
  destruct html as [|b html]; cbn [truthy negb].
  { exists c, s'. split; [done |]. by eapply detail_fetch_empty. }
  destruct (parse_company_details_total (String b html) (dict_get c "company_id"))
    as [d Hd].
  rewrite Hd. cbn. eexists _, s'. split; [reflexivity |].
  by eapply detail_attached.
Qed.

(** On the summaries of a search page the detail pass returns, and
    it is the pass of the specification. *)
Lemma attach_details_pass (cs : list record) (s : Env W) :
  Forall summary_shape cs ->
  exists cs' s', attach_details cs s = Ret cs' s' /\ detail_pass cs s cs' s'.
Proof.
  intros Hcs. revert s. induction Hcs as [|c cs Hc _ IH]; intros s.
  - exists [], s. split; [done | constructor].
  - destruct (attach_one_step c s Hc) as (c' & s1 & Hone & Hstep).
    destruct (IH s1) as (cs' & s' & Hrest & Hpass).
    exists (c' :: cs'), s'. split; [| by econstructor].
    cbn [attach_details]. unfold mbind, M_bind. by rewrite Hone, Hrest.
Qed.

Lemma detail_step_frame (c c' : record) (s s' : Env W) :
  detail_step c s c' s' ->
  forall k, k <> "details" -> c' !! k = c !! k.
Proof.
  intros [| |] k Hk; [done | done |]. by rewrite lookup_insert_ne.
Qed.

Lemma detail_pass_frame (cs cs' : list record) (s s' : Env W) :
  detail_pass cs s cs' s' -> same_but_details cs cs'.
Proof.
  induction 1 as [|c cs s c' s1 cs' s' Hstep _ IH]; constructor; [| done].
  by eapply detail_step_frame.
Qed.

Lemma detail_pass_length (cs cs' : list record) (s s' : Env W) :
  detail_pass cs s cs' s' -> length cs' = length cs.
Proof. induction 1; cbn; congruence. Qed.

(** [attach_one] changes a record at ["details"] only, whatever the
    record. *)
Lemma attach_one_frame (c c' : record) (s s' : Env W) :
  attach_one c s = Ret c' s' ->
  forall k, k <> "details" -> c' !! k = c !! k.
Proof.
  unfold attach_one. intros Hrun k Hk.
  destruct (dict_get c "details_url") as [|url| | |]; try done.
  - by injection Hrun as <- _.
  - destruct (truthy url); cbn [negb] in Hrun; [| by injection Hrun as <- _].
    unfold mbind, M_bind in Hrun.
    destruct (fetch_page url s) as [html s1|e s1|]; [| done | done].
    destruct (truthy html); cbn [negb] in Hrun; [| by injection Hrun as <- _].
    unfold lift in Hrun.
    destruct (CompanyParser.parse_company_details html _); [| done].
    injection Hrun as <- _. by rewrite lookup_insert_ne.
Qed.

Lemma attach_details_frame (cs cs' : list record) (s s' : Env W) :
  attach_details cs s = Ret cs' s' -> same_but_details cs cs'.
Proof.
  revert cs' s. induction cs as [|c cs IH]; intros cs' s; cbn [attach_details].
  - intros [= <- _]. constructor.
  - unfold mbind, M_bind.
    destruct (attach_one c s) as [c' s1|e s1|] eqn:Hone; [| done | done].
    destruct (attach_details cs s1) as [cs1 s2|e s2|] eqn:Hrest; [| done | done].
    intros [= <- <-]. constructor; [by eapply attach_one_frame | by eapply IH].
Qed.

End DetailFacts.

Lemma limit_reached_true max_pages page :
  Main.limit_reached max_pages page = true <-> 0 < max_pages /\ max_pages <= page.
Proof.
  unfold Main.limit_reached.
  rewrite !andb_true_iff, negb_true_iff, Z.eqb_neq, Z.gtb_ltb, Z.ltb_lt,
    Z.geb_leb, Z.leb_le.
  lia.
Qed.

Lemma limit_reached_false max_pages page :
  Main.limit_reached max_pages page = false <-> ~ (0 < max_pages /\ max_pages <= page).
Proof. rewrite <- limit_reached_true. by destruct (Main.limit_reached _ _). Qed.

Lemma limit_reached_unbounded page : Main.limit_reached 0 page = false.
Proof. reflexivity. Qed.

Section CrawlFacts.
Import PyStr Utils Spec.
Context {W : Type} `{!Transport W}.
Variables (url_of : Z -> result string)
          (extract : string -> result (list record))
          (post : list record -> M W (list record))
          (max_pages : Z).

Abbreviation crawl := (Spec.crawl url_of extract post max_pages).
Abbreviation visits := (Spec.visits url_of extract post max_pages).
Abbreviation crawl_loop := (Spec.crawl_loop url_of extract post max_pages).

(** A run of the loop that returns is a specified crawl, appended
    to the records accumulated before. *)
Lemma crawl_loop_sound fuel : forall page acc (s : Env W) out s',
  crawl_loop fuel page acc s = Ret out s' ->
  exists rest, out = acc ++ rest /\ crawl page s rest s'.
Proof.
  induction fuel as [|fuel IH]; intros page acc s out s'; [done |].
  cbn [Spec.crawl_loop]. unfold mbind, M_bind. unfold lift at 1.
  destruct (url_of page) as [url|e] eqn:Hu; [| done].
  destruct (fetch_page url s) as [html s1|e s1|] eqn:Hf; [| done | done].
  destruct html as [|a html]; cbn [truthy negb].
  { intros [= <- <-]. exists []. rewrite app_nil_r. split; [done |].
    by eapply crawl_fetch_empty. }
  unfold lift at 1.
  destruct (extract (String a html)) as [rs|e] eqn:Hx; [| done].
  destruct rs as [|r rs]; cbn [truthy_list negb].
  { intros [= <- <-]. exists []. rewrite app_nil_r. split; [done |].
    by eapply crawl_no_records. }
  destruct (post (r :: rs) s1) as [rs' s2|e s2|] eqn:Hp; [| done | done].
  destruct (Main.limit_reached max_pages page) eqn:Hl.
  - intros [= <- <-]. exists rs'. split; [done |].
    apply limit_reached_true in Hl as [? ?].
    by eapply crawl_limit.
  - intros Hrun. apply IH in Hrun as (rest & -> & Hrest).
    exists (rs' ++ rest). split; [by rewrite app_assoc |].
    apply limit_reached_false in Hl.
    by eapply crawl_next.
Qed.



(** A crawl is the concatenation of what it keeps of the pages it
    visits. *)
Lemma crawl_visits page (s : Env W) out s' :
  crawl page s out s' ->
  exists vs, visits page s vs s' /\ out = concat (kept <$> vs).
Proof.
  induction 1 as [page url s s' Hu Hf
                 |page url s html s' Hu Hf Hne Hx
                 |page url s html s1 rs rs' s' Hu Hf Hne Hx Hrs Hp Hpos Hle
                 |page url s html s1 rs rs' s2 rest s' Hu Hf Hne Hx Hrs Hp Hl _
                    (vs & Hvs & ->)].
  - exists []. split; [by eapply visits_fetch_empty | done].
  - exists []. split; [by eapply visits_no_records | done].
  - eexists [_]. split; [by eapply visits_limit |]. cbn. by rewrite app_nil_r.
  - eexists (_ :: vs). split; [by eapply visits_next | done].
Qed.

(** A run of the loop that returns has visited pages in the states
    of the run, and returns what it kept of them. *)
Lemma crawl_loop_visits fuel page acc (s : Env W) out s' :
  crawl_loop fuel page acc s = Ret out s' ->
  exists vs, visits page s vs s' /\ out = acc ++ concat (kept <$> vs).
Proof.
  intros (rest & -> & (vs & Hvs & ->)%crawl_visits)%crawl_loop_sound. eauto.
Qed.

(** The visited pages are numbered from [page] on without a gap,
    every one was extracted from its text and holds a record, and
    what is kept of it is what the pass over its records returned;
    a positive limit bounds their number. *)
Lemma visits_pages (R : list record -> list record -> Prop)
    page (s : Env W) vs s' :
  (forall rs s1 rs' s2, post rs s1 = Ret rs' s2 -> R rs rs') ->
  visits page s vs s' ->
  page_no <$> vs = (fun j : nat => page + Z.of_nat j) <$> seq 0 (length vs) /\
  Forall (fun v => page_html v <> "" /\
                   extract (page_html v) = Ok (extracted v) /\
                   extracted v <> [] /\
                   R (extracted v) (kept v)) vs /\
  (0 < max_pages -> page <= max_pages ->
   Z.of_nat (length vs) <= max_pages - page + 1).
Proof.
  intros HR.
  induction 1 as [page url s s' Hu Hf
                 |page url s html s' Hu Hf Hne Hx
                 |page url s html s1 rs rs' s' Hu Hf Hne Hx Hrs Hp Hpos Hle
                 |page url s html s1 rs rs' s2 rest s' Hu Hf Hne Hx Hrs Hp Hl _
                    (Hno & Hall & Hbound)].
  - split; [done |]. split; [constructor |]. cbn. lia.
  - split; [done |]. split; [constructor |]. cbn. lia.
  - split; [cbn; by rewrite Z.add_0_r |].
    split; [| cbn; lia].
    constructor; [| constructor]. cbn. repeat split; try done. by eapply HR.
  - split; [| split].
    + cbn [fmap list_fmap length seq page_no]. rewrite Z.add_0_r. f_equal.
      change (list_fmap visit Z page_no rest) with (page_no <$> rest).
      rewrite Hno, <- fmap_S_seq, <- list_fmap_compose.
      apply list_fmap_ext. intros _ j _. cbn. lia.
    + constructor; [| done]. cbn. repeat split; try done. by eapply HR.
    + intros Hpos Hle. cbn [length]. specialize (Hbound Hpos). lia.
Qed.



End CrawlFacts.

Section ModeFacts.
Import PyStr Utils Spec Main.
Context {W E : Type} `{!Transport W} `{!Soup E} `{!PyRuntime}.
Variables (base_url query region language : string) (max_pages : Z).

Abbreviation company_url := (Spec.company_url base_url query region language).
Abbreviation product_url := (Spec.product_url base_url query region language).
Abbreviation company_extract := (Spec.company_extract base_url).
Abbreviation product_extract := (Spec.product_extract base_url).

Lemma scrape_company_loop_eq include_details fuel :
  forall page acc (s : Env W),
    scrape_company_loop base_url query region language max_pages
      include_details fuel page acc s
    = Spec.crawl_loop company_url company_extract (company_post include_details)
        max_pages fuel page acc s.
Proof.
  induction fuel as [|fuel IH]; intros page acc s; [done |].
  cbn [scrape_company_loop Spec.crawl_loop]. unfold mbind, M_bind.
  change (build_search_url base_url query "company" region language page) with (company_url page).
  destruct (lift (company_url page) s) as [url s0|e s0|]; [| done | done].
  destruct (fetch_page url s0) as [html s1|e s1|]; [| done | done].
  destruct (truthy html); cbn [negb]; [| done].
  change (CompanyParser.parse_company_list html base_url) with (company_extract html).
  destruct (lift (company_extract html) s1) as [rs s2|e s2|]; [| done | done].
  destruct (truthy_list rs); cbn [negb]; [| done].
  unfold company_post.
  destruct include_details;
    (match goal with
     | |- context [attach_details rs s2] =>
         destruct (attach_details rs s2) as [rs' s3|e s3|]; [| done | done]
     | _ => cbn
     end);
    (destruct (limit_reached max_pages page); [done | apply IH]).
Qed.

Lemma scrape_product_loop_eq fuel :
  forall page acc (s : Env W),
    scrape_product_loop base_url query region language max_pages fuel page acc s
    = Spec.crawl_loop product_url product_extract mret max_pages fuel page acc s.
Proof.
  induction fuel as [|fuel IH]; intros page acc s; [done |].
  cbn [scrape_product_loop Spec.crawl_loop]. unfold mbind, M_bind.
  change (build_search_url base_url query "product" region language page) with (product_url page).
  destruct (lift (product_url page) s) as [url s0|e s0|]; [| done | done].
  destruct (fetch_page url s0) as [html s1|e s1|]; [| done | done].
  destruct (truthy html); cbn [negb]; [| done].
  change (ProductParser.parse_product_list html base_url) with (product_extract html).
  destruct (lift (product_extract html) s1) as [rs s2|e s2|]; [| done | done].
  destruct (truthy_list rs); cbn [negb]; [| done]. cbn.
  destruct (limit_reached max_pages page); [done | apply IH].
Qed.


End ModeFacts.

Section ProductFacts.
Import PyStr Utils ProductParser.
Context {E : Type} `{!Soup E} `{!PyRuntime}.



End ProductFacts.

Section ExportFacts.
Import PyStr JsonExporter.

Lemma decimal_digit_char n :
  is_ascii_digit (ascii_of_N (Z.to_N (48 + n mod 10))) = true.
Proof.
  pose proof (Z.mod_pos_bound n 10 ltac:(lia)) as Hd.
  assert (Hcases : n mod 10 = 0 \/ n mod 10 = 1 \/ n mod 10 = 2 \/ n mod 10 = 3
                   \/ n mod 10 = 4 \/ n mod 10 = 5 \/ n mod 10 = 6
                   \/ n mod 10 = 7 \/ n mod 10 = 8 \/ n mod 10 = 9) by lia.
  repeat (destruct Hcases as [-> | Hcases]; [reflexivity |]).
  by rewrite Hcases.
Qed.

Lemma isoformat_is_iso8601 (d : datetime) :
  is_iso8601_utc (isoformat d +:+ "Z") = true.
Proof.
  unfold is_iso8601_utc, isoformat.
  destruct (microsecond d =? 0);
    cbv [zero_padded String.append matches date_time_pattern fraction_pattern app];
    rewrite !decimal_digit_char; reflexivity.
Qed.

Lemma endswith_char_append s c : endswith_char c (s +:+ String c "") = true.
Proof.
  induction s as [|a s IH].
  - cbn. apply Ascii.eqb_refl.
  - rewrite append_cons. cbn [endswith_char].
    destruct (s +:+ String c "") eqn:Hs; [| done].
    by destruct s.
Qed.

Lemma decimal_digit_code n :
  Z.of_N (N_of_ascii (ascii_of_N (Z.to_N (48 + n mod 10)))) - 48 = n mod 10.
Proof.
  pose proof (Z.mod_pos_bound n 10 ltac:(lia)) as Hd.
  rewrite N_ascii_embedding by lia. lia.
Qed.

Lemma take_digits_app k m : forall acc s,
  Spec.take_digits (k + m) acc s =
    match Spec.take_digits k acc s with
    | Some (a, r) => Spec.take_digits m a r
    | None => None
    end.
Proof.
  induction k as [|k IH]; intros acc s; [done |].
  cbn [Nat.add Spec.take_digits]. destruct s as [|c s]; [done |].
  destruct (is_ascii_digit c); [apply IH | done].
Qed.

(** Reading back the digits of a padded number. *)
Lemma take_digits_zero_padded k : forall n acc rest,
  0 <= n < 10 ^ Z.of_nat k ->
  Spec.take_digits k acc (zero_padded k n +:+ rest)
    = Some (acc * 10 ^ Z.of_nat k + n, rest).
Proof.
  induction k as [|k IH]; intros n acc rest Hn.
  - cbn in *. rewrite append_nil_l. f_equal. f_equal. lia.
  - replace (S k) with (k + 1)%nat at 1 by lia. rewrite take_digits_app.
    cbn [zero_padded]. rewrite append_assoc.
    assert (Hpow : 10 ^ Z.of_nat (S k) = 10 * 10 ^ Z.of_nat k)
      by (rewrite Nat2Z.inj_succ, Z.pow_succ_r; lia).
    rewrite IH.
    2:{ split; [apply Z.div_pos; lia |].
        apply Z.div_lt_upper_bound; lia. }
    rewrite append_cons, append_nil_l. cbn [Spec.take_digits].
    rewrite decimal_digit_char, decimal_digit_code. f_equal. f_equal.
    rewrite Hpow. pose proof (Z.div_mod n 10 ltac:(lia)). lia.
Qed.

(** The timestamp of a date and time reads back as that date and
    time. *)
Lemma read_isoformat (d : datetime) :
  Spec.valid_datetime d = true ->
  Spec.read_utc_timestamp (isoformat d +:+ "Z") = Some d.
Proof.
  intros Hvalid. pose proof Hvalid as Hv. unfold Spec.valid_datetime in Hv.
  repeat (apply andb_true_iff in Hv as [Hv ?]).
  assert (Hdim : Spec.days_in_month (year d) (month d) <= 31).
  { unfold Spec.days_in_month. repeat case_match; lia. }
  unfold Spec.read_utc_timestamp, isoformat.
  rewrite !append_assoc.
  rewrite take_digits_zero_padded by (cbn; lia).
  cbn [mbind option_bind]. rewrite append_cons, append_nil_l.
  cbn [Spec.take_char Ascii.eqb Bool.eqb andb mbind option_bind].
  rewrite take_digits_zero_padded by (cbn; lia).
  cbn [mbind option_bind]. rewrite append_cons, append_nil_l.
  cbn [Spec.take_char Ascii.eqb Bool.eqb andb mbind option_bind].
  rewrite take_digits_zero_padded by (cbn; lia).
  cbn [mbind option_bind]. rewrite append_cons, append_nil_l.
  cbn [Spec.take_char Ascii.eqb Bool.eqb andb mbind option_bind].
  rewrite take_digits_zero_padded by (cbn; lia).
  cbn [mbind option_bind]. rewrite append_cons, append_nil_l.
  cbn [Spec.take_char Ascii.eqb Bool.eqb andb mbind option_bind].
  rewrite take_digits_zero_padded by (cbn; lia).
  cbn [mbind option_bind]. rewrite append_cons, append_nil_l.
  cbn [Spec.take_char Ascii.eqb Bool.eqb andb mbind option_bind].
  rewrite take_digits_zero_padded by (cbn; lia).
  cbn [mbind option_bind].
  assert (Hsame : forall us,
            us = microsecond d ->
            {| year := 0 * 10 ^ Z.of_nat 4 + year d;
               month := 0 * 10 ^ Z.of_nat 2 + month d;
               day := 0 * 10 ^ Z.of_nat 2 + day d;
               hour := 0 * 10 ^ Z.of_nat 2 + hour d;
               minute := 0 * 10 ^ Z.of_nat 2 + minute d;
               second := 0 * 10 ^ Z.of_nat 2 + second d;
               microsecond := us |} = d).
  { intros us ->. destruct d; cbn. f_equal; lia. }
  destruct (microsecond d =? 0) eqn:Hus.
  - rewrite append_nil_l. cbn [Spec.take_char Ascii.eqb Bool.eqb andb mbind option_bind].
    rewrite Hsame by lia. by rewrite Hvalid.
  - rewrite !append_assoc, append_cons, append_nil_l.
    cbn [Spec.take_char Ascii.eqb Bool.eqb andb mbind option_bind].
    rewrite take_digits_zero_padded by (cbn; lia).
    cbn [Spec.take_char Ascii.eqb Bool.eqb andb mbind option_bind].
    rewrite Hsame by lia. by rewrite Hvalid.
Qed.
End ExportFacts.

Section MoreFacts.
Import PyStr Utils Spec Main.
Context {W E : Type} `{!Transport W} `{!Soup E} `{!PyRuntime}.

Lemma detail_pass_outcomes (cs cs' : list record) (s s' : Env W) :
  Forall summary_shape cs ->
  detail_pass cs s cs' s' ->
  Forall2 (fun c c' : record =>
             (c' = c /\ c' !! "details" = None) \/
             exists d, c' = <["details" := d]> c) cs cs'.
Proof.
  intros Hcs Hpass. induction Hpass as [|c cs s c' s1 cs' s' Hstep _ IH];
    [constructor |].
  inversion Hcs as [|? ? [Hd _] Hrest]; subst.
  constructor; [| by apply IH].
  destruct Hstep; [by left | by left | right; by eexists].
Qed.

(** The address of the details dictionary is the breakdown of the
    text of the address container. *)
Lemma parse_company_details_address html company_id :
  exists d a,
    CompanyParser.parse_company_details html company_id = Ok (VDict d) /\
    CompanyParser.address_breakdown
      (CompanyParser._extract_text
         (or_tag (select_one "[data-test='company-address']" (parse_html html))
            (or_tag (select_one "address" (parse_html html))
               (select_one ".address" (parse_html html))))) = Ok a /\
    d !! "address" = Some (VDict (CompanyAddress.asdict a)).
Proof.
  unfold CompanyParser.parse_company_details.
  destruct (address_breakdown_total
    (CompanyParser._extract_text
       (or_tag (select_one "[data-test='company-address']" (parse_html html))
          (or_tag (select_one "address" (parse_html html))
             (select_one ".address" (parse_html html)))))) as [a Ha].
  rewrite Ha. cbn [mbind result_bind].
  destruct (parse_facts_total (parse_html html)) as [[ec fy] ->].
  cbn [mbind result_bind].
  destruct (mapM_total CompanyParser.contact_of_block
    (select "[data-test='contact-person'], .contact-person" (parse_html html))
    contact_of_block_total) as [cs ->].
  cbn [mbind result_bind]. eexists _, a. split; [reflexivity |].
  split; reflexivity.
Qed.

Section Loop.
Variables (url_of : Z -> result string)
          (extract : string -> result (list record))
          (post : list record -> M W (list record)).

End Loop.


(** It keeps every key but ["details"], position by position. *)
Lemma company_post_frame include_details rs (s : Env W) rs' s' :
  company_post include_details rs s = Ret rs' s' -> same_but_details rs rs'.
Proof.
  unfold company_post. destruct include_details; [apply attach_details_frame |].
  intros [= <- _]. by apply Forall_Forall2_diag, Forall_true.
Qed.

End MoreFacts.

Section TrimFacts.
Import PyStr Spec JsonExporter.





End TrimFacts.

(** * The claims *)

Section Claims.
Import PyStr Utils Spec Main.
Context {W E : Type} `{!Transport W} `{!Soup E} `{!PyRuntime}.


(** C2, amended.  With [retries = r >= 0] and delays
    [backoff_factor * 2^i], [i < r], that are computed and slept,
    [fetch_page] returns after at least one and at most [r + 1]
    requests and does not raise; the delay slept before retry [i]
    (counted from 0) is [backoff_factor * 2^i]; when attempt
    [k <= r] is the first to succeed its body is returned after
    [k + 1] requests and the delays of the retries [0 .. k-1]; when
    all [r + 1] attempts fail the empty string is returned.  A
    transport that fails twice and then succeeds, with
    [retries = 3], succeeds after three requests and a total delay
    of [backoff_factor * (1 + 2)].  The delays are slept whenever
    the backoff factor is not negative, [r] is at most 1024 and the
    longest delay is at most a day. *)
Theorem fetch_page_retries_with_backoff
    (cfg : RetryConfig) (url : string)
    (params : option (list (string * value))) (s : Env W) :
  0 <= retries cfg ->
  (forall i, (i < Z.to_nat (retries cfg))%nat -> sleeps (W := W) cfg i) ->
  let r := Z.to_nat (retries cfg) in
  let attempt := Spec.attempt url params (timeout cfg) in
  let fails := Spec.fails url params (timeout cfg) in
  let after := Spec.after_attempts url params (timeout cfg) cfg in
  (exists body n,
     (1 <= n <= r + 1)%nat /\
     fetch_page_with cfg url params s = Ret body (after n s)) /\
  (forall n,
     requested (after n s) = requested s ++ replicate n url /\
     slept (after n s) = slept s ++ delays cfg (Nat.pred n)) /\
  (forall k i, (i < k)%nat ->
     delays cfg k !! i = Some (backoff_factor cfg * inject_Z (2 ^ Z.of_nat i))%Q) /\
  (forall k body,
     (k <= r)%nat ->
     (forall i, (i < k)%nat -> fails i (world s)) ->
     attempt k (world s) = Ok body ->
     fetch_page_with cfg url params s = Ret body (after (S k) s)) /\
  ((forall i, (i <= r)%nat -> fails i (world s)) ->
   fetch_page_with cfg url params s = Ret "" (after (S r) s)) /\
  (forall body,
     retries cfg = 3 ->
     fails 0%nat (world s) ->
     fails 1%nat (world s) ->
     attempt 2%nat (world s) = Ok body ->
     exists s' ds,
       fetch_page_with cfg url params s = Ret body s' /\
       requested s' = requested s ++ [url; url; url] /\
       slept s' = slept s ++ ds /\
       (total_delay ds == backoff_factor cfg * (1 + 2))%Q) /\
  (forall cfg' : RetryConfig,
     (0 <= backoff_factor cfg')%Q ->
     0 <= retries cfg' <= 1024 ->
     (backoff_factor cfg' * inject_Z (2 ^ (retries cfg' - 1)) <= one_day)%Q ->
     forall i, (i < Z.to_nat (retries cfg'))%nat -> sleeps (W := W) cfg' i).
Proof.
  intros Hr Hsleep r attempt fails after.
  split; [by apply fetch_page_with_bounded |].
  split; [done |].
  split; [by apply delays_lookup |].
  split.
  { intros k body Hk Hfail Hok. apply fetch_page_with_success; try done.
    intros i Hi. apply Hsleep. unfold r in Hk. lia. }
  split; [intros Hfail; by apply fetch_page_with_exhaust |].
  split.
  - intros body H3 Hf0 Hf1 Hok.
    exists (after 3%nat s), (delays cfg 2).
    split; [| split; [done | split; [done |]]].
    + apply fetch_page_with_success; [done | lia | | | done].
      * intros i Hi. apply Hsleep. lia.
      * intros [|[|i]] Hi; [done | done | lia].
    + apply total_delay_two.
  - intros cfg' Hbf Hr' Hday i Hi.
    apply sleeps_within_a_day; [done | lia |].
    eapply Qle_trans; [| exact Hday].
    rewrite !(Qmult_comm (backoff_factor cfg')).
    apply Qmult_le_compat_r; [| done].
    rewrite <- Zle_Qle. apply Z.pow_le_mono_r; lia.
Qed.

(** C3.  On the summaries of a search page the detail pass returns:
    summary after summary, a summary without a details URL is kept
    and nothing is fetched, an empty fetch keeps the summary without
    a ["details"] key, a non-empty fetch attaches the parsed page
    under ["details"].  No summary is dropped, the pass reaches
    every summary, and the crawl goes on as after any other page:
    the records of the page are accumulated and the next page is
    fetched unless [max_pages] is reached. *)
Theorem detail_fetch_failure_is_local
    (html base_url : string) (cs : list record) (s : Env W) :
  CompanyParser.parse_company_list html base_url = Ok cs ->
  exists cs' s',
    attach_details cs s = Ret cs' s' /\
    detail_pass cs s cs' s' /\
    length cs' = length cs /\
    Forall2 (fun c c' : record =>
               (c' = c /\ c' !! "details" = None) \/
               exists d, c' = <["details" := d]> c) cs cs' /\
    forall query region language max_pages fuel page acc url (s0 : Env W),
      company_url base_url query region language page = Ok url ->
      fetch_page url s0 = Ret html s ->
      html <> "" ->
      cs <> [] ->
      scrape_company_loop base_url query region language max_pages true
        (S fuel) page acc s0
      = if limit_reached max_pages page then Ret (acc ++ cs') s'
        else scrape_company_loop base_url query region language max_pages true
               fuel (page + 1) (acc ++ cs') s'.
Proof.
  intros Hparse. pose proof (parse_company_list_shape _ _ _ Hparse) as Hshape.
  destruct (attach_details_pass cs s Hshape) as (cs' & s' & Hrun & Hpass).
  exists cs', s'. split; [done |]. split; [done |].
  split; [by eapply detail_pass_length |].
  split; [by eapply detail_pass_outcomes |].
  intros query region language max_pages fuel page acc url s0 Hu Hf Hne Hcs.
  cbn [scrape_company_loop]. unfold mbind, M_bind.
  change (build_search_url base_url query "company" region language page)
    with (company_url base_url query region language page).
  unfold lift at 1. rewrite Hu, Hf.
  apply truthy_true in Hne. rewrite Hne. cbn [negb].
  unfold lift. rewrite Hparse. destruct cs as [|c cs]; [done |].
  cbn [truthy_list negb]. rewrite Hrun.
  by destruct (limit_reached max_pages page).
Qed.

(** C10.  The detail pass changes a summary at the ["details"] key
    only and keeps the order of the summaries.  A company crawl that
    returns has visited the pages 1, 2, ... in the states of its
    run; every visited page is a page of records that
    [parse_company_list] extracted from its text, what is kept of
    it agrees with those records position by position on every key
    but ["details"], and the output is the concatenation of what is
    kept of the visited pages, in page order. *)
Theorem detail_pass_changes_only_details
    (base_url query region language : string) (max_pages : Z)
    (include_details : bool) (fuel : nat) (s : Env W) out s' :
  scrape_company_mode base_url query region language max_pages
    include_details fuel s = Ret out s' ->
  (forall cs s1 cs' s2,
     attach_details cs s1 = Ret cs' s2 ->
     Forall2 (fun c c' : record => forall k, k <> "details" -> c' !! k = c !! k)
       cs cs') /\
  exists vs : list visit,
    visits (company_url base_url query region language)
      (company_extract base_url) (company_post include_details) max_pages
      1 s vs s' /\
    out = concat (kept <$> vs) /\
    page_no <$> vs = (fun j : nat => 1 + Z.of_nat j) <$> seq 0 (length vs) /\
    Forall (fun v =>
              CompanyParser.parse_company_list (page_html v) base_url
                = Ok (extracted v) /\
              extracted v <> [] /\
              Forall2 (fun c c' : record =>
                         forall k, k <> "details" -> c' !! k = c !! k)
                (extracted v) (kept v)) vs.
Proof.
  intros Hrun. split; [intros cs s1 cs' s2; apply attach_details_frame |].
  unfold scrape_company_mode in Hrun. rewrite scrape_company_loop_eq in Hrun.
  apply crawl_loop_visits in Hrun as (vs & Hvs & ->).
  exists vs. split; [done |]. split; [done |].
  destruct (visits_pages _ _ _ _ same_but_details 1 s vs s'
              (company_post_frame include_details) Hvs) as (Hno & Hall & _).
  split; [done |].
  eapply Forall_impl; [exact Hall |].
  intros v (_ & Hx & Hne & Hsame). done.
Qed.

End Claims.

Section ParserClaims.
Import PyStr Utils CompanyParser.
Context {E : Type} `{!Soup E} `{!PyRuntime}.

(** C4, amended.  For a non-empty address text the breakdown is
    positional over the trimmed comma-separated pieces that are not
    empty: the first part is the street; of the second part the
    first token is the postal code and the other tokens, joined by
    single spaces, the city (absent when there are none); with three
    parts or more the last token of the last part, in upper case, is
    the country code.  With two parts the postal code is present,
    with three the country code.  [address_breakdown] never raises,
    and [parse_company_details] returns a dictionary whose address
    is this breakdown. *)
Theorem address_breakdown_positional (address_full : string) :
  address_full <> "" ->
  let parts := Spec.address_parts address_full in
  (exists a,
     address_breakdown address_full = Ok a /\
     CompanyAddress.full a = Some address_full /\
     CompanyAddress.street a = parts !! 0%nat /\
     CompanyAddress.postal_code a = (parts !! 1%nat ≫= fun p => head (split_ws p)) /\
     CompanyAddress.city a =
       (parts !! 1%nat ≫= fun p => or_none (join " " (tail (split_ws p)))) /\
     CompanyAddress.country_code a =
       (if 3 <=? len parts
        then upper <$> (last parts ≫= fun p => last (split_ws p))
        else None) /\
     (2 <= len parts -> is_Some (CompanyAddress.postal_code a)) /\
     (3 <= len parts -> is_Some (CompanyAddress.country_code a))) /\
  Spec.address_parts "Hauptstr. 1, 12345 Berlin, Germany"
    = ["Hauptstr. 1"; "12345 Berlin"; "Germany"] /\
  address_breakdown "Hauptstr. 1, 12345 Berlin, Germany"
    = Ok {| CompanyAddress.street := Some "Hauptstr. 1";
            CompanyAddress.postal_code := Some "12345";
            CompanyAddress.city := Some "Berlin";
            CompanyAddress.country_code := Some (upper "Germany");
            CompanyAddress.full := Some "Hauptstr. 1, 12345 Berlin, Germany" |} /\
  (forall text, exists a, address_breakdown text = Ok a) /\
  (forall html company_id, exists d a,
     parse_company_details html company_id = Ok (VDict d) /\
     address_breakdown
       (_extract_text
          (or_tag (select_one "[data-test='company-address']" (parse_html html))
             (or_tag (select_one "address" (parse_html html))
                (select_one ".address" (parse_html html))))) = Ok a /\
     d !! "address" = Some (VDict (CompanyAddress.asdict a))).
Proof.
  intros Hne parts.
  split; [by apply address_breakdown_fields |].
  split; [reflexivity |]. split; [reflexivity |].
  split; [apply address_breakdown_total | apply parse_company_details_address].
Qed.


(** C6.  A contact whose extracted name is not empty gets the first
    token of the name as [first_name]; with two tokens or more the
    other tokens, joined by single spaces, are the [last_name], with
    one token the [last_name] stays absent.  ["Jane Doe Smith"]
    gives ["Jane"] and ["Doe Smith"]; ["Cher"] gives ["Cher"] and no
    last name. *)
Theorem contact_name_split (block : E) :
  let full_name := _extract_text (select_one "h3, h4, .name" block) in
  full_name <> "" ->
  exists c,
    contact_of_block block = Ok c /\
    (exists tok rest,
       split_ws full_name = tok :: rest /\
       CompanyContact.first_name c = Some tok /\
       CompanyContact.last_name c =
         if truthy_list rest then Some (join " " rest) else None) /\
    (full_name = "Jane Doe Smith" ->
     CompanyContact.first_name c = Some "Jane" /\
     CompanyContact.last_name c = Some "Doe Smith") /\
    (full_name = "Cher" ->
     CompanyContact.first_name c = Some "Cher" /\
     CompanyContact.last_name c = None).
Proof.
  intros full_name Hne.
  destruct (_extract_text_normalized (select_one "h3, h4, .name" block))
    as [raw Hraw].
  assert (Hsplit : exists tok rest,
            split_ws full_name = tok :: rest /\
            split_name full_name =
              Ok (Some tok, if truthy_list rest then Some (join " " rest) else None)).
  { subst full_name. rewrite Hraw in *.
    destruct (split_name_normalized raw Hne) as (tok & rest & H1 & _ & H2).
    eauto. }
  destruct Hsplit as (tok & rest & Htok & Hname).
  unfold contact_of_block. fold full_name. rewrite Hname. cbn [mbind result_bind].
  eexists. split; [reflexivity |].
  cbn [CompanyContact.first_name CompanyContact.last_name].
  split; [by exists tok, rest |].
  split; intros Heq; rewrite Heq in Htok; injection Htok as <- <-; done.
Qed.

(** C7.  The record of a card on which neither address selector
    matches has an address whose [full] is the empty string, not
    [None]; [parse_company_details], in the same situation, gives
    [None]. *)
Theorem list_address_full_is_empty_string
    (base_url : string) (card : E) (r : record) :
  select_one "[data-test='company-address']" card = None ->
  select_one ".address" card = None ->
  card_summary base_url card = Ok r ->
  (exists a,
     r !! "address" = Some (VDict a) /\
     a !! "full" = Some (VStr "")) /\
  (forall html company_id,
     select_one "[data-test='company-address']" (parse_html html) = None ->
     select_one "address" (parse_html html) = None ->
     select_one ".address" (parse_html html) = None ->
     exists d a,
       parse_company_details html company_id = Ok (VDict d) /\
       d !! "address" = Some (VDict a) /\
       a !! "full" = Some VNone).
Proof.
  intros H1 H2 Hr. split.
  - pose proof (card_summary_fields base_url card) as Hf.
    destruct (Spec.details_url_of base_url card) as [u|e]; [| congruence].
    destruct Hf as (r' & cid & Hr' & _ & _ & _ & _ & Haddr).
    assert (r' = r) as -> by congruence.
    rewrite H1, H2 in Haddr. eexists. split; [exact Haddr |].
    reflexivity.
  - intros html company_id Hd1 Hd2 Hd3.
    destruct (parse_company_details_address html company_id)
      as (d & a & Hd & Ha & Haddr).
    rewrite Hd1, Hd2, Hd3 in Ha. injection Ha as <-.
    eexists d, _. split; [done |]. split; [exact Haddr |]. reflexivity.
Qed.

End ParserClaims.

Section UtilityClaims.
Import PyStr Utils JsonExporter.

(** C8.  [build_search_url] is a function of its arguments alone:
    the URL is the base joined with the path [/lang/segment/],
    followed by [?] and the encoding of [q], [page] and [country];
    the segment is [firmen] for the mode [company] and [produkte]
    for any other, the language [de] for [de] and [en] for any
    other.  The mode [product] with the language [fr] gives
    [/en/produkte/].  What [urljoin] raises on the base is raised. *)
Theorem build_search_url_segments `{!PyRuntime}
    (base_url query mode region language : string) (page : Z) :
  let mode_segment := if decide (mode = "company") then "firmen" else "produkte" in
  let lang_segment := if decide (language = "de") then "de" else "en" in
  let encoded :=
    urlencode [("q", VStr query); ("page", VInt page); ("country", VStr region)] in
  let joined_with path :=
    match urljoin base_url path with
    | Ok full_url => Ok (full_url +:+ "?" +:+ encoded)
    | Raise e => Raise e
    end in
  build_search_url base_url query mode region language page
    = joined_with ("/" +:+ lang_segment +:+ "/" +:+ mode_segment +:+ "/") /\
  build_search_url base_url query "company" region "de" page
    = joined_with "/de/firmen/" /\
  build_search_url base_url query "product" region "fr" page
    = joined_with "/en/produkte/".
Proof.
  intros mode_segment lang_segment encoded joined_with. split; [| done].
  unfold build_search_url, mode_segment, lang_segment, encoded, joined_with.
  destruct (String.eqb_spec mode "company"), (String.eqb_spec language "de");
    repeat case_decide; done.
Qed.

(** C9.  The payload holds the records, in order, under ["data"],
    and under ["meta"] their number as [record_count] and, as
    [exported_at], a timestamp that ends in [Z] and reads as the
    date and time of the clock in ISO-8601 form;
    [export_to_json] stores this payload at the path.  Three
    records give a count of 3. *)
Theorem export_payload_counts_records
    (utcnow : datetime) (records : list value) (path : string)
    (fs : gmap string value) :
  Spec.valid_datetime utcnow = true ->
  let p := payload utcnow records in
  export_to_json utcnow records path fs !! path = Some (VDict p) /\
  p !! "data" = Some (VList records) /\
  (exists meta stamp,
     p !! "meta" = Some (VDict meta) /\
     meta !! "record_count" = Some (VInt (Z.of_nat (length records))) /\
     meta !! "exported_at" = Some (VStr stamp) /\
     Spec.read_utc_timestamp stamp = Some utcnow /\
     is_iso8601_utc stamp = true /\
     endswith_char "Z" stamp = true) /\
  (forall r1 r2 r3, exists meta,
     payload utcnow [r1; r2; r3] !! "meta" = Some (VDict meta) /\
     meta !! "record_count" = Some (VInt 3) /\
     payload utcnow [r1; r2; r3] !! "data" = Some (VList [r1; r2; r3])).
Proof.
  intros Hvalid p. split; [apply lookup_insert_eq |]. split; [reflexivity |]. split.
  - eexists _, _. split; [reflexivity |]. split; [reflexivity |].
    split; [reflexivity |]. split; [by apply read_isoformat |].
    split; [apply isoformat_is_iso8601 | apply endswith_char_append].
  - intros r1 r2 r3. eexists. split; [reflexivity |]. split; reflexivity.
Qed.

End UtilityClaims.

(** * The claims on the example pages *)

Section Witnesses.
Import PyStr Utils Spec Main Examples.
#[local] Existing Instances Fake.runtime Examples.soup Fake.site Fake.scripted.


Lemma company_records_parsed :
  CompanyParser.parse_company_list "<html>results</html>" base = Ok company_records.
Proof. vm_cast_no_check (eq_refl (Ok (A := list record) company_records)). Qed.

Lemma acme_card_summary :
  CompanyParser.card_summary base acme_card = Ok (summary_of acme_card).
Proof. vm_cast_no_check (eq_refl (Ok (A := record) (summary_of acme_card))). Qed.



Lemma company_crawl_returns :
  scrape_company_mode base "Aufzug" "DE" "de" 0 true 3 start
    = Ret company_crawl_output company_crawl_end.
Proof. vm_cast_no_check (eq_refl company_crawl). Qed.


Lemma fetch_page_retries_with_backoff_witness :
  0 <= retries default_retry_config /\
  fetch_page_with default_retry_config "https://www.wlw.de/" None flaky_start
    = Ret "<html>results</html>"
        {| world := [];
           requested :=
             ["https://www.wlw.de/"; "https://www.wlw.de/"; "https://www.wlw.de/"];
           slept := [(1 # 2) * inject_Z 1; (1 # 2) * inject_Z 2]%Q |}.
Proof.
  split; [done |].
  pose proof (fetch_page_retries_with_backoff default_retry_config
                "https://www.wlw.de/" None flaky_start ltac:(done)
                (fun i Hi => default_sleeps i Hi)) as H.
  cbv zeta in H. destruct H as (_ & _ & _ & Hsuccess & _).
  apply (Hsuccess 2%nat); [cbn; lia | | reflexivity].
  intros [|[|i]] Hi; [by eexists | by eexists | lia].
Defined.

(** C2 as worded fails for a negative backoff factor: the first
    failure is followed by a sleep of a negative delay, whose
    [ValueError] leaves [fetch_page], although the third attempt
    would have succeeded. *)
Lemma fetch_page_negative_backoff_counterexample :
  0 <= retries negative_backoff /\
  Spec.attempt "https://www.wlw.de/" None (timeout negative_backoff) 2
    (world flaky_start) = Ok "<html>results</html>" /\
  fetch_page_with negative_backoff "https://www.wlw.de/" None flaky_start
    = Exc ValueError
        {| world :=
             [Ok {| status_code := 503; text := "unavailable" |};
              Ok {| status_code := 200; text := "<html>results</html>" |}];
           requested := ["https://www.wlw.de/"];
           slept := [] |}.
Proof. split; [done |]. split; reflexivity. Qed.

Lemma detail_fetch_failure_is_local_witness :
  CompanyParser.parse_company_list "<html>results</html>" base = Ok company_records /\
  exists cs' s',
    attach_details company_records start = Ret cs' s' /\
    length cs' = length company_records /\
    ((fun c : record => bool_decide (is_Some (c !! "details"))) <$> cs')
      = [true; false].
Proof.
  split; [exact company_records_parsed |].
  destruct (detail_fetch_failure_is_local _ _ company_records start
              company_records_parsed) as (cs' & s' & Hrun & _ & Hlen & _).
  exists cs', s'. split; [exact Hrun |]. split; [exact Hlen |].
  assert (Hcs : company_records_detailed = cs')
    by (unfold company_records_detailed; rewrite Hrun; reflexivity).
  rewrite <- Hcs. vm_compute. reflexivity.
Defined.

Lemma address_breakdown_positional_witness :
  "Hauptstr. 1, 12345 Berlin, Germany" <> "" /\
  CompanyParser.address_breakdown "Hauptstr. 1, 12345 Berlin, Germany"
    = Ok {| CompanyAddress.street := Some "Hauptstr. 1";
            CompanyAddress.postal_code := Some "12345";
            CompanyAddress.city := Some "Berlin";
            CompanyAddress.country_code := Some "GERMANY";
            CompanyAddress.full := Some "Hauptstr. 1, 12345 Berlin, Germany" |}.
Proof.
  split; [done |].
  pose proof (address_breakdown_positional (E := Fake.tag)
                "Hauptstr. 1, 12345 Berlin, Germany" ltac:(done)) as H.
  cbv zeta in H. destruct H as (_ & _ & Hexample & _). exact Hexample.
Defined.

(** C4 as worded fails on an address with an empty piece: the code
    drops the piece, so that the postal code is taken from what the
    wording calls the third part and no country code is derived. *)
Lemma address_parts_counterexample :
  CompanyParser.address_breakdown "Hauptstr. 1,, Berlin"
    = Ok {| CompanyAddress.street := Some "Hauptstr. 1";
            CompanyAddress.postal_code := Some "Berlin";
            CompanyAddress.city := None;
            CompanyAddress.country_code := None;
            CompanyAddress.full := Some "Hauptstr. 1,, Berlin" |} /\
  address_as_worded "Hauptstr. 1,, Berlin"
    = {| CompanyAddress.street := Some "Hauptstr. 1";
         CompanyAddress.postal_code := None;
         CompanyAddress.city := None;
         CompanyAddress.country_code := Some "BERLIN";
         CompanyAddress.full := Some "Hauptstr. 1,, Berlin" |} /\
  CompanyParser.address_breakdown "Hauptstr. 1,, Berlin"
    <> Ok (address_as_worded "Hauptstr. 1,, Berlin").
Proof. split; [reflexivity |]. split; [reflexivity |]. discriminate. Qed.



Lemma contact_name_split_witness :
  (exists c,
     CompanyParser.contact_of_block jane_block = Ok c /\
     CompanyContact.first_name c = Some "Jane" /\
     CompanyContact.last_name c = Some "Doe Smith") /\
  (exists c,
     CompanyParser.contact_of_block cher_block = Ok c /\
     CompanyContact.first_name c = Some "Cher" /\
     CompanyContact.last_name c = None).
Proof.
  split.
  - assert (Hname : CompanyParser._extract_text
                      (select_one "h3, h4, .name" jane_block) <> "")
      by (vm_compute; discriminate).
    destruct (contact_name_split jane_block Hname) as (c & Hc & _ & Hjane & _).
    exists c. split; [exact Hc |]. apply Hjane. vm_compute. reflexivity.
  - assert (Hname : CompanyParser._extract_text
                      (select_one "h3, h4, .name" cher_block) <> "")
      by (vm_compute; discriminate).
    destruct (contact_name_split cher_block Hname) as (c & Hc & _ & _ & Hcher).
    exists c. split; [exact Hc |]. apply Hcher. vm_compute. reflexivity.
Defined.

Lemma list_address_full_is_empty_string_witness :
  CompanyParser.card_summary base acme_card = Ok (summary_of acme_card) /\
  exists a,
    summary_of acme_card !! "address" = Some (VDict a) /\
    a !! "full" = Some (VStr "").
Proof.
  split; [exact acme_card_summary |].
  assert (H1 : select_one "[data-test='company-address']" acme_card = None)
    by reflexivity.
  assert (H2 : select_one ".address" acme_card = None) by reflexivity.
  destruct (list_address_full_is_empty_string base acme_card
              (summary_of acme_card) H1 H2 acme_card_summary)
    as [Hcard _].
  exact Hcard.
Defined.

Lemma export_payload_counts_records_witness :
  valid_datetime noon = true /\
  JsonExporter.isoformat noon +:+ "Z" = "2024-03-09T12:00:05.000250Z" /\
  exists meta stamp,
    JsonExporter.payload noon [VNone; VNone; VNone] !! "meta"
      = Some (VDict meta) /\
    meta !! "record_count" = Some (VInt 3) /\
    meta !! "exported_at" = Some (VStr stamp) /\
    read_utc_timestamp stamp = Some noon.
Proof.
  split; [reflexivity |]. split; [reflexivity |].
  destruct (export_payload_counts_records noon [VNone; VNone; VNone]
              "data/sample_output.json" ∅ eq_refl)
    as (_ & _ & (meta & stamp & Hmeta & Hcount & Hstamp & Hread & _) & _).
  exists meta, stamp. split; [exact Hmeta |]. split; [exact Hcount |].
  split; [exact Hstamp | exact Hread].
Defined.

Lemma detail_pass_changes_only_details_witness :
  scrape_company_mode base "Aufzug" "DE" "de" 0 true 3 start
    = Ret company_crawl_output company_crawl_end /\
  length company_crawl_output = 2%nat /\
  exists vs : list visit,
    visits (company_url base "Aufzug" "DE" "de") (company_extract base)
      (company_post true) 0 1 start vs company_crawl_end /\
    company_crawl_output = concat (kept <$> vs).
Proof.
  split; [exact company_crawl_returns |].
  split; [vm_compute; reflexivity |].
  destruct (detail_pass_changes_only_details base "Aufzug" "DE" "de" 0 true 3
              start _ _ company_crawl_returns) as [_ (vs & Hvs & Hout & _)].
  by exists vs.
Defined.

End Witnesses.

(** * Further properties of the code *)

Section NormalizeProps.
Import PyStr Utils Props.

Lemma split_ws_nil_iff s :
  split_ws s = [] <-> forallb_str isspace s = true.
Proof.
  induction s as [|c s IH]; cbn; [done |].
  destruct (isspace c) eqn:Hc; cbn; [exact IH |].
  split; [| done].
  destruct (at_boundary s); [done |]. by destruct (split_ws s).
Qed.

Lemma join_tokens_empty ts :
  Forall token ts -> join " " ts = "" -> ts = [].
Proof. apply join_nil_inv. Qed.

Lemma token_not_boundary t r : token t -> at_boundary (t +:+ r) = false.
Proof.
  intros [Hne Hall]. destruct t as [|c t]; [done |].
  rewrite append_cons. cbn in *. apply andb_prop in Hall as [Hc _].
  by apply negb_true_iff.
Qed.

Lemma well_spaced_from_token t r :
  forallb_str (fun c => negb (isspace c)) t = true ->
  well_spaced_from (t +:+ r) = well_spaced_from r.
Proof.
  induction t as [|c t IH]; intros Hall; [done |].
  cbn in Hall. apply andb_prop in Hall as [Hc Ht].
  rewrite append_cons. cbn [well_spaced_from].
  apply negb_true_iff in Hc. rewrite Hc. cbn. by apply IH.
Qed.

Lemma join_cons_boundary t ts :
  token t -> at_boundary (join " " (t :: ts)) = false.
Proof.
  intros Ht. cbn [join]. destruct ts as [|t' ts].
  - rewrite <- (append_nil_r t). by apply token_not_boundary.
  - by apply token_not_boundary.
Qed.

Lemma well_spaced_from_join ts :
  Forall token ts -> well_spaced_from (join " " ts) = true.
Proof.
  induction 1 as [|t ts Ht Hts IH]; [done |].
  cbn [join]. destruct ts as [|t' ts].
  - rewrite <- (append_nil_r t). rewrite well_spaced_from_token; [done | apply Ht].
  - rewrite well_spaced_from_token by apply Ht.
    rewrite (append_cons " " ""), append_nil_l. cbn [well_spaced_from].
    change (isspace " ") with true. cbn iota.
    inversion Hts as [|? ? Ht' _]; subst.
    rewrite (join_cons_boundary t' ts Ht'), IH. reflexivity.
Qed.

Lemma normalize_whitespace_well_spaced_from (text : string) :
  well_spaced_from (normalize_whitespace text) = true.
Proof.
  rewrite normalize_whitespace_join. apply well_spaced_from_join, split_ws_tokens.
Qed.

(** X1.  [normalize_whitespace] is idempotent, keeps the tokens of
    its argument, and returns the empty string exactly for the texts
    made of whitespace only (the empty text among them). *)
Theorem normalize_whitespace_idempotent (text : string) :
  normalize_whitespace (normalize_whitespace text) = normalize_whitespace text /\
  split_ws (normalize_whitespace text) = split_ws text /\
  (normalize_whitespace text = "" <-> forallb_str isspace text = true).
Proof.
  split; [| split].
  - rewrite (normalize_whitespace_join (normalize_whitespace text)).
    by rewrite split_ws_normalize, <- normalize_whitespace_join.
  - apply split_ws_normalize.
  - rewrite normalize_whitespace_join, <- split_ws_nil_iff. split.
    + apply join_tokens_empty, split_ws_tokens.
    + by intros ->.
Qed.

(** X2.  The result of [normalize_whitespace] has no whitespace at
    either end, and its only whitespace characters are single spaces,
    each between two characters that are not whitespace. *)
Theorem normalize_whitespace_well_spaced (text : string) :
  well_spaced (normalize_whitespace text) = true.
Proof.
  rewrite normalize_whitespace_join. unfold well_spaced.
  pose proof (split_ws_tokens text) as Hts.
  rewrite (well_spaced_from_join _ Hts), andb_true_r.
  destruct Hts as [|t ts Ht Hts]; [done |].
  by rewrite (join_cons_boundary t ts Ht).
Qed.

End NormalizeProps.

Section FetchProps.
Import PyStr Utils Spec Props.
Context {W : Type} `{!Transport W}.

Lemma total_delay_app ds1 ds2 :
  (total_delay (ds1 ++ ds2) == total_delay ds1 + total_delay ds2)%Q.
Proof.
  unfold total_delay. induction ds1 as [|d ds1 IH]; cbn [foldr app].
  - ring.
  - rewrite IH. ring.
Qed.

Lemma delays_succ cfg k :
  delays cfg (S k) =
    delays cfg k ++ [(backoff_factor cfg * inject_Z (2 ^ Z.of_nat k))%Q].
Proof. unfold delays. by rewrite seq_S, fmap_app. Qed.

(** The delays before the retries [0 .. k-1] add up to
    [backoff_factor * (2^k - 1)]. *)
Lemma total_delay_geometric cfg k :
  (total_delay (delays cfg k)
   == backoff_factor cfg * (inject_Z (2 ^ Z.of_nat k) - 1))%Q.
Proof.
  induction k as [|k IH].
  - unfold total_delay, delays. cbn [seq fmap list_fmap foldr].
    change (inject_Z (2 ^ Z.of_nat 0)) with 1%Q. ring.
  - rewrite delays_succ, total_delay_app, IH.
    replace (2 ^ Z.of_nat (S k)) with (2 * 2 ^ Z.of_nat k)
      by (rewrite Nat2Z.inj_succ, Z.pow_succ_r; lia).
    rewrite inject_Z_mult. unfold total_delay. cbn [foldr].
    change (inject_Z 2) with 2%Q. ring.
Qed.

(** X3.  With a negative number of retries [fetch_page] makes no
    request, does not sleep and returns the empty string. *)
Theorem fetch_page_negative_retries
    (cfg : RetryConfig) (url : string)
    (params : option (list (string * value))) (s : Env W) :
  retries cfg < 0 ->
  fetch_page_with cfg url params s = Ret "" s.
Proof.
  intros Hneg. unfold fetch_page_with.
  replace (Z.to_nat (retries cfg + 1)) with 0%nat by lia.
  cbn. replace (0 <=? retries cfg) with false; [done |].
  symmetry. apply Z.leb_gt. lia.
Qed.

(** X4.  With [retries >= 0] and delays that are slept, a fetch
    whose attempts [0 .. k-1] fail and whose attempt [k] is the first
    to succeed, or whose attempts all fail with [k = retries], makes
    [k + 1] requests and sleeps [k] times, for
    [backoff_factor * (2^k - 1)] in total: nothing when the first
    attempt succeeds, [backoff_factor * (2^retries - 1)] when every
    attempt fails. *)
Theorem fetch_page_total_sleep
    (cfg : RetryConfig) (url : string)
    (params : option (list (string * value))) (s : Env W) :
  0 <= retries cfg ->
  (forall i, (i < Z.to_nat (retries cfg))%nat -> sleeps (W := W) cfg i) ->
  exists body k ds,
    (k <= Z.to_nat (retries cfg))%nat /\
    (forall i, (i < k)%nat -> fails url params (timeout cfg) i (world s)) /\
    (attempt url params (timeout cfg) k (world s) = Ok body \/
     (k = Z.to_nat (retries cfg) /\
      fails url params (timeout cfg) k (world s) /\ body = "")) /\
    fetch_page_with cfg url params s
      = Ret body (after_attempts url params (timeout cfg) cfg (S k) s) /\
    requested (after_attempts url params (timeout cfg) cfg (S k) s)
      = requested s ++ replicate (S k) url /\
    slept (after_attempts url params (timeout cfg) cfg (S k) s) = slept s ++ ds /\
    length ds = k /\
    (total_delay ds
     == backoff_factor cfg * (inject_Z (2 ^ Z.of_nat k) - 1))%Q.
Proof.
  intros Hr Hsleep.
  assert (Hlen : forall k, length (delays cfg k) = k)
    by (intros k; unfold delays; by rewrite length_fmap, length_seq).
  destruct (first_success_or_all_fail cfg url params
              (S (Z.to_nat (retries cfg))) (world s))
    as [(k & body & Hk & Hfail & Hok) | Hall].
  - exists body, k, (delays cfg k).
    split; [lia |]. split; [done |]. split; [by left |].
    split.
    { apply fetch_page_with_success; [done | lia | | done | done].
      intros i Hi. apply Hsleep. lia. }
    split; [done |]. split; [done |]. split; [done |].
    apply total_delay_geometric.
  - exists "", (Z.to_nat (retries cfg)), (delays cfg (Z.to_nat (retries cfg))).
    split; [lia |]. split; [intros i Hi; apply Hall; lia |].
    split; [right; split; [done |]; split; [apply Hall; lia | done] |].
    split.
    { apply fetch_page_with_exhaust; [done | done |].
      intros i Hi. apply Hall. lia. }
    split; [done |]. split; [done |]. split; [done |].
    apply total_delay_geometric.
Qed.

(** X5.  A response whose status is below 400 or from 600 on is
    returned at once: one request, no sleep.  A status from 400 to
    599 counts as a failure like an exception of the transport: when
    every attempt gets such a status and the delays are slept, the
    fetch is retried [retries] times and returns the empty
    string. *)
Theorem fetch_page_http_status
    (cfg : RetryConfig) (url : string)
    (params : option (list (string * value))) (s : Env W) :
  0 <= retries cfg ->
  (forall resp w',
     session_get url params (timeout cfg) (world s) = (Ok resp, w') ->
     ~ (400 <= status_code resp < 600) ->
     fetch_page_with cfg url params s
       = Ret (text resp)
           {| world := w'; requested := requested s ++ [url]; slept := slept s |}) /\
  ((forall i, (i < Z.to_nat (retries cfg))%nat -> sleeps (W := W) cfg i) ->
   (forall i, (i <= Z.to_nat (retries cfg))%nat ->
      exists resp,
        (session_get url params (timeout cfg)
           (world_after url params (timeout cfg) i (world s))).1 = Ok resp /\
        400 <= status_code resp < 600) ->
   fetch_page_with cfg url params s
     = Ret "" (after_attempts url params (timeout cfg) cfg
                 (S (Z.to_nat (retries cfg))) s)).
Proof.
  intros Hr. split.
  - intros resp w' Hget Hstatus.
    rewrite (fetch_page_with_success cfg url params s 0 (text resp));
      [| done | lia | intros i Hi; lia | intros i Hi; lia |].
    + unfold after_attempts, delays. cbn. rewrite Hget. cbn.
      by rewrite app_nil_r.
    + unfold attempt. cbn. rewrite Hget. cbn.
      unfold response_text, raise_for_status. cbn.
      destruct (400 <=? status_code resp) eqn:H1;
        destruct (status_code resp <? 600) eqn:H2; cbn; try done.
      apply Z.leb_le in H1. apply Z.ltb_lt in H2. lia.
  - intros Hsleep Hall. apply fetch_page_with_exhaust; [done | done |].
    intros i Hi. destruct (Hall i Hi) as (resp & Hresp & Hlo & Hhi).
    exists (HTTPError (status_code resp)). unfold attempt. rewrite Hresp.
    unfold response_text, raise_for_status. cbn.
    replace (400 <=? status_code resp) with true
      by (symmetry; apply Z.leb_le; lia).
    replace (status_code resp <? 600) with true
      by (symmetry; apply Z.ltb_lt; lia).
    reflexivity.
Qed.

End FetchProps.

Section TextProps.
Import PyStr Utils Props.

Lemma or_none_absent_or_text s : absent_or_text (Some (of_opt_str (or_none s))).
Proof.
  destruct s as [|c s]; [by left |]. right. by exists (String c s).
Qed.

Lemma startswith_refl_app old rest : startswith old (old +:+ rest) = true.
Proof.
  induction old as [|c old IH]; [done |].
  rewrite append_cons. cbn. by rewrite Ascii.eqb_refl, IH.
Qed.

Lemma remove_go_skip old t rest :
  remove_go old (String.length t) (t +:+ rest) = remove_go old 0 rest.
Proof.
  induction t as [|c t IH]; [done |]. rewrite append_cons. cbn. exact IH.
Qed.

(** Removing [old] where it is a prefix. *)
Lemma remove_all_prefix old rest :
  old <> "" -> remove_all old (old +:+ rest) = remove_all old rest.
Proof.
  intros Hne. unfold remove_all. destruct old as [|c old]; [done |].
  rewrite append_cons. cbn [remove_go].
  change (String c (old +:+ rest)) with (String c old +:+ rest).
  rewrite startswith_refl_app. cbn [String.length Nat.pred].
  apply remove_go_skip.
Qed.

(** Removing [old] where it does not occur. *)
Lemma remove_all_absent old s :
  contains old s = false -> remove_all old s = s.
Proof.
  unfold remove_all. induction s as [|c s IH]; [done |].
  cbn [contains remove_go]. intros [Hstart Hrest]%orb_false_elim.
  rewrite Hstart. f_equal. by apply IH.
Qed.

End TextProps.

Section CompanyListProps.
Import PyStr Utils CompanyParser Props.
Context {E : Type} `{!Soup E} `{!PyRuntime}.

Lemma card_summary_shape base_url (card : E) (r : record) :
  card_summary base_url card = Ok r ->
  exists details_url,
    Spec.details_url_of base_url card = Ok details_url /\
    dom r = summary_keys /\
    r !! "founding_year" = Some VNone /\
    r !! "region" = Some VNone /\
    r !! "details_url" = Some (of_opt_str details_url) /\
    r !! "email" =
      Some (of_opt_str
              (or_none (href_without "mailto:"
                          (select_one "a[href^='mailto:']" card)))) /\
    absent_or_text (r !! "name") /\
    absent_or_text (r !! "email") /\
    absent_or_text (r !! "phone_number") /\
    absent_or_text (r !! "homepage") /\
    absent_or_text (r !! "description").
Proof.
  intros Hr. pose proof (card_identity_priority base_url card) as Hid.
  destruct (Spec.details_url_of base_url card) as [details_url|e].
  - destruct Hid as (cid & Hid & _). exists details_url.
    unfold card_summary in Hr. rewrite Hid in Hr. cbn [mbind result_bind] in Hr.
    injection Hr as <-.
    split; [reflexivity |].
    split; [reflexivity |]. split; [reflexivity |]. split; [reflexivity |].
    split; [reflexivity |]. split; [reflexivity |].
    repeat split; apply or_none_absent_or_text.
  - unfold card_summary in Hr. by rewrite Hid in Hr.
Qed.

(** X6.  [parse_company_list] returns one record per card, in the
    order of the cards (none for a page without cards), unless
    [urljoin] raises on the link target of a card: then it raises
    that exception, and it raises nothing else.  Every record has
    exactly the twelve keys of a summary, with [founding_year] and
    [region] set to [None]; its [details_url] is the target of the
    card's link joined with the base URL, or [None] when the card
    has no link with a target. *)
Theorem parse_company_list_one_record_per_card (html base_url : string) :
  let cards :=
    select "[data-test='company-result-card'], article.company-item, div.company-card"
      (parse_html html) in
  match parse_company_list html base_url with
  | Ok rs =>
      length rs = length cards /\
      Forall2 (fun (card : E) (r : record) =>
                 card_summary base_url card = Ok r /\
                 dom r = summary_keys /\
                 r !! "founding_year" = Some VNone /\
                 r !! "region" = Some VNone /\
                 exists details_url,
                   Spec.details_url_of base_url card = Ok details_url /\
                   r !! "details_url" = Some (of_opt_str details_url))
        cards rs
  | Raise e =>
      exists card href,
        In card cards /\
        details_link card ≫= attr "href" = Some href /\
        urljoin base_url href = Raise e
  end /\
  ((forall card href,
      In card cards ->
      details_link card ≫= attr "href" = Some href ->
      exists joined, urljoin base_url href = Ok joined) ->
   exists rs, parse_company_list html base_url = Ok rs).
Proof.
  intros cards. unfold parse_company_list. fold cards.
  assert (Hraise : forall e, mapM (card_summary base_url) cards = Raise e ->
            exists card href,
              In card cards /\
              details_link card ≫= attr "href" = Some href /\
              urljoin base_url href = Raise e).
  { intros e (card & Hin & (href & Hl & Hj)%card_summary_raises)%mapM_Raise_In.
    eauto. }
  split.
  - destruct (mapM (card_summary base_url) cards) as [rs|e] eqn:Hrs;
      [| by apply Hraise].
    apply mapM_Ok_Forall2 in Hrs.
    split; [symmetry; by eapply Forall2_length |].
    eapply Forall2_impl; [exact Hrs |]. intros card r Hr. cbn beta in Hr.
    destruct (card_summary_shape base_url card r Hr)
      as (u & Hu & Hdom & Hfy & Hreg & Hurl & _).
    repeat split; try done. by exists u.
  - intros Hjoin.
    destruct (mapM (card_summary base_url) cards) as [rs|e] eqn:Hrs;
      [by eexists |].
    destruct (Hraise e eq_refl) as (card & href & Hin & Hl & Hj).
    destruct (Hjoin card href Hin Hl) as [joined Hok]. congruence.
Qed.

(** X7.  In every record of [parse_company_list] the fields [name],
    [email], [phone_number], [homepage] and [description] are [None]
    or a string that is not empty. *)
Theorem parse_company_list_text_fields (html base_url : string) (rs : list record) :
  parse_company_list html base_url = Ok rs ->
  Forall (fun r : record =>
            absent_or_text (r !! "name") /\
            absent_or_text (r !! "email") /\
            absent_or_text (r !! "phone_number") /\
            absent_or_text (r !! "homepage") /\
            absent_or_text (r !! "description")) rs.
Proof.
  unfold parse_company_list. intros Hrs%mapM_Ok_Forall2.
  induction Hrs as [|card r cards rs Hr _ IH]; constructor; [| done].
  by destruct (card_summary_shape base_url card r Hr)
    as (u & _ & _ & _ & _ & _ & _ & Hfields).
Qed.

(** X8.  In the record of a card the [email] is [None] when the card
    has no [mailto:] link or the link has no target.  When the
    target is [mailto:] followed by an address in which [mailto:]
    does not occur, the [email] is that address, trimmed, or [None]
    when nothing is left.  An occurrence of [mailto:] inside the
    address is removed as well: [mailto:a@b.de?cc=mailto:c@d.de]
    gives [a@b.de?cc=c@d.de]. *)
Theorem card_email_without_scheme (base_url : string) (card : E) (r : record) :
  card_summary base_url card = Ok r ->
  (select_one "a[href^='mailto:']" card = None -> r !! "email" = Some VNone) /\
  (forall link,
     select_one "a[href^='mailto:']" card = Some link ->
     attr "href" link = None ->
     r !! "email" = Some VNone) /\
  (forall link address,
     select_one "a[href^='mailto:']" card = Some link ->
     attr "href" link = Some ("mailto:" +:+ address) ->
     contains "mailto:" address = false ->
     r !! "email" = Some (of_opt_str (or_none (strip address)))) /\
  (forall link,
     select_one "a[href^='mailto:']" card = Some link ->
     attr "href" link = Some "mailto:a@b.de?cc=mailto:c@d.de" ->
     r !! "email" = Some (VStr "a@b.de?cc=c@d.de")).
Proof.
  intros Hr.
  destruct (card_summary_shape base_url card r Hr)
    as (u & _ & _ & _ & _ & _ & Hemail & _).
  rewrite Hemail. split; [| split; [| split]].
  - intros Hnone. by rewrite Hnone.
  - intros link Hlink Hhref. rewrite Hlink. unfold href_without. by rewrite Hhref.
  - intros link address Hlink Hhref Habsent. rewrite Hlink.
    unfold href_without. rewrite Hhref.
    rewrite remove_all_prefix by done. by rewrite remove_all_absent.
  - intros link Hlink Hhref. rewrite Hlink. unfold href_without.
    rewrite Hhref. reflexivity.
Qed.

End CompanyListProps.

Section DetailsProps.
Import PyStr Utils CompanyParser Props.
Context {E : Type} `{!Soup E} `{!PyRuntime}.

Lemma texts_of_nonempty (items : list E) :
  Forall (fun t => t <> "") (texts_of items).
Proof.
  unfold texts_of. apply Forall_forall. intros t Ht%list_elem_of_In.
  apply filter_In in Ht as [_ Ht]. by apply truthy_true.
Qed.

(** What the details dictionary holds. *)
Lemma parse_company_details_fields (html : string) (company_id : value) :
  exists d products contacts certificates,
    parse_company_details html company_id = Ok (VDict d) /\
    dom d = details_keys /\
    d !! "company_id" = Some company_id /\
    d !! "products" = Some (VList (VStr <$> products)) /\
    d !! "certificates" = Some (VList (VStr <$> certificates)) /\
    d !! "contacts" =
      Some (VList ((fun c => VDict (CompanyContact.asdict c)) <$> contacts)) /\
    Forall (fun t => t <> "") products /\
    Forall (fun t => t <> "") certificates /\
    Forall2 (fun block c => contact_of_block block = Ok c)
      (select "[data-test='contact-person'], .contact-person" (parse_html html))
      contacts.
Proof.
  unfold parse_company_details.
  destruct (address_breakdown_total
    (_extract_text
       (or_tag (select_one "[data-test='company-address']" (parse_html html))
          (or_tag (select_one "address" (parse_html html))
             (select_one ".address" (parse_html html)))))) as [a ->].
  cbn [mbind result_bind].
  destruct (parse_facts_total (parse_html html)) as [[ec fy] ->].
  cbn [mbind result_bind].
  destruct (mapM_total contact_of_block
    (select "[data-test='contact-person'], .contact-person" (parse_html html))
    contact_of_block_total) as [cs Hcs].
  rewrite Hcs. cbn [mbind result_bind].
  eexists _, _, cs, _. split; [reflexivity |].
  split; [reflexivity |]. split; [reflexivity |]. split; [reflexivity |].
  split; [reflexivity |]. split; [reflexivity |].
  split; [apply texts_of_nonempty |]. split.
  - destruct (find_string _ (parse_html html)) as [[s container]|]; [| constructor].
    destruct (truthy s); [apply texts_of_nonempty | constructor].
  - by apply mapM_Ok_Forall2.
Qed.

(** X9.  [parse_company_details] never raises.  Its dictionary has
    exactly the twelve keys of the details, carries the [company_id]
    it was given, and holds lists under [products], [contacts] and
    [certificates]: one contact per contact block, in order, and
    only texts that are not empty as products and certificates. *)
Theorem parse_company_details_shape (html : string) (company_id : value) :
  exists d products contacts certificates,
    parse_company_details html company_id = Ok (VDict d) /\
    dom d = details_keys /\
    d !! "company_id" = Some company_id /\
    d !! "products" = Some (VList (VStr <$> products)) /\
    d !! "certificates" = Some (VList (VStr <$> certificates)) /\
    d !! "contacts" =
      Some (VList ((fun c => VDict (CompanyContact.asdict c)) <$> contacts)) /\
    Forall (fun t => t <> "") products /\
    Forall (fun t => t <> "") certificates /\
    Forall2 (fun block c => contact_of_block block = Ok c)
      (select "[data-test='contact-person'], .contact-person" (parse_html html))
      contacts.
Proof. apply parse_company_details_fields. Qed.

Lemma ascii_digit_value c :
  is_ascii_digit c = true -> 0 <= Z.of_N (N_of_ascii c) - 48 <= 9.
Proof.
  unfold is_ascii_digit. intros [H1 H2]%andb_prop.
  apply N.leb_le in H1, H2. lia.
Qed.

Lemma four_digits_value t :
  len_str t = 4 ->
  forallb_str is_ascii_digit t = true ->
  0 <= digits_value 0 t <= 9999.
Proof.
  unfold len_str. intros Hlen Hall.
  destruct t as [|a [|b [|c [|d [|e t]]]]]; cbn in Hlen; try lia.
  cbn in Hall.
  apply andb_prop in Hall as [Ha Hall]. apply andb_prop in Hall as [Hb Hall].
  apply andb_prop in Hall as [Hc Hall]. apply andb_prop in Hall as [Hd _].
  apply ascii_digit_value in Ha, Hb, Hc, Hd. cbn [digits_value]. lia.
Qed.

(** The founding-year loop: the first token of four [isdigit]
    characters decides; its value when [int] accepts it, and the
    [ValueError] that ends the loop otherwise. *)
Lemma first_year_token tokens :
  first_year tokens =
    match year_token tokens with
    | Some t =>
        if forallb_str is_ascii_digit t then Ok (Some (digits_value 0 t))
        else Raise ValueError
    | None => Ok None
    end.
Proof.
  unfold year_token. induction tokens as [|t ts IH]; [done |].
  cbn [first_year List.find].
  destruct (isdigit t && (len_str t =? 4)) eqn:Ht; [| exact IH].
  unfold int_of_digits. apply andb_prop in Ht as [Hd _].
  unfold isdigit in Hd. apply andb_prop in Hd as [-> _]. cbn [andb].
  by destruct (forallb_str is_ascii_digit t).
Qed.

Lemma year_token_four tokens t :
  year_token tokens = Some t -> len_str t = 4.
Proof.
  unfold year_token. intros [_ Ht]%find_some.
  apply andb_prop in Ht as [_ Ht]. by apply Z.eqb_eq.
Qed.

(** X10.  The founding year is decided by the first token of the
    facts text that consists of four [isdigit] characters: its
    decimal value when all four are ASCII digits, and [None] when one
    is a superscript digit, whatever tokens follow.  A founding year
    lies between 0 and 9999, and there is none when the facts text
    does not contain the founding-year marker. *)
Theorem founding_year_first_four_digit_token (soup : E) :
  exists employee_count founding_year,
    parse_facts soup = Ok (employee_count, founding_year) /\
    (forall y, founding_year = Some y -> 0 <= y <= 9999) /\
    forall s parent,
      find_string
        (fun s => truthy s &&
                  (contains Gruendungsjahr s || contains "Mitarbeiteranzahl" s))
        soup = Some (s, parent) ->
      s <> "" ->
      let text_block := normalize_whitespace (get_text " " false parent) in
      founding_year =
        if contains Gruendungsjahr text_block then
          match year_token (split_ws text_block) with
          | Some t =>
              if forallb_str is_ascii_digit t then Some (digits_value 0 t)
              else None
          | None => None
          end
        else None.
Proof.
  unfold parse_facts.
  destruct (find_string _ soup) as [[s parent]|] eqn:Hfind.
  2:{ eexists _, _. split; [reflexivity |]. split; [done |]. done. }
  destruct s as [|c0 s0].
  { eexists _, _. split; [reflexivity |]. split; [done |].
    intros s parent' [= <- <-] Hne. done. }
  cbn [truthy].
  set (text_block := normalize_whitespace (get_text " " false parent)).
  destruct (contains Gruendungsjahr text_block) eqn:Hg.
  2:{ cbn [mbind result_bind]. eexists _, _. split; [reflexivity |].
      split; [done |]. intros s parent' [= <- <-] _. cbn zeta.
      fold text_block. by rewrite Hg. }
  rewrite first_year_token.
  destruct (year_token (split_ws text_block)) as [t|] eqn:Ht.
  2:{ cbn [mbind result_bind]. eexists _, _. split; [reflexivity |].
      split; [done |]. intros s parent' [= <- <-] _. cbn zeta.
      fold text_block. by rewrite Hg, Ht. }
  destruct (forallb_str is_ascii_digit t) eqn:Hall; cbn [mbind result_bind];
    (eexists _, _; split; [reflexivity |]; split;
     [| intros s parent' [= <- <-] _; cbn zeta; fold text_block;
        by rewrite Hg, Ht, Hall]).
  - intros y [= <-]. apply four_digits_value; [| done].
    by eapply year_token_four.
  - done.
Qed.

Lemma find_contains sub s :
  contains sub s = true ->
  0 <= find sub s /\ startswith sub (drop (Z.to_nat (find sub s)) s) = true.
Proof.
  induction s as [|c s IH]; cbn [contains find].
  - rewrite orb_false_r. intros Hs. rewrite Hs. split; [done | exact Hs].
  - destruct (startswith sub (String c s)) eqn:Hs; [intros _; split; [done | exact Hs] |].
    cbn [orb]. intros [Hpos Hdrop]%IH.
    replace (find sub s <? 0) with false by (symmetry; apply Z.ltb_ge; lia).
    split; [lia |].
    replace (Z.to_nat (find sub s + 1)) with (S (Z.to_nat (find sub s))) by lia.
    exact Hdrop.
Qed.

Lemma rstrip_keeps_prefix sub : forall t,
  forallb_str (fun c => negb (isspace c)) sub = true ->
  startswith sub t = true ->
  startswith sub (rstrip_by isspace t) = true.
Proof.
  induction sub as [|a sub IH]; intros t Hall Hstart; [done |].
  destruct t as [|b t]; [done |].
  cbn in Hall, Hstart. apply andb_prop in Hall as [Ha Hall].
  apply andb_prop in Hstart as [Hab Hstart].
  apply Ascii.eqb_eq in Hab as <-. apply negb_true_iff in Ha.
  specialize (IH t Hall Hstart). cbn [rstrip_by].
  destruct (rstrip_by isspace t) as [|r0 r]; [rewrite Ha | ]; cbn;
    rewrite Ascii.eqb_refl; cbn; [| exact IH].
  by destruct sub.
Qed.

Lemma strip_keeps_prefix sub t :
  sub <> "" ->
  forallb_str (fun c => negb (isspace c)) sub = true ->
  startswith sub t = true ->
  startswith sub (strip t) = true.
Proof.
  intros Hne Hall Hstart. unfold strip.
  assert (Hl : lstrip_by isspace t = t).
  { destruct sub as [|a sub]; [done |]. destruct t as [|b t]; [done |].
    cbn in Hall, Hstart. apply andb_prop in Hall as [Ha _].
    apply andb_prop in Hstart as [Hab _]. apply Ascii.eqb_eq in Hab as <-.
    apply negb_true_iff in Ha. cbn. by rewrite Ha. }
  rewrite Hl. by apply rstrip_keeps_prefix.
Qed.

(** The first occurrence: where [find] points, the text starts with
    the marker, and nowhere before. *)
Lemma find_first sub s :
  contains sub s = true ->
  0 <= find sub s /\
  startswith sub (drop (Z.to_nat (find sub s)) s) = true /\
  forall i, (i < Z.to_nat (find sub s))%nat -> startswith sub (drop i s) = false.
Proof.
  induction s as [|c s IH]; cbn [contains find].
  - rewrite orb_false_r. intros Hs. rewrite Hs. split; [done |].
    split; [exact Hs | intros i Hi; cbn in Hi; lia].
  - destruct (startswith sub (String c s)) eqn:Hs;
      [intros _; split; [done |]; split; [exact Hs | intros i Hi; cbn in Hi; lia] |].
    cbn [orb]. intros (Hpos & Hdrop & Hbefore)%IH.
    replace (find sub s <? 0) with false by (symmetry; apply Z.ltb_ge; lia).
    split; [lia |].
    replace (Z.to_nat (find sub s + 1)) with (S (Z.to_nat (find sub s))) by lia.
    split; [exact Hdrop |].
    intros [|i] Hi; [exact Hs |]. cbn [drop]. apply Hbefore. lia.
Qed.

Lemma well_spaced_from_drop n : forall s,
  well_spaced_from s = true -> well_spaced_from (drop n s) = true.
Proof.
  induction n as [|n IH]; intros s Hs; [done |].
  destruct s as [|c s]; [done |]. cbn [drop]. apply IH.
  cbn in Hs. by apply andb_prop in Hs as [_ Hs].
Qed.

Lemma rstrip_well_spaced s :
  well_spaced_from s = true -> rstrip_by isspace s = s.
Proof.
  induction s as [|c s IH]; [done |]. cbn [well_spaced_from rstrip_by].
  intros [Hc Hs]%andb_prop. rewrite (IH Hs).
  destruct s as [|b s]; [| done].
  destruct (isspace c); [| done].
  cbn in Hc. by rewrite andb_false_r in Hc.
Qed.

(** A part of a normalised text that starts with a character that is
    not whitespace is its own [strip]. *)
Lemma strip_drop_normalized n text c rest :
  drop n (normalize_whitespace text) = String c rest ->
  isspace c = false ->
  strip (drop n (normalize_whitespace text)) = drop n (normalize_whitespace text).
Proof.
  intros Hd Hc. unfold strip.
  assert (Hl : lstrip_by isspace (drop n (normalize_whitespace text))
               = drop n (normalize_whitespace text))
    by (rewrite Hd; cbn; by rewrite Hc).
  rewrite Hl. apply rstrip_well_spaced, well_spaced_from_drop.
  pose proof (normalize_whitespace_well_spaced_from text) as Hw. exact Hw.
Qed.

(** X11.  The employee count of a details page is the facts text
    from the first occurrence of [Mitarbeiter] on, so that it starts
    with that marker; there is none when the facts text does not
    contain the marker or the page has no facts. *)
Theorem employee_count_starts_with_marker (soup : E) :
  exists employee_count founding_year,
    parse_facts soup = Ok (employee_count, founding_year) /\
    (forall e, employee_count = Some e -> startswith "Mitarbeiter" e = true) /\
    (find_string
       (fun s => truthy s &&
                 (contains Gruendungsjahr s || contains "Mitarbeiteranzahl" s))
       soup = None -> employee_count = None) /\
    forall s parent,
      find_string
        (fun s => truthy s &&
                  (contains Gruendungsjahr s || contains "Mitarbeiteranzahl" s))
        soup = Some (s, parent) ->
      s <> "" ->
      let text_block := normalize_whitespace (get_text " " false parent) in
      if contains "Mitarbeiter" text_block then
        exists n : nat,
          employee_count = Some (drop n text_block) /\
          startswith "Mitarbeiter" (drop n text_block) = true /\
          forall i, (i < n)%nat ->
            startswith "Mitarbeiter" (drop i text_block) = false
      else employee_count = None.
Proof.
  unfold parse_facts.
  destruct (find_string _ soup) as [[s parent]|];
    [| eexists _, _; split; [reflexivity |]; by repeat split].
  destruct (truthy s) eqn:Hs.
  2:{ eexists _, _. split; [reflexivity |]. split; [done |]. split; [done |].
      intros s0 p0 [= <- <-] Hne. by apply truthy_true in Hne; congruence. }
  set (text_block := normalize_whitespace (get_text " " false parent)).
  assert (Hfy : exists fy,
            (if contains Gruendungsjahr text_block
             then match first_year (split_ws text_block) with
                  | Ok y => Ok y
                  | Raise ValueError => Ok None
                  | Raise e => Raise e
                  end
             else Ok None) = Ok fy).
  { destruct (contains Gruendungsjahr text_block); [| by eexists].
    destruct (first_year _) as [y|e] eqn:Hy; [by eexists |].
    apply first_year_raises in Hy as ->. by eexists. }
  destruct Hfy as [fy ->]. cbn [mbind result_bind].
  eexists _, _. split; [reflexivity |].
  assert (Hvalue : contains "Mitarbeiter" text_block = true ->
            let n := Z.to_nat (find "Mitarbeiter" text_block) in
            strip (slice_from (find "Mitarbeiter" text_block) text_block)
              = drop n text_block /\
            startswith "Mitarbeiter" (drop n text_block) = true /\
            forall i, (i < n)%nat ->
              startswith "Mitarbeiter" (drop i text_block) = false).
  { intros Hm n. destruct (find_first _ _ Hm) as (Hpos & Hstart & Hbefore).
    split; [| by split].
    unfold slice_from.
    replace (find "Mitarbeiter" text_block <? 0) with false
      by (symmetry; apply Z.ltb_ge; lia).
    fold n. fold n in Hstart.
    destruct (drop n text_block) as [|c rest] eqn:Hd; [done |].
    rewrite <- Hd. unfold text_block in Hd |- *.
    eapply strip_drop_normalized; [exact Hd |].
    cbn [startswith] in Hstart. apply andb_prop in Hstart as [Hc _].
    apply Ascii.eqb_eq in Hc as <-. reflexivity. }
  split; [| split; [done |]].
  - destruct (contains "Mitarbeiter" text_block) eqn:Hm; [| done].
    intros e [= <-]. destruct (Hvalue eq_refl) as (-> & Hstart & _). exact Hstart.
  - intros s0 p0 [= <- <-] Hne. cbv zeta. fold text_block.
    destruct (contains "Mitarbeiter" text_block) eqn:Hm; [| done].
    destruct (Hvalue eq_refl) as (Hv & Hstart & Hbefore).
    exists (Z.to_nat (find "Mitarbeiter" text_block)).
    split; [by rewrite Hv | by split].
Qed.

End DetailsProps.

Section ProductProps.
Import PyStr Utils ProductParser Props.
Context {E : Type} `{!Soup E} `{!PyRuntime}.

Lemma product_card_shape base_url (card : E) (r : record) :
  card_summary base_url card = Ok r ->
  dom r = product_keys /\
  r !! "company_id" = Some (of_opt_str (product_company_id card)) /\
  match or_tag (select_one "a[data-test='company-link']" card)
          (select_one "a[href*='/firmen/']" card) ≫= attr "href" with
  | Some href =>
      exists joined,
        urljoin base_url href = Ok joined /\
        r !! "company_url" = Some (VStr joined)
  | None =>
      r !! "company_id" = Some VNone /\ r !! "company_url" = Some VNone
  end /\
  absent_or_text (r !! "name") /\
  absent_or_text (r !! "company_name") /\
  absent_or_text (r !! "region") /\
  absent_or_text (r !! "description").
Proof.
  unfold card_summary, product_company_id, Spec.first_present.
  assert (Hproduct : forall (k : option string -> result record),
            (forall u, k u = Ok r ->
               dom r = product_keys /\
               r !! "company_id" = Some (of_opt_str (product_company_id card)) /\
               match or_tag (select_one "a[data-test='company-link']" card)
                       (select_one "a[href*='/firmen/']" card) ≫= attr "href" with
               | Some href =>
                   exists joined,
                     urljoin base_url href = Ok joined /\
                     r !! "company_url" = Some (VStr joined)
               | None =>
                   r !! "company_id" = Some VNone /\
                   r !! "company_url" = Some VNone
               end /\
               absent_or_text (r !! "name") /\
               absent_or_text (r !! "company_name") /\
               absent_or_text (r !! "region") /\
               absent_or_text (r !! "description")) ->
            forall m : result (option string),
              (u ← m; k u) = Ok r ->
              dom r = product_keys /\
              r !! "company_id" = Some (of_opt_str (product_company_id card)) /\
              match or_tag (select_one "a[data-test='company-link']" card)
                      (select_one "a[href*='/firmen/']" card) ≫= attr "href" with
              | Some href =>
                  exists joined,
                    urljoin base_url href = Ok joined /\
                    r !! "company_url" = Some (VStr joined)
              | None =>
                  r !! "company_id" = Some VNone /\
                  r !! "company_url" = Some VNone
              end /\
              absent_or_text (r !! "name") /\
              absent_or_text (r !! "company_name") /\
              absent_or_text (r !! "region") /\
              absent_or_text (r !! "description")).
  { intros k Hk [u|e]; cbn [mbind result_bind]; [apply Hk | done]. }
  apply Hproduct. intros u. unfold product_company_id, Spec.first_present.
  destruct (or_tag (select_one "a[data-test='company-link']" card)
              (select_one "a[href*='/firmen/']" card)) as [l|]; cbn.
  2:{ intros [= <-]. split; [reflexivity |]. split; [reflexivity |].
      split; [by split |]. repeat split; apply or_none_absent_or_text. }
  destruct (attr "href" l) as [href|]; cbn.
  2:{ intros [= <-]. split; [reflexivity |]. split; [reflexivity |].
      split; [by split |]. repeat split; apply or_none_absent_or_text. }
  destruct (urljoin base_url href) as [joined|e]; cbn; [| done].
  destruct (attr "data-id" l) as [[|c s]|]; cbn;
    try (destruct (last_dash_token href) as (tok & -> & ->); cbn);
    (intros [= <-]; split; [reflexivity |]; split; [reflexivity |];
     split; [by eexists |]; repeat split; apply or_none_absent_or_text).
Qed.


(** X13.  The [company_id] of a product record comes from the
    company link of the card alone: its [data-id] when that has a
    non-empty value, else the last dash-delimited token of its
    target; [company_url] is the target joined with the base URL.
    Without a company link that has a target both are [None]; data
    attributes of the card are not consulted. *)
Theorem product_company_from_link (base_url : string) (card : E) (r : record) :
  card_summary base_url card = Ok r ->
  r !! "company_id" = Some (of_opt_str (product_company_id card)) /\
  match or_tag (select_one "a[data-test='company-link']" card)
          (select_one "a[href*='/firmen/']" card) ≫= attr "href" with
  | Some href =>
      exists joined,
        urljoin base_url href = Ok joined /\
        r !! "company_url" = Some (VStr joined)
  | None =>
      r !! "company_id" = Some VNone /\ r !! "company_url" = Some VNone
  end.
Proof.
  intros Hr.
  by destruct (product_card_shape base_url card r Hr) as (_ & Hid & Hurl & _).
Qed.

End ProductProps.

Section LoopProps.
Import PyStr Utils Spec.
Context {W : Type} `{!Transport W}.
Variables (url_of : Z -> result string)
          (extract : string -> result (list record))
          (post : list record -> M W (list record)).

(** A limit that is not positive is no limit. *)
Lemma crawl_loop_nonpositive_limit max_pages :
  max_pages <= 0 ->
  forall fuel page acc (s : Env W),
    Spec.crawl_loop url_of extract post max_pages fuel page acc s
    = Spec.crawl_loop url_of extract post 0 fuel page acc s.
Proof.
  intros Hmp fuel. induction fuel as [|fuel IH]; intros page acc s; [done |].
  cbn [Spec.crawl_loop]. unfold mbind, M_bind.
  destruct (lift (url_of page) s) as [url s0|e s0|]; [| done | done].
  destruct (fetch_page url s0) as [html s1|e s1|]; [| done | done].
  destruct (truthy html); cbn [negb]; [| done].
  destruct (lift (extract html) s1) as [rs s2|e s2|]; [| done | done].
  destruct (truthy_list rs); cbn [negb]; [| done].
  destruct (post rs s2) as [rs' s3|e s3|]; [| done | done].
  assert (Hl : Main.limit_reached max_pages page = false)
    by (apply limit_reached_false; lia).
  rewrite Hl, limit_reached_unbounded. apply IH.
Qed.

(** A fetch of the first page that fails ends the loop with what was
    accumulated. *)
Lemma crawl_loop_first_fetch_empty max_pages fuel page acc url (s s' : Env W) :
  url_of page = Ok url ->
  fetch_page url s = Ret "" s' ->
  Spec.crawl_loop url_of extract post max_pages (S fuel) page acc s = Ret acc s'.
Proof.
  intros Hu Hf. cbn [Spec.crawl_loop]. unfold mbind, M_bind. unfold lift at 1.
  by rewrite Hu, Hf.
Qed.

End LoopProps.

Section RequestLog.
Import PyStr Utils Spec Props.
Context {W : Type} `{!Transport W}.

(** What a fetch adds to the log of requests: its URL, once per
    attempt, and at most four times with the default retries. *)
Lemma fetch_page_requests url (s : Env W) body s' :
  fetch_page url s = Ret body s' ->
  exists n, (1 <= n <= 4)%nat /\ requested s' = requested s ++ replicate n url.
Proof.
  intros Hf.
  destruct (fetch_page_with_bounded default_retry_config url None s
              ltac:(done) ltac:(intros i Hi; apply default_sleeps; cbn in Hi; lia))
    as (body' & n & Hn & Hrun).
  unfold fetch_page in Hf. rewrite Hrun in Hf. injection Hf as _ <-.
  exists n. split; [cbn in Hn; lia | done].
Qed.

Lemma crawl_requests url_of extract max_pages page (s : Env W) out s' :
  Spec.crawl url_of extract mret max_pages page s out s' ->
  exists counts,
    requested s' = requested s ++ page_requests url_of page counts /\
    Forall (fun n => (1 <= n <= 4)%nat) counts /\
    (forall j : nat, (j < length counts)%nat ->
       exists url, url_of (page + Z.of_nat j) = Ok url) /\
    (0 < max_pages -> page <= max_pages ->
     Z.of_nat (length counts) <= max_pages - page + 1).
Proof.
  induction 1 as [page url s s' Hu Hf
                 |page url s html s' Hu Hf Hne Hx
                 |page url s html s1 rs rs' s' Hu Hf Hne Hx Hrs Hp Hpos Hle
                 |page url s html s1 rs rs' s2 rest s' Hu Hf Hne Hx Hrs Hp Hl _
                    (counts & Hreq & Hcounts & Hurls & Hbound)].
  - destruct (fetch_page_requests _ _ _ _ Hf) as (n & Hn & Hr).
    exists [n]. cbn [page_requests length]. rewrite Hu, app_nil_r.
    split; [done |]. split; [by constructor |]. split; [| lia].
    intros [|j] Hj; [| cbn in Hj; lia]. rewrite Z.add_0_r. eauto.
  - destruct (fetch_page_requests _ _ _ _ Hf) as (n & Hn & Hr).
    exists [n]. cbn [page_requests length]. rewrite Hu, app_nil_r.
    split; [done |]. split; [by constructor |]. split; [| lia].
    intros [|j] Hj; [| cbn in Hj; lia]. rewrite Z.add_0_r. eauto.
  - destruct (fetch_page_requests _ _ _ _ Hf) as (n & Hn & Hr).
    injection Hp as _ <-.
    exists [n]. cbn [page_requests length]. rewrite Hu, app_nil_r.
    split; [done |]. split; [by constructor |]. split; [| lia].
    intros [|j] Hj; [| cbn in Hj; lia]. rewrite Z.add_0_r. eauto.
  - destruct (fetch_page_requests _ _ _ _ Hf) as (n & Hn & Hr).
    injection Hp as _ <-.
    exists (n :: counts). cbn [page_requests length].
    rewrite Hu, Hreq, Hr, <- app_assoc.
    split; [done |]. split; [by constructor |]. split.
    + intros [|j] Hj; [rewrite Z.add_0_r; eauto |].
      destruct (Hurls j ltac:(lia)) as [u Hj'].
      exists u. by replace (page + Z.of_nat (S j)) with (page + 1 + Z.of_nat j) by lia.
    + intros Hpos Hle. specialize (Hbound Hpos). lia.
Qed.

End RequestLog.

Section CrawlExtras.
Import PyStr Utils Spec Main Props.
Context {W E : Type} `{!Transport W} `{!Soup E} `{!PyRuntime}.
Variables (base_url query region language : string).


(** X15.  A page limit that is zero or negative is no limit: both
    crawls run exactly as with [max_pages = 0]. *)
Theorem scrape_nonpositive_limit_is_unlimited
    (max_pages : Z) (include_details : bool) (fuel : nat) (s : Env W) :
  max_pages <= 0 ->
  scrape_company_mode base_url query region language max_pages
    include_details fuel s
  = scrape_company_mode base_url query region language 0
      include_details fuel s /\
  scrape_product_mode base_url query region language max_pages fuel s
  = scrape_product_mode base_url query region language 0 fuel s.
Proof.
  intros Hmp. unfold scrape_company_mode, scrape_product_mode.
  rewrite !scrape_company_loop_eq, !scrape_product_loop_eq.
  split; by apply crawl_loop_nonpositive_limit.
Qed.

(** X16.  When every request for the first search page fails, the
    crawl returns no record after four requests for that page, with
    sleeps of 0.5, 1 and 2 seconds between them, whatever the page
    limit. *)
Theorem scrape_first_page_unreachable
    (max_pages : Z) (include_details : bool) (fuel : nat) (s : Env W)
    (url : string) :
  company_url base_url query region language 1 = Ok url ->
  always_fails url (world s) ->
  exists s' ds,
    scrape_company_mode base_url query region language max_pages
      include_details (S fuel) s = Ret [] s' /\
    requested s' = requested s ++ replicate 4 url /\
    slept s' = slept s ++ ds /\
    Forall2 Qeq ds [1 # 2; 1; 2]%Q.
Proof.
  intros Hu Hfail.
  pose proof (fetch_page_with_exhaust default_retry_config url None s
                ltac:(done)
                ltac:(intros i Hi; apply default_sleeps; cbn in Hi; lia)
                (fun i _ => Hfail i)) as Hf.
  eexists _, _. split; [| split; [| split]].
  - unfold scrape_company_mode. rewrite scrape_company_loop_eq.
    eapply crawl_loop_first_fetch_empty; [exact Hu | exact Hf].
  - reflexivity.
  - reflexivity.
  - repeat constructor.
Qed.

(** X17.  A product crawl that returns has visited the pages 1, 2,
    ... in the states of its run; each visited page holds at least
    one record that [parse_product_list] extracted from its text,
    and the result is exactly the concatenation of the records of
    the visited pages, in page order.  With a positive [max_pages]
    at most [max_pages] pages are visited. *)
Theorem scrape_product_mode_pages
    (max_pages : Z) (fuel : nat) (s : Env W) out s' :
  scrape_product_mode base_url query region language max_pages fuel s
    = Ret out s' ->
  exists vs : list visit,
    visits (product_url base_url query region language)
      (product_extract base_url) mret max_pages 1 s vs s' /\
    out = concat (extracted <$> vs) /\
    page_no <$> vs = (fun j : nat => 1 + Z.of_nat j) <$> seq 0 (length vs) /\
    Forall (fun v =>
              ProductParser.parse_product_list (page_html v) base_url
                = Ok (extracted v) /\
              extracted v <> [] /\
              kept v = extracted v) vs /\
    (0 < max_pages -> Z.of_nat (length vs) <= max_pages).
Proof.
  unfold scrape_product_mode. rewrite scrape_product_loop_eq.
  intros (vs & Hvs & ->)%crawl_loop_visits.
  destruct (visits_pages (product_url base_url query region language)
              (product_extract base_url) mret max_pages
              (fun rs rs' => rs' = rs) 1 s vs s')
    as (Hno & Hall & Hbound); [| exact Hvs |].
  { intros rs s1 rs' s2 Hp. unfold mret, M_ret in Hp. congruence. }
  exists vs. split; [done |]. split.
  { cbn [app]. f_equal. apply list_fmap_ext. intros i v Hv.
    apply list_elem_of_lookup_2 in Hv.
    by destruct (proj1 (Forall_forall _ _) Hall v Hv) as (_ & _ & _ & ->). }
  split; [done |]. split.
  - eapply Forall_impl; [exact Hall |]. by intros v (_ & Hx & Hne & Hk).
  - intros Hpos. destruct (Z_le_gt_dec 1 max_pages); [| lia].
    specialize (Hbound Hpos ltac:(lia)). lia.
Qed.

(** X18.  A company crawl that returns has visited the pages 1, 2,
    ... in the states of its run, at most [max_pages] of them when
    [max_pages] is positive; each visited page holds at least one
    record that [parse_company_list] extracted from its text, and
    the crawl returns as many records as the visited pages hold,
    exactly their records when the details are switched off. *)
Theorem scrape_company_mode_page_bound
    (max_pages : Z) (include_details : bool) (fuel : nat) (s : Env W) out s' :
  scrape_company_mode base_url query region language max_pages
    include_details fuel s = Ret out s' ->
  exists vs : list visit,
    visits (company_url base_url query region language)
      (company_extract base_url) (company_post include_details) max_pages
      1 s vs s' /\
    out = concat (kept <$> vs) /\
    page_no <$> vs = (fun j : nat => 1 + Z.of_nat j) <$> seq 0 (length vs) /\
    Forall (fun v =>
              CompanyParser.parse_company_list (page_html v) base_url
                = Ok (extracted v) /\
              extracted v <> [] /\
              length (kept v) = length (extracted v) /\
              (include_details = false -> kept v = extracted v)) vs /\
    length out = length (concat (extracted <$> vs)) /\
    (0 < max_pages -> Z.of_nat (length vs) <= max_pages).
Proof.
  unfold scrape_company_mode. rewrite scrape_company_loop_eq.
  intros (vs & Hvs & ->)%crawl_loop_visits.
  destruct (visits_pages (company_url base_url query region language)
              (company_extract base_url) (company_post include_details)
              max_pages
              (fun rs rs' => length rs' = length rs /\
                             (include_details = false -> rs' = rs))
              1 s vs s') as (Hno & Hall & Hbound); [| exact Hvs |].
  { intros rs s1 rs' s2 Hp. split.
    - apply company_post_frame, Forall2_length in Hp. done.
    - intros ->. cbn in Hp. unfold mret, M_ret in Hp. congruence. }
  exists vs. split; [done |]. split; [done |]. split; [done |]. split.
  { eapply Forall_impl; [exact Hall |]. by intros v (_ & Hx & Hne & Hlen & Hk). }
  split.
  - cbn [app]. clear -Hall.
    induction Hall as [|v vs (_ & _ & _ & Hlen & _) _ IH]; [done |].
    cbn [fmap list_fmap concat]. rewrite !length_app.
    change (list_fmap visit (list record) kept vs) with (kept <$> vs).
    change (list_fmap visit (list record) extracted vs) with (extracted <$> vs).
    lia.
  - intros Hpos. destruct (Z_le_gt_dec 1 max_pages); [| lia].
    specialize (Hbound Hpos ltac:(lia)). lia.
Qed.

(** X19.  A product crawl requests search pages only: page 1, then
    page 2 and so on without a gap, each between one and four times,
    and no page beyond a positive [max_pages]. *)
Theorem scrape_product_mode_requests
    (max_pages : Z) (fuel : nat) (s : Env W) out s' :
  scrape_product_mode base_url query region language max_pages fuel s
    = Ret out s' ->
  exists counts : list nat,
    requested s' =
      requested s
      ++ page_requests (product_url base_url query region language) 1 counts /\
    Forall (fun n => (1 <= n <= 4)%nat) counts /\
    (forall j : nat, (j < length counts)%nat ->
       exists url,
         product_url base_url query region language (1 + Z.of_nat j) = Ok url) /\
    (0 < max_pages -> Z.of_nat (length counts) <= max_pages).
Proof.
  unfold scrape_product_mode. rewrite scrape_product_loop_eq.
  intros (rest & -> & Hcrawl)%crawl_loop_sound.
  destruct (crawl_requests _ _ _ _ _ _ _ Hcrawl)
    as (counts & Hreq & Hc & Hurls & Hbound).
  exists counts. repeat split; [done | done | done |].
  intros Hpos. destruct (Z_le_gt_dec 1 max_pages); [| lia].
  specialize (Hbound Hpos ltac:(lia)). lia.
Qed.

End CrawlExtras.

Section DetailExtras.
Import PyStr Utils Spec Main Props CompanyParser.
Context {W E : Type} `{!Transport W} `{!Soup E} `{!PyRuntime}.

(** X20.  The detail pass makes no request for a summary whose
    [details_url] is missing, [None] or empty: a page of such
    summaries comes back as it is, with the log of requests and
    sleeps untouched. *)
Theorem attach_details_without_urls (companies : list record) (s : Env W) :
  Forall (fun c : record =>
            dict_get c "details_url" = VNone \/
            dict_get c "details_url" = VStr "") companies ->
  attach_details companies s = Ret companies s.
Proof.
  intros Hcs. induction Hcs as [|c cs Hc _ IH]; [done |].
  cbn [attach_details]. unfold mbind, M_bind.
  assert (Hone : attach_one c s = Ret c s).
  { unfold attach_one. by destruct Hc as [-> | ->]. }
  by rewrite Hone, IH.
Qed.

(** X21.  The details attached to a summary are a dictionary with the
    twelve keys of the details whose [company_id] is the one of the
    summary; they are attached only after at least one request for
    the [details_url] of the summary, and only that URL is
    requested. *)
Theorem attached_details_belong_to_company
    (company company' : record) (s s' : Env W) :
  company !! "details" = None ->
  attach_one company s = Ret company' s' ->
  (exists n,
     (n <= 4)%nat /\
     requested s' = requested s ++
       replicate n (match dict_get company "details_url" with
                    | VStr u => u
                    | _ => ""
                    end)) /\
  forall v, company' !! "details" = Some v ->
    exists d url,
      v = VDict d /\
      dom d = details_keys /\
      d !! "company_id" = Some (dict_get company "company_id") /\
      company' = <["details" := v]> company /\
      dict_get company "details_url" = VStr url /\
      url <> "" /\
      In url (requested s').
Proof.
  intros Hd. unfold attach_one.
  destruct (dict_get company "details_url") as [|url| | |] eqn:Hurl;
    try done.
  { intros [= <- <-]. split; [exists 0%nat; split; [lia | cbn; by rewrite app_nil_r] |].
    intros v Hv. by rewrite Hd in Hv. }
  destruct url as [|a url]; cbn [truthy negb].
  { intros [= <- <-]. split; [exists 0%nat; split; [lia | cbn; by rewrite app_nil_r] |].
    intros v Hv. by rewrite Hd in Hv. }
  unfold mbind, M_bind.
  destruct (fetch_page (String a url) s) as [html s1|e s1|] eqn:Hf; [| done | done].
  destruct (fetch_page_requests _ _ _ _ Hf) as (n & Hn & Hreq).
  destruct (truthy html); cbn [negb].
  2:{ intros [= <- <-]. split; [exists n; split; [lia | done] |].
      intros v Hv. by rewrite Hd in Hv. }
  destruct (parse_company_details_fields html (dict_get company "company_id"))
    as (d & ps & cs & certs & Hparse & Hdom & Hid & _).
  unfold lift at 1. rewrite Hparse. intros [= <- <-].
  split; [exists n; split; [lia | done] |].
  intros v Hv. rewrite lookup_insert in Hv.
  assert (v = VDict d) as -> by (by simplify_option_eq).
  exists d, (String a url). repeat split; try done.
  rewrite Hreq. apply in_or_app. right.
  destruct n as [|n]; [lia | by left].
Qed.

End DetailExtras.

Section ConfigFacts.
Import PyStr Config.

Lemma override_lookup key v effective k :
  override key v effective !! k =
    if decide (key = k) then
      match given v with
      | Some j => Some j
      | None => effective !! k
      end
    else effective !! k.
Proof.
  unfold override, given. destruct v as [s|]; cbn; [| by case_decide].
  destruct (truthy s); [| by case_decide].
  by rewrite lookup_insert.
Qed.

Lemma merged_lookup base_settings input_file k :
  match input_file with
  | Some (Ok (JDict input_data)) => input_data ∪ base_settings
  | _ => base_settings
  end !! k = from_files base_settings input_file k.
Proof.
  unfold from_files.
  destruct input_file as [[[]|]|]; try done.
  rewrite lookup_union. by destruct (d !! k), (base_settings !! k).
Qed.

Lemma eqb_decide (a b : string) :
  String.eqb a b = bool_decide (b = a).
Proof.
  destruct (String.eqb_spec a b) as [-> | Hne].
  - by rewrite bool_decide_eq_true_2.
  - by rewrite bool_decide_eq_false_2.
Qed.

(** The command line overrides key by key, and never the query. *)
Lemma cli_overrides_lookup args effective key :
  key <> "query" ->
  cli_overrides args effective !! key =
    match from_command_line args key with
    | Some v => Some v
    | None => effective !! key
    end.
Proof.
  intros Hq. unfold cli_overrides, from_command_line. rewrite !eqb_decide.
  destruct (no_details args), (max_pages args) as [n|];
    rewrite ?override_lookup, ?lookup_insert, ?override_lookup, ?lookup_insert,
      ?override_lookup;
    repeat (case_decide; subst; try done);
    repeat (case_bool_decide; subst; try done);
    cbn; by repeat case_match.
Qed.

Lemma cli_overrides_query args effective :
  cli_overrides args effective !! "query" = effective !! "query".
Proof.
  unfold cli_overrides.
  destruct (no_details args), (max_pages args) as [n|];
    rewrite ?override_lookup, ?lookup_insert, ?override_lookup, ?lookup_insert,
      ?override_lookup;
    by repeat (case_decide; try done).
Qed.

End ConfigFacts.

Section ConfigExtras.
Import PyStr Config.
Variables (base_settings : gmap string json) (input_file : option (result json))
          (args : Namespace).

(** X22.  [resolve_effective_config] ends the process with status 1
    exactly when no usable query is found: the query is the one of
    the command line when that is given and not empty, and else the
    [query] of the input file or, failing that, of the settings; it
    is usable when it is true as a condition.  When the function
    returns, the configuration holds that query. *)
Theorem resolve_effective_config_query :
  let chosen := by_precedence base_settings input_file args "query" in
  (forall code,
     resolve_effective_config base_settings input_file args = Exits code ->
     code = 1) /\
  (resolve_effective_config base_settings input_file args = Exits 1 <->
   chosen = None \/ exists q, chosen = Some q /\ truthy_json q = false) /\
  (forall cfg,
     resolve_effective_config base_settings input_file args = Returns cfg ->
     exists q, chosen = Some q /\ truthy_json q = true /\
               cfg !! "query" = Some q).
Proof.
  assert (Hchosen :
    match query args with
    | Some q =>
        if truthy q then Some (JStr q)
        else cli_overrides args (with_input_file base_settings input_file) !! "query"
    | None => cli_overrides args (with_input_file base_settings input_file) !! "query"
    end = by_precedence base_settings input_file args "query").
  { rewrite cli_overrides_query. unfold with_input_file. rewrite merged_lookup.
    unfold by_precedence, from_command_line, given. cbn.
    destruct (query args) as [q|]; cbn; [| done]. by destruct (truthy q). }
  cbv zeta. unfold resolve_effective_config. cbv zeta. rewrite Hchosen.
  destruct (by_precedence base_settings input_file args "query") as [q|].
  - destruct (truthy_json q) eqn:Hq.
    + split; [done |]. split.
      * split; [done |]. intros [? | (q' & [= <-] & ?)]; congruence.
      * intros cfg [= <-]. exists q. by rewrite lookup_insert_eq.
    + split; [by intros code [= <-] |]. split; [| done].
      split; [| done]. intros _. right. by exists q.
  - split; [by intros code [= <-] |]. split; [| done].
    split; [| done]. intros _. by left.
Qed.

(** X23.  In the configuration [resolve_effective_config] returns,
    every key other than the query has the value of the command line
    when the command line sets it, else the value of the input file
    when that is a readable JSON object with the key, else the value
    of the settings; a key that none of the three has is absent.
    The command line sets a text option that is given and not empty,
    [max_pages] whenever [--max-pages] is given (0 included), and
    [include_company_details] to false with [--no-details]. *)
Theorem resolve_effective_config_precedence (cfg : gmap string json) :
  resolve_effective_config base_settings input_file args = Returns cfg ->
  forall key, key <> "query" ->
    cfg !! key = by_precedence base_settings input_file args key.
Proof.
  unfold resolve_effective_config. cbv zeta. intros Hrun key Hkey.
  repeat case_match; try done; injection Hrun as <-;
    rewrite lookup_insert_ne by done;
    rewrite cli_overrides_lookup by done;
    unfold with_input_file, by_precedence; by rewrite merged_lookup.
Qed.

End ConfigExtras.

Section LoggingExtras.
Import Logging.

Lemma after_calls_initialized names s :
  initialized s = true -> after_calls names s = s.
Proof.
  intros Hs. induction names as [|name names IH]; [done |].
  unfold after_calls in *. cbn [foldl get_logger snd].
  unfold _init_logging at 2. by rewrite Hs.
Qed.

(** X24.  However many loggers are requested, [logging.basicConfig]
    is called once, by the first [get_logger] of the process; every
    later call leaves the logging state as it is. *)
Theorem logging_configured_once (name : string) (names : list string) :
  configured (after_calls (name :: names) fresh) = 1%nat /\
  initialized (after_calls (name :: names) fresh) = true /\
  forall s, initialized s = true ->
    after_calls names s = s /\ (get_logger name s).2 = s.
Proof.
  assert (Hfirst : after_calls (name :: names) fresh
                   = {| initialized := true; configured := 1 |}).
  { unfold after_calls. cbn [foldl get_logger snd].
    by apply (after_calls_initialized names). }
  rewrite Hfirst. split; [done |]. split; [done |].
  intros s Hs. split; [by apply after_calls_initialized |].
  cbn. unfold _init_logging. by rewrite Hs.
Qed.

End LoggingExtras.

(** * The further properties on the example pages *)

Section SampleFacts.
Import PyStr Utils Spec Main Examples Samples Props.
#[local] Existing Instances Fake.runtime Examples.soup Fake.site Fake.scripted.

Lemma product_crawl_returns :
  scrape_product_mode base "Aufzug" "DE" "de" 0 2 start
    = Ret product_crawl_output product_crawl_end.
Proof. vm_cast_no_check (eq_refl product_crawl). Qed.


Lemma acme_attach_returns :
  attach_one acme_record start = Ret acme_attached acme_attached_end.
Proof. vm_cast_no_check (eq_refl (attach_one acme_record start)). Qed.

Lemma mail_card_summary :
  CompanyParser.card_summary base mail_card = Ok (summary_of mail_card).
Proof. vm_cast_no_check (eq_refl (Ok (A := record) (summary_of mail_card))). Qed.

Lemma product_card_summary :
  ProductParser.card_summary base product_card = Ok product_card_record.
Proof. vm_cast_no_check (eq_refl (Ok (A := record) product_card_record)). Qed.

(** Nothing changes a world without a script, and every request to
    it fails. *)
Lemma unreachable_always_fails url : always_fails url (world unreachable).
Proof.
  intros i.
  assert (Hw : world_after url None (timeout default_retry_config) i
                 (world unreachable) = []).
  { induction i as [|i IH]; [done |]. cbn [world_after]. exact IH. }
  unfold fails, attempt. rewrite Hw. by eexists.
Qed.

Lemma site_world_after url n :
  world_after url None (timeout default_retry_config) n pages = pages.
Proof. induction n as [|n IH]; [done |]. cbn [world_after]. exact IH. Qed.

Lemma sample_config_returned :
  Config.resolve_effective_config Config.builtin_defaults
    (Some (Ok sample_input)) sample_args = Config.Returns sample_config.
Proof. vm_cast_no_check (eq_refl (Config.Returns sample_config)). Qed.

End SampleFacts.

Section SampleWitnesses.
Import PyStr Utils Spec Main Examples Samples Props.
#[local] Existing Instances Fake.runtime Examples.soup Fake.site Fake.scripted.

Lemma fetch_page_negative_retries_witness :
  retries no_attempt < 0 /\
  fetch_page_with no_attempt "https://www.wlw.de/" None flaky_start
    = Ret "" flaky_start.
Proof.
  split; [reflexivity |].
  apply fetch_page_negative_retries. reflexivity.
Defined.

Lemma fetch_page_total_sleep_witness :
  0 <= retries default_retry_config /\
  exists body k ds,
    (k <= 3)%nat /\
    fetch_page_with default_retry_config "https://www.wlw.de/" None flaky_start
      = Ret body
          (after_attempts "https://www.wlw.de/" None 20 default_retry_config
             (S k) flaky_start) /\
    length ds = k /\
    (total_delay ds == (1 # 2) * (inject_Z (2 ^ Z.of_nat k) - 1))%Q.
Proof.
  split; [done |].
  destruct (fetch_page_total_sleep default_retry_config "https://www.wlw.de/"
              None flaky_start ltac:(done) (fun i Hi => default_sleeps i Hi))
    as (body & k & ds & Hk & _ & _ & Hrun & _ & _ & Hlen & Hsum).
  exists body, k, ds. split; [exact Hk |]. split; [exact Hrun |].
  split; [exact Hlen | exact Hsum].
Defined.

Lemma fetch_page_http_status_witness :
  0 <= retries default_retry_config /\
  fetch_page_with default_retry_config "https://www.wlw.de/missing" None start
    = Ret "" (after_attempts "https://www.wlw.de/missing" None 20
                default_retry_config 4 start).
Proof.
  split; [done |].
  destruct (fetch_page_http_status default_retry_config
              "https://www.wlw.de/missing" None start ltac:(done)) as [_ Hfail].
  apply Hfail; [exact (fun i Hi => default_sleeps i Hi) |].
  intros i _. rewrite site_world_after.
  exists {| status_code := 404; text := "" |}. split; [reflexivity | cbn; lia].
Defined.

Lemma parse_company_list_text_fields_witness :
  CompanyParser.parse_company_list "<html>results</html>" base
    = Ok company_records /\
  Forall (fun r : record =>
            absent_or_text (r !! "name") /\
            absent_or_text (r !! "email") /\
            absent_or_text (r !! "phone_number") /\
            absent_or_text (r !! "homepage") /\
            absent_or_text (r !! "description")) company_records.
Proof.
  split; [exact company_records_parsed |].
  exact (parse_company_list_text_fields _ _ _ company_records_parsed).
Defined.

Lemma card_email_without_scheme_witness :
  CompanyParser.card_summary base mail_card = Ok (summary_of mail_card) /\
  summary_of mail_card !! "email" = Some (VStr "info@acme.example").
Proof.
  split; [exact mail_card_summary |].
  destruct (card_email_without_scheme base mail_card (summary_of mail_card)
              mail_card_summary) as (_ & _ & Hmail & _).
  apply (Hmail (Fake.Tag [("href", "mailto: info@acme.example ")] [] [] [])
           " info@acme.example "); reflexivity.
Defined.

Lemma founding_year_first_four_digit_token_witness :
  exists employee_count founding_year,
    CompanyParser.parse_facts facts_page = Ok (employee_count, founding_year) /\
    founding_year = Some 1987.
Proof.
  destruct (founding_year_first_four_digit_token facts_page)
    as (ec & fy & Hrun & _ & Hfy).
  exists ec, fy. split; [exact Hrun |].
  rewrite (Hfy CompanyParser.Gruendungsjahr facts_parent eq_refl ltac:(discriminate)).
  vm_compute. reflexivity.
Defined.

Lemma employee_count_starts_with_marker_witness :
  exists employee_count founding_year n,
    CompanyParser.parse_facts facts_page = Ok (employee_count, founding_year) /\
    employee_count
      = Some (drop n (normalize_whitespace (get_text " " false facts_parent))) /\
    employee_count = Some "Mitarbeiteranzahl: 50-99".
Proof.
  destruct (employee_count_starts_with_marker facts_page)
    as (ec & fy & Hrun & _ & _ & Hvalue).
  specialize (Hvalue CompanyParser.Gruendungsjahr facts_parent eq_refl
                ltac:(discriminate)).
  cbv zeta in Hvalue.
  assert (Hm : contains "Mitarbeiter"
                 (normalize_whitespace (get_text " " false facts_parent)) = true)
    by (vm_compute; reflexivity).
  rewrite Hm in Hvalue. destruct Hvalue as (n & Hec & _).
  exists ec, fy, n. split; [exact Hrun |]. split; [exact Hec |].
  assert (Hv : CompanyParser.parse_facts facts_page
               = Ok (Some "Mitarbeiteranzahl: 50-99", Some 1987))
    by (vm_compute; reflexivity).
  rewrite Hv in Hrun. congruence.
Defined.

Lemma product_company_from_link_witness :
  ProductParser.card_summary base product_card = Ok product_card_record /\
  product_card_record !! "company_id" = Some (VStr "4711") /\
  product_card_record !! "company_url"
    = Some (VStr "https://www.wlw.de/firmen/acme-gmbh-4711").
Proof.
  split; [exact product_card_summary |].
  destruct (product_company_from_link base product_card product_card_record
              product_card_summary) as (Hid & _).
  split; [rewrite Hid; vm_compute; reflexivity | vm_compute; reflexivity].
Defined.


Lemma scrape_nonpositive_limit_is_unlimited_witness :
  -1 <= 0 /\
  scrape_company_mode base "Aufzug" "DE" "de" (-1) true 3 start
    = scrape_company_mode base "Aufzug" "DE" "de" 0 true 3 start /\
  scrape_product_mode base "Aufzug" "DE" "de" (-1) 3 start
    = scrape_product_mode base "Aufzug" "DE" "de" 0 3 start.
Proof.
  split; [lia |].
  apply (scrape_nonpositive_limit_is_unlimited base "Aufzug" "DE" "de" (-1) true
           3%nat start).
  lia.
Defined.

Lemma scrape_first_page_unreachable_witness :
  exists s' ds,
    scrape_company_mode base "Aufzug" "DE" "de" 0 true 1 unreachable
      = Ret [] s' /\
    requested s'
      = replicate 4 "https://www.wlw.de/de/firmen/?q=Aufzug&page=1&country=DE" /\
    slept s' = ds /\
    Forall2 Qeq ds [1 # 2; 1; 2]%Q.
Proof.
  assert (Hurl : company_url base "Aufzug" "DE" "de" 1
                 = Ok "https://www.wlw.de/de/firmen/?q=Aufzug&page=1&country=DE")
    by reflexivity.
  exact (scrape_first_page_unreachable base "Aufzug" "DE" "de" 0 true 0%nat
           unreachable _ Hurl (unreachable_always_fails _)).
Defined.

Lemma scrape_product_mode_pages_witness :
  exists vs : list visit,
    visits (product_url base "Aufzug" "DE" "de") (product_extract base) mret 0
      1 start vs product_crawl_end /\
    product_crawl_output = concat (extracted <$> vs).
Proof.
  destruct (scrape_product_mode_pages base "Aufzug" "DE" "de" 0 2%nat start
              product_crawl_output product_crawl_end product_crawl_returns)
    as (vs & Hvs & Hout & _).
  exists vs. split; [exact Hvs | exact Hout].
Defined.

Lemma scrape_company_mode_page_bound_witness :
  exists vs : list visit,
    visits (company_url base "Aufzug" "DE" "de") (company_extract base)
      (company_post true) 0 1 start vs company_crawl_end /\
    length company_crawl_output = length (concat (extracted <$> vs)).
Proof.
  destruct (scrape_company_mode_page_bound base "Aufzug" "DE" "de" 0 true 3%nat
              start company_crawl_output company_crawl_end company_crawl_returns)
    as (vs & Hvs & _ & _ & _ & Hlen & _).
  exists vs. split; [exact Hvs | exact Hlen].
Defined.

Lemma scrape_product_mode_requests_witness :
  exists counts : list nat,
    requested product_crawl_end
      = page_requests (product_url base "Aufzug" "DE" "de") 1 counts /\
    Forall (fun n => (1 <= n <= 4)%nat) counts.
Proof.
  destruct (scrape_product_mode_requests base "Aufzug" "DE" "de" 0 2%nat start
              product_crawl_output product_crawl_end product_crawl_returns)
    as (counts & Hreq & Hcounts & _).
  exists counts. split; [exact Hreq | exact Hcounts].
Defined.

Lemma attach_details_without_urls_witness :
  attach_details unlinked start = Ret unlinked start.
Proof.
  apply attach_details_without_urls.
  apply Forall_cons; split; [left; vm_compute; reflexivity |].
  apply Forall_cons; split; [right; vm_compute; reflexivity |].
  apply Forall_cons; split; [left; vm_compute; reflexivity |].
  apply Forall_nil; exact I.
Defined.

Lemma attached_details_belong_to_company_witness :
  acme_record !! "details" = None /\
  attach_one acme_record start = Ret acme_attached acme_attached_end /\
  exists n,
    (n <= 4)%nat /\
    requested acme_attached_end
      = replicate n (match dict_get acme_record "details_url" with
                     | VStr u => u
                     | _ => ""
                     end).
Proof.
  assert (Hnone : acme_record !! "details" = None) by (vm_compute; reflexivity).
  split; [exact Hnone |]. split; [exact acme_attach_returns |].
  destruct (attached_details_belong_to_company acme_record acme_attached
              start acme_attached_end Hnone acme_attach_returns) as [Hreq _].
  exact Hreq.
Defined.

Lemma resolve_effective_config_query_witness :
  Config.resolve_effective_config Config.builtin_defaults None no_args
    = Config.Exits 1.
Proof.
  destruct (resolve_effective_config_query Config.builtin_defaults None no_args)
    as (_ & Hexit & _).
  apply Hexit. left. vm_compute. reflexivity.
Defined.

Lemma resolve_effective_config_precedence_witness :
  sample_config !! "mode" = Some (Config.JStr "product") /\
  sample_config !! "region" = Some (Config.JStr "AT") /\
  sample_config !! "language" = Some (Config.JStr "de") /\
  sample_config !! "max_pages" = Some (Config.JInt 0) /\
  sample_config !! "include_company_details" = Some (Config.JBool false).
Proof.
  pose proof (resolve_effective_config_precedence Config.builtin_defaults
                (Some (Ok sample_input)) sample_args sample_config
                sample_config_returned) as H.
  repeat split; (rewrite H; [vm_compute; reflexivity | discriminate]).
Defined.

End SampleWitnesses.
